(** * researchai: the report handler and its PDF layout pass

    A shallow embedding of [generatePDF] and [handler] of the report
    API route, with the properties of the progress stream, of the cache
    short-circuit and of the page layout.

    Conventions.
    - JavaScript strings are [string]; numbers that are array indices or
      page counts are [Z] or [nat], printed in decimal by [pretty].
    - [pdfkit], [ioredis], [axios], the OpenAI client and the response
      object are outside the repository.  The document object is a
      sequence of pages with a vertical cursor and a page buffer that, as
      the route creates it, never holds more than the current page; line
      breaking and the line height are parameters of the layout section.
      The cache is a finite map; the web, the JSON codec, the analysis
      service and the strictness of the response about its head are
      parameters of the handler section.
    - Loops that the source does not bound take a [fuel]; a result that
      does not depend on the fuel is a result of the program. *)

From stdpp Require Import gmap strings list pretty.

Open Scope string_scope.
Open Scope list_scope.
Open Scope Z_scope.

(** ** JavaScript string and array primitives used by the route *)

Module Js.

(** [includes s t] is [s.includes(t)]: [t] occurs in [s] as a contiguous
    run of characters. *)
Fixpoint includes (s t : string) : bool :=
  String.prefix t s ||
  match s with
  | EmptyString => false
  | String _ s' => includes s' t
  end.

(** [some p l] is [l.some(p)]. *)
Definition some {A} (p : A → bool) (l : list A) : bool := existsb p l.

(** [findIndex p l] is [l.findIndex(p)]: the first index whose element
    satisfies [p], and [-1] when there is none. *)
Fixpoint findIndex {A} (p : A → bool) (l : list A) : Z :=
  match l with
  | [] => -1
  | x :: l' =>
      if p x then 0
      else let r := findIndex p l' in if r <? 0 then -1 else r + 1
  end.

Definition newline : Ascii.ascii := Ascii.ascii_of_nat 10.

(** [split_lines s] is [s.split('\n')]; the result is never empty. *)
Fixpoint split_lines (s : string) : list string :=
  match s with
  | EmptyString => [EmptyString]
  | String c s' =>
      if Ascii.eqb c newline then EmptyString :: split_lines s'
      else match split_lines s' with
           | l :: ls => String c l :: ls
           | [] => [String c EmptyString]
           end
  end.

(** [forEach f l a] is [l.forEach((x, index) => ...)] with the mutated
    state threaded as [a]; [from] is the index of the head of [l]. *)
Fixpoint forEach_from {A S} (f : S → A → nat → S) (from : nat) (l : list A) (a : S) : S :=
  match l with
  | [] => a
  | x :: l' => forEach_from f (Datatypes.S from) l' (f a x from)
  end.

Definition forEach {A S} (f : S → A → nat → S) (l : list A) (a : S) : S :=
  forEach_from f 0%nat l a.

(** Truthiness of a [string | null] value: [null] and the empty string
    are falsy. *)
Definition truthy (v : option string) : bool :=
  match v with
  | Some EmptyString | None => false
  | Some _ => true
  end.

End Js.

(** ** The document object *)

Module Pdf.

Record TextOptions := mkOpts {
  align : option string;
  link : option string;
  destination : option string
}.

Definition plain : TextOptions := mkOpts None None None.

(** One call of [doc.text]: the string, the font size in force, the
    explicit position when one was given, and the options. *)
Record TextItem := mkItem {
  item_text : string;
  item_size : Z;
  item_at : option (Z * Z);
  item_opts : TextOptions
}.

Abbreviation Page := (list TextItem).

(** The document object of pdfkit, a library outside the sources, as far
    as [generatePDF] uses it.  [pages] lists every page of the document
    in order, each with the text calls whose first line is on it.  The
    route creates the document with [size] and [margin] only, without
    [bufferPages]: the library then writes out the pages of the buffer
    whenever a page is added, so that the buffer holds the pages from
    index [flushed] on. *)
Record PDFDocument := mkDoc {
  pages : list Page;      (* all pages, first page first *)
  flushed : nat;          (* [_pageBufferStart]: the pages already written out *)
  page : nat;             (* index of [doc.page] *)
  doc_y : Z;              (* [doc.y] *)
  font : Z                (* current font size *)
}.

Definition margin : Z := 50.

Section Metrics.

(** [page_height] is [doc.page.height]; [lineHeight sz] is
    [doc.currentLineHeight(true)] at font size [sz]; [halfLine sz] is half
    of it, the unit of [doc.moveDown].  [wrap sz s] is the work of the
    line wrapper on the string [s] at size [sz]: one entry per line it
    emits, in order, [true] when the line is ended inside the loop over
    the words (by the width of the page or by a line break in the
    string), after which the wrapper looks at the end of the page, and
    [false] for a last line emitted after the loop. *)
Context (page_height : Z) (lineHeight : Z → Z) (wrap : Z → string → list bool)
        (halfLine : Z → Z).

(** [new PDFDocument({ size: 'A4', margin: 50 })], first page included. *)
Definition newDocument : PDFDocument := mkDoc [[]] 0 0 margin 12.

Definition fontSize (sz : Z) (doc : PDFDocument) : PDFDocument :=
  mkDoc (pages doc) (flushed doc) (page doc) (doc_y doc) sz.

Definition draw (it : TextItem) (doc : PDFDocument) : list Page :=
  alter (λ p, p ++ [it]) (page doc) (pages doc).

(** [doc.moveDown(n)], with [n] counted in half lines. *)
Definition moveDown (halves : Z) (doc : PDFDocument) : PDFDocument :=
  mkDoc (pages doc) (flushed doc) (page doc)
        (doc_y doc + halves * halfLine (font doc)) (font doc).

(** [doc.addPage()]: the buffered pages are written out, then the new
    page is buffered and becomes current, the cursor at the top margin. *)
Definition addPage (doc : PDFDocument) : PDFDocument :=
  mkDoc (pages doc ++ [[]]) (length (pages doc)) (length (pages doc)) margin (font doc).

(** [doc.bufferedPageRange().count] *)
Definition bufferedPageCount (doc : PDFDocument) : nat :=
  (length (pages doc) - flushed doc)%nat.

(** [doc.switchToPage(i)], which throws outside the buffer. *)
Definition switchToPage (i : nat) (doc : PDFDocument) : option PDFDocument :=
  if decide (flushed doc ≤ i < length (pages doc))%nat
  then Some (mkDoc (pages doc) (flushed doc) i (doc_y doc) (font doc))
  else None.

(** [doc.page.maxY()]: the bottom margin. *)
Definition maxY : Z := page_height - margin.

(** The test of the line wrapper for the end of the page: the next line
    would pass the bottom margin. *)
Definition pageEnd (doc : PDFDocument) : bool :=
  doc_y doc + lineHeight (font doc) >? maxY.

(** One line is emitted: the cursor moves down by a line; after a line
    ended inside the loop the text continues on a new page when the end of
    the page is reached. *)
Definition emitLine (doc : PDFDocument) (ended : bool) : PDFDocument :=
  let doc := mkDoc (pages doc) (flushed doc) (page doc)
                   (doc_y doc + lineHeight (font doc)) (font doc) in
  if ended && pageEnd doc then addPage doc else doc.

(** The body of [doc.text] once the position is set.  A page is added
    first when the cursor is below the bottom margin or the first line
    would pass it; then the lines are emitted. *)
Definition typeset (it : TextItem) (doc : PDFDocument) : PDFDocument :=
  let doc := if (doc_y doc >? maxY) || pageEnd doc then addPage doc else doc in
  let doc := mkDoc (draw it doc) (flushed doc) (page doc) (doc_y doc) (font doc) in
  fold_left emitLine (wrap (font doc) (item_text it)) doc.

(** [doc.text(s, opts)] *)
Definition text (s : string) (opts : TextOptions) (doc : PDFDocument) : PDFDocument :=
  typeset (mkItem s (font doc) None opts) doc.

(** [doc.text(s, x, y, opts)] *)
Definition textAt (s : string) (x0 y0 : Z) (opts : TextOptions) (doc : PDFDocument) : PDFDocument :=
  typeset (mkItem s (font doc) (Some (x0, y0)) opts)
          (mkDoc (pages doc) (flushed doc) (page doc) y0 (font doc)).

End Metrics.

End Pdf.

(** ** The layout pass: [generatePDF] *)

Module Layout.
Import Js Pdf.

(** The prefix of a body line of a presentation, character for character
    as the source file has it: U+00E2, U+20AC, U+00A2 and a blank, in
    UTF-8. *)
Definition bullet : string :=
  String (Ascii.ascii_of_nat 195) (String (Ascii.ascii_of_nat 162)
    (String (Ascii.ascii_of_nat 226) (String (Ascii.ascii_of_nat 130)
      (String (Ascii.ascii_of_nat 172) (String (Ascii.ascii_of_nat 194)
        (String (Ascii.ascii_of_nat 162) " ")))))).

(** The link of the table-of-contents entry at [index]. *)
Definition tocLink (index : nat) : string :=
  "#section" +:+ pretty (Z.of_nat index + 1).

(** The test that makes a content line a section header. *)
Definition isHeader (sections : list string) (line : string) : bool :=
  some (λ section, includes line section) sections.

(** The destination name given to a header line. *)
Definition headerDestination (sections : list string) (line : string) : string :=
  "section" +:+ pretty (findIndex (λ s, includes s line) sections + 1).

(** How the promise returned by [generatePDF] ends: resolved with the
    document, rejected because the executor threw, or not settled because
    the executor has not returned. *)
Inductive Result :=
| Resolved (pdfBuffer : PDFDocument)
| Threw
| Unfinished.

Section Metrics.

Context (page_height : Z) (lineHeight : Z → Z) (wrap : Z → string → list bool)
        (halfLine : Z → Z).

Local Abbreviation text := (text page_height lineHeight wrap).
Local Abbreviation textAt := (textAt page_height lineHeight wrap).
Local Abbreviation moveDown := (moveDown halfLine).

Definition ensureSpace (neededSpace : Z) (doc : PDFDocument) : PDFDocument :=
  if doc_y doc + neededSpace >? page_height - 50 then addPage doc else doc.

Definition title (doc : PDFDocument) : PDFDocument :=
  moveDown 2
    (text "Competitive Intelligence Report" (mkOpts (Some "center") None None)
       (fontSize 24 doc)).

Definition tocEntry (doc : PDFDocument) (section : string) (index : nat) : PDFDocument :=
  text section (mkOpts None (Some (tocLink index)) None) (fontSize 12 doc).

Definition tableOfContents (sections : list string) (format : string)
    (doc : PDFDocument) : PDFDocument :=
  if bool_decide (format ≠ "presentation") then
    let doc := text "Table of Contents" plain (fontSize 18 doc) in
    let doc := moveDown 1 doc in
    let doc := forEach tocEntry sections doc in
    moveDown 2 doc
  else doc.

(** The body of the loop over the content lines; the second component
    of the state is the variable [currentSection]. *)
Definition contentLine (sections : list string) (format : string)
    (st : PDFDocument * string) (line : string) : PDFDocument * string :=
  let '(doc, currentSection) := st in
  if isHeader sections line then
    let doc := ensureSpace 100 doc in
    let doc := text line (mkOpts None None (Some (headerDestination sections line)))
                 (fontSize 18 doc) in
    (moveDown 2 doc, line)
  else
    let doc := ensureSpace 20 doc in
    if bool_decide (format = "presentation") then
      (text (bullet +:+ line) plain (fontSize 14 doc), currentSection)
    else
      (text line plain (fontSize 12 doc), currentSection).

Definition content (analysisResult : string) (sections : list string)
    (format : string) (doc : PDFDocument) : PDFDocument :=
  let contentLines := split_lines analysisResult in
  (fold_left (contentLine sections format) contentLines (doc, "")).1.

(** [while (doc.bufferedPageRange().count < 15) doc.addPage()], at most
    [fuel] rounds of it; [None] when the loop has not ended by then. *)
Fixpoint padPages (fuel : nat) (doc : PDFDocument) : option PDFDocument :=
  if decide (bufferedPageCount doc < 15)%nat then
    match fuel with
    | O => None
    | S fuel => padPages fuel (addPage doc)
    end
  else Some doc.

Definition padding (fuel : nat) (format : string) (doc : PDFDocument)
    : option PDFDocument :=
  if bool_decide (format = "detailed") then padPages fuel doc else Some doc.

Definition footerText (i pages : nat) : string :=
  "Page " +:+ pretty (Z.of_nat i + 1) +:+ " of " +:+ pretty (Z.of_nat pages).

Definition footerItem (i pages : nat) : TextItem :=
  mkItem (footerText i pages) 10 (Some (50, page_height - 50))
         (mkOpts (Some "center") None None).

(** One round of the page-number loop; [None] once [switchToPage] has
    thrown. *)
Definition stampFooter (pages : nat) (doc : option PDFDocument) (i : nat)
    : option PDFDocument :=
  doc ← doc;
  doc ← switchToPage i doc;
  Some (textAt (footerText i pages) 50 (page_height - 50)
          (mkOpts (Some "center") None None) (fontSize 10 doc)).

Definition pageNumbers (doc : PDFDocument) : option PDFDocument :=
  let pages := bufferedPageCount doc in
  fold_left (stampFooter pages) (seq 0 pages) (Some doc).

(** The document after the title, the table of contents and the content
    lines, before the padding and the page numbers. *)
Definition written (analysisResult : string) (sections : list string)
    (format : string) : PDFDocument :=
  content analysisResult sections format
    (tableOfContents sections format (title newDocument)).

(** [generatePDF]: the executor runs to [doc.end()], throws, or is still
    in the padding loop when the fuel is spent. *)
Definition generatePDF (fuel : nat) (analysisResult : string) (sections : list string)
    (format : string) : Result :=
  match padding fuel format (written analysisResult sections format) with
  | None => Unfinished
  | Some doc =>
      match pageNumbers doc with
      | Some doc => Resolved doc
      | None => Threw
      end
  end.

End Metrics.

End Layout.

(** ** The records exchanged with the scraper and the cache *)

Module Data.

Record ImageAnalysis := mkImageAnalysis {
  labels : list string;
  text : string;
  logoDetection : list string;
  colorInfo : string
}.

Record ImageData := mkImageData {
  url : string;
  localPath : string;
  analysis : ImageAnalysis
}.

Record ScrapedData := mkScrapedData {
  companyName : string;
  productNames : list string;
  productDescriptions : list string;
  pricing : list string;
  contactInfo : string;
  socialMediaLinks : list string;
  newsHeadlines : list string;
  keyFeatures : list string;
  images : list ImageData
}.

End Data.

(** ** The route: [handler] *)

Module Route.
Import Js Pdf Layout.
Export Data.

Record Body := mkBody {
  competitors : list string;
  reportSections : list string;
  reportFormat : string
}.

Record Request := mkRequest {
  method : string;
  body : Body
}.

(** One element of the array given to [Promise.all]: where the async
    callback of [competitors.map] is suspended, or how it settled. *)
Inductive Task :=
| AwaitCache (cachedData : option string)  (* at [await getCachedData]; the reply of the store *)
| AwaitScrape                              (* at [await scrapeWebsite] *)
| AwaitStore (scrapedData : ScrapedData)   (* at [await setCachedData] *)
| Fulfilled (record : ScrapedData)
| Rejected.

(** What the route has done so far. [progress] lists the messages given
    to [sendProgress], oldest first; each is pushed on the stream as one
    [data:] frame. *)
Record World := mkWorld {
  eventStream : bool;                          (* [res.writeHead] was called *)
  progress : list string;
  streamEnded : bool;                          (* [progressStream.push(null)] *)
  cache : gmap string string;                  (* the store behind [redis] *)
  cacheWrites : list (string * string * Z);    (* calls of [setCachedData] *)
  adapterCalls : list string;                  (* calls of [scrapeWebsite] *)
  tasks : list Task
}.

Inductive Outcome :=
| MethodNotAllowed (allow : list string) (message : string)  (* status 405 *)
| InternalError                                              (* the [catch] branch: status 500, JSON error body *)
| Report (pdf : PDFDocument)                                 (* the PDF attachment *)
| Pending                                                    (* still awaiting a completion *)
| Blocked.                                                   (* [generatePDF] has not returned *)

Definition cacheKey (competitor : string) : string := "competitor:" +:+ competitor.

Definition siteUrl (competitor : string) : string :=
  "https://www." +:+ competitor +:+ ".com".

Definition analyzingMessage (index total : nat) : string :=
  "Analyzing competitor " +:+ pretty (Z.of_nat index + 1) +:+ " of " +:+
  pretty (Z.of_nat total) +:+ "...".

Definition cachedMessage (competitor : string) : string :=
  "Using cached data for " +:+ competitor +:+ "...".

Definition openEventStream (w : World) : World :=
  mkWorld true (progress w) (streamEnded w) (cache w) (cacheWrites w)
          (adapterCalls w) (tasks w).

(** [res.writeHead(200, ...)].  The response object is given to the route;
    [headOnce] tells whether it is one that throws when its head is
    written a second time, as the response of a node server does, or one
    that lets the second head pass.  [None] stands for the exception. *)
Definition writeHead (headOnce : bool) (w : World) : option World :=
  if eventStream w && headOnce then None else Some (openEventStream w).

Definition sendProgress (message : string) (w : World) : World :=
  mkWorld (eventStream w) (progress w ++ [message]) (streamEnded w) (cache w)
          (cacheWrites w) (adapterCalls w) (tasks w).

Definition endStream (w : World) : World :=
  mkWorld (eventStream w) (progress w) true (cache w) (cacheWrites w)
          (adapterCalls w) (tasks w).

Definition getCachedData (key : string) (w : World) : option string :=
  cache w !! key.

Definition setCachedData (key value : string) (expirationInSeconds : Z) (w : World) : World :=
  mkWorld (eventStream w) (progress w) (streamEnded w) (<[key:=value]> (cache w))
          (cacheWrites w ++ [(key, value, expirationInSeconds)])
          (adapterCalls w) (tasks w).

Definition callAdapter (url : string) (w : World) : World :=
  mkWorld (eventStream w) (progress w) (streamEnded w) (cache w) (cacheWrites w)
          (adapterCalls w ++ [url]) (tasks w).

Definition spawn (t : Task) (w : World) : World :=
  mkWorld (eventStream w) (progress w) (streamEnded w) (cache w) (cacheWrites w)
          (adapterCalls w) (tasks w ++ [t]).

Definition settle (i : nat) (t : Task) (w : World) : World :=
  mkWorld (eventStream w) (progress w) (streamEnded w) (cache w) (cacheWrites w)
          (adapterCalls w) (<[i:=t]> (tasks w)).

Definition initial (store : gmap string string) : World :=
  mkWorld false [] false store [] [] [].

(** The state of [Promise.all] over the tasks. *)
Inductive Joined :=
| AllFulfilled (competitorData : list ScrapedData)
| OneRejected
| Waiting.

Fixpoint promiseAll (ts : list Task) : Joined :=
  match ts with
  | [] => AllFulfilled []
  | t :: ts' =>
      match t, promiseAll ts' with
      | Rejected, _ => OneRejected
      | _, OneRejected => OneRejected
      | Fulfilled d, AllFulfilled ds => AllFulfilled (d :: ds)
      | _, _ => Waiting
      end
  end.

Section Environment.

(** The layout metrics, the response object, and the outside world: what
    a site yields when scraped ([None]: the request throws), the JSON
    codec of the cache entries ([None]: [JSON.parse] throws), and the
    analysis service ([None]: the call throws). *)
Context (page_height : Z) (lineHeight : Z → Z) (wrap : Z → string → list bool)
        (halfLine : Z → Z).
Context (headOnce : bool).
Context (scrapeWebsite : string → option ScrapedData).
Context (parse : string → option ScrapedData) (stringify : ScrapedData → string).
Context (generateAIAnalysis : list ScrapedData → list string → string → option string).

(** The callback of [competitors.map] up to its first [await]: the
    progress message, then the cache read is issued. *)
Definition dispatch (total : nat) (w : World) (competitor : string) (index : nat) : World :=
  let w := sendProgress (analyzingMessage index total) w in
  spawn (AwaitCache (getCachedData (cacheKey competitor) w)) w.

(** The callback resumes after the completion it awaits and runs to its
    next [await] or to its [return]. *)
Definition resume (competitors : list string) (w : World) (index : nat) : World :=
  match competitors !! index, tasks w !! index with
  | Some competitor, Some (AwaitCache cachedData) =>
      if truthy cachedData then
        let w := sendProgress (cachedMessage competitor) w in
        match parse (default "" cachedData) with
        | Some record => settle index (Fulfilled record) w
        | None => settle index Rejected w
        end
      else
        settle index AwaitScrape (callAdapter (siteUrl competitor) w)
  | Some competitor, Some AwaitScrape =>
      match scrapeWebsite (siteUrl competitor) with
      | Some scrapedData =>
          settle index (AwaitStore scrapedData)
            (setCachedData (cacheKey competitor) (stringify scrapedData) 86400 w)
      | None => settle index Rejected w
      end
  | Some _, Some (AwaitStore scrapedData) => settle index (Fulfilled scrapedData) w
  | _, _ => w
  end.

(** [handler].  [store] is the content of the cache when the request
    arrives; [schedule] lists, in the order the event loop delivers
    them, the completions awaited by the competitor callbacks, each
    named by the index of its competitor.  An entry that names a settled
    callback, or no callback, delivers nothing.  The cache reads are all
    issued during the synchronous pass over the list, before any write of
    the request, and are answered from [store].  When the schedule ends
    before [Promise.all] settles the route is still [Pending]; a callback
    that is resumed after another one was rejected still runs.  [fuel]
    bounds the rounds of the padding loop of [generatePDF]. *)
Definition handler (fuel : nat) (req : Request) (store : gmap string string)
    (schedule : list nat) : World * Outcome :=
  let w := initial store in
  if bool_decide (method req = "POST") then
    let competitors := competitors (body req) in
    let reportSections := reportSections (body req) in
    let reportFormat := reportFormat (body req) in
    match writeHead headOnce w with
    | None => (w, InternalError)
    | Some w =>
        let w := sendProgress "Starting report generation..." w in
        let w := forEach (dispatch (length competitors)) competitors w in
        let w := fold_left (resume competitors) schedule w in
        match promiseAll (tasks w) with
        | Waiting => (w, Pending)
        | OneRejected => (w, InternalError)
        | AllFulfilled competitorData =>
            let w := sendProgress "Generating AI analysis..." w in
            match generateAIAnalysis competitorData reportSections reportFormat with
            | None => (w, InternalError)
            | Some analysisResult =>
                let w := sendProgress "Creating PDF report..." w in
                match generatePDF page_height lineHeight wrap halfLine fuel analysisResult
                        reportSections reportFormat with
                | Unfinished => (w, Blocked)
                | Threw => (w, InternalError)
                | Resolved pdfBuffer =>
                    let w := sendProgress "Report generation complete!" w in
                    let w := endStream w in
                    match writeHead headOnce w with
                    | None => (w, InternalError)
                    | Some w => (w, Report pdfBuffer)
                    end
                end
            end
        end
    end
  else
    (w, MethodNotAllowed ["POST"] ("Method " +:+ method req +:+ " Not Allowed")).

End Environment.

End Route.

(** ** The analysis request: [generateAIAnalysis] *)

Module Analysis.
Import Js.
Export Data.

Definition nl : string := String newline "".

(** [l.join(sep)] on an array of strings. *)
Definition join (sep : string) (l : list string) : string := String.concat sep l.

(** The inner template, one per image of a competitor. *)
Definition imageBlock (image : ImageData) : string :=
  nl +:+
  "      Labels: " +:+ join ", " (labels (analysis image)) +:+ nl +:+
  "      Text detected: " +:+ text (analysis image) +:+ nl +:+
  "      Logos detected: " +:+ join ", " (logoDetection (analysis image)) +:+ nl +:+
  "      Dominant colors: " +:+ colorInfo (analysis image) +:+ nl +:+
  "    ".

(** The template of one competitor. *)
Definition competitorBlock (competitor : ScrapedData) : string :=
  nl +:+
  "    Company: " +:+ companyName competitor +:+ nl +:+
  "    Products: " +:+ join ", " (productNames competitor) +:+ nl +:+
  "    Product Descriptions: " +:+ join " | " (productDescriptions competitor) +:+ nl +:+
  "    Pricing: " +:+ join ", " (pricing competitor) +:+ nl +:+
  "    Contact Info: " +:+ contactInfo competitor +:+ nl +:+
  "    Social Media: " +:+ join ", " (socialMediaLinks competitor) +:+ nl +:+
  "    Recent News: " +:+ join " | " (newsHeadlines competitor) +:+ nl +:+
  "    Key Features: " +:+ join ", " (keyFeatures competitor) +:+ nl +:+
  "    Image Analysis: " +:+ join nl (imageBlock <$> images competitor) +:+ nl +:+
  "  ".

(** The wording chosen by the two nested conditionals on [format]. *)
Definition formatAdvice (format : string) : string :=
  if bool_decide (format = "detailed") then "comprehensive and in-depth"
  else if bool_decide (format = "summary") then "concise and to-the-point"
  else "formatted in bullet points suitable for a presentation".

Definition prompt (data : list ScrapedData) (sections : list string) (format : string)
    : string :=
  "Analyze the following competitive intelligence data and generate a " +:+ format +:+
  " report including only the following sections: " +:+ join ", " sections +:+ ". " +:+ nl +:+
  "  " +:+ nl +:+
  "  " +:+ join (nl +:+ nl) (competitorBlock <$> data) +:+ nl +:+
  nl +:+
  "  The report should be " +:+ formatAdvice format +:+ "." +:+ nl +:+
  "  Focus on the most important insights and actionable information.".

(** The part of the chat completion that the function reads. *)
Record Message := mkMessage { content : option string }.
Record Choice := mkChoice { message : option Message }.
Record ChatCompletion := mkCompletion { choices : list Choice }.

(** [response.choices[0]?.message?.content] *)
Definition firstContent (response : ChatCompletion) : option string :=
  match choices response with
  | [] => None
  | choice :: _ =>
      match message choice with
      | None => None
      | Some m => content m
      end
  end.

(** [generateAIAnalysis].  [create] is the chat completion service, given
    the content of the single user message; [None] stands for a call
    that throws. *)
Definition generateAIAnalysis (create : string → option ChatCompletion)
    (data : list ScrapedData) (sections : list string) (format : string)
    : option string :=
  match create (prompt data sections format) with
  | None => None
  | Some response =>
      let content := firstContent response in
      Some (if truthy content then default "" content else "")
  end.

End Analysis.

(** ** The scraper: [scrapeWebsite] *)

Module Scraper.
Import Js.
Export Data.

(** What the selectors of the scraper find in a fetched page, before
    trimming: the text of the first company element, for each product
    element the text of its name and of its description descendants, the
    text of each price element, the text of the contact elements, the
    [href] of each social link, the text of each headline and of each
    feature element. *)
Record Selected := mkSelected {
  companyText : string;
  productTexts : list (string * string);
  priceTexts : list string;
  contactText : string;
  socialHrefs : list (option string);
  headlineTexts : list string;
  featureTexts : list string
}.

Definition nonEmpty (s : string) : bool := truthy (Some s).

(** [if (x) list.push(x)] *)
Definition pushIf (array : list string) (x : string) : list string :=
  if nonEmpty x then array ++ [x] else array.

Section Page.

(** [fetch] is the request and the selection on the loaded page ([None]:
    the request throws); [trim] is [String.prototype.trim]. *)
Context (fetch : string → option Selected) (trim : string → string).

Definition eachProduct (scrapedData : ScrapedData) (elem : string * string) : ScrapedData :=
  let productName := trim elem.1 in
  let productDesc := trim elem.2 in
  mkScrapedData (companyName scrapedData)
    (pushIf (productNames scrapedData) productName)
    (pushIf (productDescriptions scrapedData) productDesc)
    (pricing scrapedData) (contactInfo scrapedData) (socialMediaLinks scrapedData)
    (newsHeadlines scrapedData) (keyFeatures scrapedData) (images scrapedData).

Definition eachLink (links : list string) (href : option string) : list string :=
  if truthy href then links ++ [default "" href] else links.

Definition scrapeWebsite (url : string) : option ScrapedData :=
  match fetch url with
  | None => None
  | Some page =>
      let scrapedData := mkScrapedData "" [] [] [] "" [] [] [] [] in
      let scrapedData :=
        mkScrapedData (trim (companyText page)) (productNames scrapedData)
          (productDescriptions scrapedData) (pricing scrapedData)
          (contactInfo scrapedData) (socialMediaLinks scrapedData)
          (newsHeadlines scrapedData) (keyFeatures scrapedData) (images scrapedData) in
      let scrapedData := fold_left eachProduct (productTexts page) scrapedData in
      Some (mkScrapedData (companyName scrapedData)
              (productNames scrapedData)
              (productDescriptions scrapedData)
              (fold_left (λ l elem, pushIf l (trim elem)) (priceTexts page) [])
              (trim (contactText page))
              (fold_left eachLink (socialHrefs page) [])
              (fold_left (λ l elem, pushIf l (trim elem)) (headlineTexts page) [])
              (fold_left (λ l elem, pushIf l (trim elem)) (featureTexts page) [])
              [])
  end.

End Page.

End Scraper.

(** ** The form: state updates of the page component *)

Module Form.
Import Js.

(** [l.filter((x, i) => p(x, i))], [from] being the index of the head. *)
Fixpoint filter_from {A} (p : A → nat → bool) (from : nat) (l : list A) : list A :=
  match l with
  | [] => []
  | x :: l' =>
      if p x from then x :: filter_from p (S from) l' else filter_from p (S from) l'
  end.

(** [l.includes(x)] on an array of strings. *)
Definition includes_elem (l : list string) (x : string) : bool :=
  existsb (String.eqb x) l.

(** The identifiers of the six sections offered, the initial selection. *)
Definition reportSections : list string :=
  ["executive_summary"; "market_overview"; "competitor_analysis";
   "swot_analysis"; "emerging_trends"; "strategic_recommendations"].

Definition initialCompetitors : list string := [""].

Definition addCompetitor (competitors : list string) : list string :=
  competitors ++ [""].

Definition removeCompetitor (index : nat) (competitors : list string) : list string :=
  filter_from (λ _ i, negb (i =? index)%nat) 0 competitors.

Definition toggleReportSection (id : string) (prevSections : list string) : list string :=
  if includes_elem prevSections id
  then filter_from (λ sectionId _, negb (String.eqb sectionId id)) 0 prevSections
  else prevSections ++ [id].

End Form.

(** ** Observations on strings, documents and runs

    The vocabulary in which the properties below are stated. *)

Module Obs.
Import Js Pdf Layout Route.

(** [a] occurs in [b]: the meaning of containment, stated without
    reference to the search that [includes] performs. *)
Definition substring_of (a b : string) : Prop :=
  ∃ pre post, b = pre +:+ a +:+ post.

Definition placed (it : TextItem) : Prop := is_Some (item_at it).
Definition linking (it : TextItem) : Prop := is_Some (link (item_opts it)).

#[global] Instance placed_dec it : Decision (placed it).
Proof. unfold placed. apply _. Defined.
#[global] Instance linking_dec it : Decision (linking it).
Proof. unfold linking. apply _. Defined.

(** The footers of a page are the items drawn at an explicit position;
    the links of a document are the items that carry a link, in page
    order. *)
Definition footers (p : Page) : list TextItem := filter placed p.
Definition links (ps : list Page) : list TextItem := filter linking (concat ps).

(** An item of the running text: no position, no link. *)
Definition running (it : TextItem) : Prop :=
  item_at it = None ∧ link (item_opts it) = None.

(** The items that the layout pass draws for the title, for the heading
    and the entries of the table of contents, and for a header line. *)
Definition titleItem : TextItem :=
  mkItem "Competitive Intelligence Report" 24 None (mkOpts (Some "center") None None).

Definition tocHeading : TextItem := mkItem "Table of Contents" 18 None plain.

Definition tocItem (index : nat) (section : string) : TextItem :=
  mkItem section 12 None (mkOpts None (Some (tocLink index)) None).

Definition headerItem (sections : list string) (line : string) : TextItem :=
  mkItem line 18 None (mkOpts None None (Some (headerDestination sections line))).

Definition bodyItem (format line : string) : TextItem :=
  if bool_decide (format = "presentation")
  then mkItem (bullet +:+ line) 14 None plain
  else mkItem line 12 None plain.

(** The cache holds a usable entry for the competitor when the request
    arrives: the test [if (cachedData)] of the route succeeds. *)
Definition hit (store : gmap string string) (competitor : string) : Prop :=
  truthy (store !! cacheKey competitor) = true.

#[global] Instance hit_dec store competitor : Decision (hit store competitor).
Proof. unfold hit. apply _. Defined.

Definition hits (store : gmap string string) (competitors : list string) : list string :=
  filter (hit store) competitors.

(** How the callback of a competitor settles on a cache hit. *)
Definition decoded (parse : string → option ScrapedData)
    (store : gmap string string) (competitor : string) : Task :=
  match parse (default "" (store !! cacheKey competitor)) with
  | Some record => Fulfilled record
  | None => Rejected
  end.

Definition is_analyzing (message : string) : Prop :=
  String.prefix "Analyzing competitor " message = true.

(** The per-competitor messages of the fan-out, in list order. *)
Definition analyzingMessages (competitors : list string) : list string :=
  imap (λ index _, analyzingMessage index (length competitors)) competitors.

(** Every competitor callback receives the (at most three) completions
    it awaits. *)
Definition complete (schedule : list nat) (total : nat) : Prop :=
  ∀ i : nat, (i < total)%nat → (3 ≤ count_occ Nat.eq_dec schedule i)%nat.

(** No outside call fails: cached entries parse, sites of competitors
    that are not cached can be scraped, the analysis service answers. *)
Definition cooperative (scrapeWebsite parse : string → option ScrapedData)
    (store : gmap string string) (competitors : list string) : Prop :=
  ∀ c, c ∈ competitors →
    if truthy (store !! cacheKey c)
    then is_Some (parse (default "" (store !! cacheKey c)))
    else is_Some (scrapeWebsite (siteUrl c)).

(** Bookkeeping for the runs: what a suspended or settled callback is
    allowed to be, and the cache notice it has pushed so far. *)
Definition consistent (parse : string → option ScrapedData)
    (store : gmap string string) (competitor : string) (t : Task) : Prop :=
  match t with
  | AwaitCache cachedData => cachedData = store !! cacheKey competitor
  | AwaitScrape | AwaitStore _ => truthy (store !! cacheKey competitor) = false
  | Fulfilled _ | Rejected => hit store competitor → t = decoded parse store competitor
  end.

Definition notice (store : gmap string string) (competitor : string) (t : Task) : list string :=
  if truthy (store !! cacheKey competitor)
  then match t with AwaitCache _ => [] | _ => [cachedMessage competitor] end
  else [].

Definition notices (store : gmap string string) (competitors : list string)
    (ts : list Task) : list string :=
  concat (zip_with (notice store) competitors ts).

Definition stage (t : Task) : nat :=
  match t with
  | AwaitCache _ => 0
  | AwaitScrape => 1
  | AwaitStore _ => 2
  | Fulfilled _ | Rejected => 3
  end.

(** What holds of the route at every moment after the fan-out was
    started, for the competitor list [cs] and the cache content [store]
    found by the request. *)
Record Inv (parse : string → option ScrapedData) (store : gmap string string)
    (cs : list string) (w : World) : Prop := mkInv {
  inv_tasks : Forall2 (consistent parse store) cs (tasks w);
  inv_progress : ∃ extra,
      progress w = "Starting report generation..." :: analyzingMessages cs ++ extra ∧
      extra ≡ₚ notices store cs (tasks w);
  inv_calls : Forall (λ u, ∃ c, c ∈ cs ∧ ¬ hit store c ∧ u = siteUrl c) (adapterCalls w);
  inv_writes : Forall (λ e, ∃ c, c ∈ cs ∧ ¬ hit store c ∧ e.1.1 = cacheKey c) (cacheWrites w);
  inv_cache : ∀ c, hit store c → cache w !! cacheKey c = store !! cacheKey c;
  inv_stream : eventStream w = true ∧ streamEnded w = false
}.

(** The route after the synchronous part of [competitors.map]. *)
Definition fannedOut (store : gmap string string) (cs : list string) : World :=
  forEach (dispatch (length cs)) cs
    (sendProgress "Starting report generation..." (openEventStream (initial store))).

(** The answer is a 4xx status. *)
Definition rejected4xx (o : Outcome) : Prop :=
  match o with MethodNotAllowed _ _ => True | _ => False end.

Definition recognisedFormat (format : string) : Prop :=
  format ∈ ["detailed"; "summary"; "presentation"].

(** The callbacks in the order in which each receives its first
    completion, the reply of the cache: the indices of the schedule, each
    at its first occurrence. *)
Fixpoint readOrder (schedule : list nat) : list nat :=
  match schedule with
  | [] => []
  | i :: schedule => i :: filter (λ j, j ≠ i) (readOrder schedule)
  end.

(** The cache notice pushed when the reply of the cache reaches the
    callback at [index]. *)
Definition noticeAt (store : gmap string string) (competitors : list string)
    (index : nat) : option string :=
  match competitors !! index with
  | Some c => if truthy (store !! cacheKey c) then Some (cachedMessage c) else None
  | None => None
  end.

(** The cache notices of a run, in the order of completion of the cache
    reads. *)
Definition noticesInOrder (store : gmap string string) (competitors : list string)
    (schedule : list nat) : list string :=
  omap (noticeAt store competitors) (readOrder schedule).

(** The messages of the stages after the fan-out. *)
Definition closingMessages : list string :=
  ["Generating AI analysis..."; "Creating PDF report..."; "Report generation complete!"].

(** Sample outside world for worked examples. *)
Definition sample_record : ScrapedData := mkScrapedData "Acme" [] [] [] "" [] [] [] [].
Definition sample_scrape (url : string) : option ScrapedData := Some sample_record.
Definition sample_parse (s : string) : option ScrapedData := Some sample_record.
Definition sample_stringify (d : ScrapedData) : string := "{}".
Definition sample_analysis (data : list ScrapedData) (sections : list string)
    (format : string) : option string := Some "Market Overview".

(** Concrete metrics for worked examples: an 842 unit page, lines two
    units higher than the font size, eighty characters to a line, no
    line for the empty string. *)
Definition sample_height : Z := 842.
Definition sample_lineHeight (sz : Z) : Z := sz + 2.
Definition sample_wrap (sz : Z) (s : string) : list bool :=
  match String.length s with
  | O => []
  | S n => replicate (n / 80) true ++ [false]
  end.
Definition sample_halfLine (sz : Z) : Z := sz / 2.

(** The route on the sample world, with a response that lets a second
    head pass, and the same with the response of a node server. *)
Abbreviation sample_handler :=
  (handler sample_height sample_lineHeight sample_wrap sample_halfLine false
           sample_scrape sample_parse sample_stringify sample_analysis 20%nat).

Abbreviation strict_handler :=
  (handler sample_height sample_lineHeight sample_wrap sample_halfLine true
           sample_scrape sample_parse sample_stringify sample_analysis 20%nat).

(** The request of the end-to-end scenario, and one with two competitors
    of which the second is in the cache. *)
Definition acme_request : Request :=
  mkRequest "POST" (mkBody ["acme"] ["Market Overview"] "summary").

Definition two_competitors : Body :=
  mkBody ["acme"; "globex"] ["Market Overview"] "summary".

Definition globex_cached : gmap string string := {[ "competitor:globex" := "{}" ]}.

End Obs.

(** ** Further observations on documents *)

Module ObsLayout.
Import Js Pdf Layout Obs.

(** The text calls of a document, in page order. *)
Definition items (doc : PDFDocument) : list TextItem := concat (pages doc).

(** The document after the call of [doc.text] that draws the item, at the
    size of the item. *)
Definition drawn (page_height : Z) (lineHeight : Z → Z) (wrap : Z → string → list bool)
    (it : TextItem) (doc : PDFDocument) : PDFDocument :=
  text page_height lineHeight wrap (item_text it) (item_opts it)
       (fontSize (item_size it) doc).

(** The item drawn for one content line. *)
Definition lineItem (sections : list string) (format line : string) : TextItem :=
  if isHeader sections line then headerItem sections line else bodyItem format line.

(** What is drawn before the content: the title and, unless the format is
    presentation, the table of contents. *)
Definition frontMatter (sections : list string) (format : string) : list TextItem :=
  titleItem ::
  (if bool_decide (format ≠ "presentation")
   then tocHeading :: imap tocItem sections
   else []).

(** The items of a document other than the footers, in page order. *)
Definition runningText (doc : PDFDocument) : list TextItem :=
  filter (λ it, ¬ placed it) (items doc).

(** The current page is the last page, and the only one in the buffer. *)
Definition current (doc : PDFDocument) : Prop :=
  S (page doc) = length (pages doc) ∧ flushed doc = page doc.

(** A stretch of the layout pass from [doc] to [doc']: the calls [its]
    were added after those of [doc], no page was lost, and the current
    page is again the last one and alone in the buffer. *)
Definition extends (doc doc' : PDFDocument) (its : list TextItem) : Prop :=
  current doc' ∧ items doc' = items doc ++ its ∧
  (length (pages doc) ≤ length (pages doc'))%nat.

(** The document after the round of the page-number loop for the first
    page of a document of [total] pages. *)
Definition stamped (page_height : Z) (lineHeight : Z → Z) (wrap : Z → string → list bool)
    (total : nat) (doc : PDFDocument) : PDFDocument :=
  textAt page_height lineHeight wrap (footerText 0 total) 50 (page_height - 50)
         (mkOpts (Some "center") None None) (fontSize 10 doc).

End ObsLayout.

(** ** Further observations on runs of the route *)

Module ObsRoute.
Import Js Pdf Layout Route Obs.

(** What one delivered completion does to the callback of [competitor],
    read off the three [await]s of the callback. *)
Definition advance (scrapeWebsite parse : string → option ScrapedData)
    (competitor : string) (t : Task) : Task :=
  match t with
  | AwaitCache cachedData =>
      if truthy cachedData then
        match parse (default "" cachedData) with
        | Some record => Fulfilled record
        | None => Rejected
        end
      else AwaitScrape
  | AwaitScrape =>
      match scrapeWebsite (siteUrl competitor) with
      | Some scrapedData => AwaitStore scrapedData
      | None => Rejected
      end
  | AwaitStore scrapedData => Fulfilled scrapedData
  | Fulfilled record => Fulfilled record
  | Rejected => Rejected
  end.

(** The route from the moment the schedule is exhausted: the part of
    [handler] after [await Promise.all]. *)
Definition conclude (page_height : Z) (lineHeight : Z → Z)
    (wrap : Z → string → list bool) (halfLine : Z → Z) (headOnce : bool)
    (generateAIAnalysis : list ScrapedData → list string → string → option string)
    (fuel : nat) (reportSections : list string) (reportFormat : string) (w : World)
    : World * Outcome :=
  match promiseAll (tasks w) with
  | Waiting => (w, Pending)
  | OneRejected => (w, InternalError)
  | AllFulfilled competitorData =>
      let w := sendProgress "Generating AI analysis..." w in
      match generateAIAnalysis competitorData reportSections reportFormat with
      | None => (w, InternalError)
      | Some analysisResult =>
          let w := sendProgress "Creating PDF report..." w in
          match generatePDF page_height lineHeight wrap halfLine fuel analysisResult
                  reportSections reportFormat with
          | Unfinished => (w, Blocked)
          | Threw => (w, InternalError)
          | Resolved pdfBuffer =>
              let w := sendProgress "Report generation complete!" w in
              let w := endStream w in
              match writeHead headOnce w with
              | None => (w, InternalError)
              | Some w => (w, Report pdfBuffer)
              end
          end
      end
  end.

(** The competitors of the request without a usable cache entry. *)
Definition misses (store : gmap string string) (competitors : list string) : list string :=
  filter (λ c, ¬ hit store c) competitors.

(** Per-callback tallies: the adapter call and the cache key written by a
    callback in state [t]. *)
Definition callsOf (store : gmap string string) (competitor : string) (t : Task)
    : list string :=
  if truthy (store !! cacheKey competitor) then []
  else match t with AwaitCache _ => [] | _ => [siteUrl competitor] end.

Definition writtenKeysOf (store : gmap string string) (competitor : string) (t : Task)
    : list string :=
  if truthy (store !! cacheKey competitor) then []
  else match t with AwaitStore _ | Fulfilled _ => [cacheKey competitor] | _ => [] end.

Definition tally {A} (f : string → Task → list A) (cs : list string) (ts : list Task)
    : list A :=
  concat (zip_with f cs ts).

(** The record a competitor resolves to. *)
Definition resolvesTo (scrapeWebsite parse : string → option ScrapedData)
    (store : gmap string string) (competitor : string) (record : ScrapedData) : Prop :=
  if truthy (store !! cacheKey competitor)
  then parse (default "" (store !! cacheKey competitor)) = Some record
  else scrapeWebsite (siteUrl competitor) = Some record.

(** What holds of the adapter calls and of the cache at every moment. *)
Record Ledger (scrapeWebsite : string → option ScrapedData)
    (stringify : ScrapedData → string) (store : gmap string string)
    (cs : list string) (w : World) : Prop := mkLedger {
  ledger_calls : adapterCalls w ≡ₚ tally (callsOf store) cs (tasks w);
  ledger_keys :
    (λ e : string * string * Z, e.1.1) <$> cacheWrites w
      ≡ₚ tally (writtenKeysOf store) cs (tasks w);
  ledger_writes :
    Forall (λ e : string * string * Z,
              e.2 = 86400 ∧
              ∃ c d, c ∈ cs ∧ ¬ hit store c ∧ scrapeWebsite (siteUrl c) = Some d ∧
                     e.1 = (cacheKey c, stringify d))
           (cacheWrites w);
  ledger_frame :
    ∀ k, (∀ c, c ∈ cs → ¬ hit store c → k ≠ cacheKey c) → cache w !! k = store !! k;
  ledger_stored :
    ∀ (i : nat) c d, cs !! i = Some c → ¬ hit store c →
      tasks w !! i = Some (AwaitStore d) ∨ tasks w !! i = Some (Fulfilled d) →
      scrapeWebsite (siteUrl c) = Some d ∧ cache w !! cacheKey c = Some (stringify d)
}.

End ObsRoute.

(** * Properties *)

(** ** The definitions on small inputs *)

Module Examples.
Import Js Pdf Layout Route Obs.

#[local] Arguments String.append _ _ : simpl nomatch.

Example includes_section_in_line :
  includes "2. Market Overview:" "Market Overview" = true.
Proof. reflexivity. Qed.

Example includes_line_in_section : includes "Market" "Market Overview" = false.
Proof. reflexivity. Qed.

Example includes_empty : includes "" "" = true.
Proof. reflexivity. Qed.

Example findIndex_second :
  findIndex (λ s, includes s "SWOT") ["Market Overview"; "SWOT Analysis"] = 1.
Proof. reflexivity. Qed.

Example findIndex_missing :
  findIndex (λ s, includes s "Pricing") ["Market Overview"; "SWOT Analysis"] = -1.
Proof. reflexivity. Qed.

Example split_lines_trailing_newline :
  split_lines ("a" +:+ String newline "") = ["a"; ""].
Proof. reflexivity. Qed.

Example split_lines_empty : split_lines "" = [""].
Proof. reflexivity. Qed.

Example header_destinations :
  headerDestination ["Market"; "Market Overview"] "Market" = "section1" ∧
  headerDestination ["Market"; "Market Overview"] "Market Overview" = "section2" ∧
  headerDestination ["Market"; "Market Overview"] "Market Overview:" = "section0".
Proof. vm_compute. done. Qed.

(** A two-line presentation report: title, header and bulleted body line
    on the first page; the page-number loop runs once and its text, set at
    the bottom margin, opens a second page. *)
Example presentation_page :
  generatePDF sample_height sample_lineHeight sample_wrap sample_halfLine 0
    ("M" +:+ String newline "x") ["M"] "presentation" =
  Resolved
    (mkDoc [[titleItem;
             mkItem "M" 18 None (mkOpts None None (Some "section1"));
             mkItem (bullet +:+ "x") 14 None plain];
            [mkItem "Page 1 of 1" 10 (Some (50, 792)) (mkOpts (Some "center") None None)]]
           1 1 62 10).
Proof. vm_compute. reflexivity. Qed.

(** A long summary report breaks pages; the first page is then out of
    the buffer and the page-number loop throws. *)
Example summary_page_count :
  length (pages (written sample_height sample_lineHeight sample_wrap sample_halfLine
                   (String.concat (String newline "") (replicate 120 "line"))
                   ["Market Overview"] "summary")) = 3%nat ∧
  generatePDF sample_height sample_lineHeight sample_wrap sample_halfLine 0
    (String.concat (String newline "") (replicate 120 "line")) ["Market Overview"] "summary"
  = Threw.
Proof. vm_compute. done. Qed.

(** One long line is wrapped over several pages. *)
Example long_line_page_count :
  length (pages (written sample_height sample_lineHeight sample_wrap sample_halfLine
                   (String.concat "" (replicate 2000 "lorem ipsum "))
                   ["Market Overview"] "summary")) = 6%nat.
Proof. vm_compute. reflexivity. Qed.

(** A detailed report is still in the padding loop after twenty rounds:
    twenty pages were added and the buffer holds one. *)
Example detailed_padding :
  generatePDF sample_height sample_lineHeight sample_wrap sample_halfLine 20
    "" ["Market Overview"] "detailed" = Unfinished ∧
  bufferedPageCount
    (Nat.iter 20 addPage
       (written sample_height sample_lineHeight sample_wrap sample_halfLine
          "" ["Market Overview"] "detailed")) = 1%nat.
Proof. vm_compute. done. Qed.

(** Two competitors, the second one cached, its completion delivered
    first. *)
Example cached_run_progress :
  progress (sample_handler (mkRequest "POST" two_competitors) globex_cached
                           [1; 0; 0; 0]%nat).1 =
    ["Starting report generation..."; "Analyzing competitor 1 of 2...";
     "Analyzing competitor 2 of 2..."; "Using cached data for globex...";
     "Generating AI analysis..."; "Creating PDF report...";
     "Report generation complete!"].
Proof. vm_compute. reflexivity. Qed.

Example cached_run_effects :
  adapterCalls (sample_handler (mkRequest "POST" two_competitors) globex_cached
                               [1; 0; 0; 0]%nat).1 = ["https://www.acme.com"] ∧
  cacheWrites (sample_handler (mkRequest "POST" two_competitors) globex_cached
                              [1; 0; 0; 0]%nat).1 = [("competitor:acme", "{}", 86400)].
Proof. vm_compute. done. Qed.

(** Before the last completion arrives the route is still waiting. *)
Example pending_run :
  (sample_handler (mkRequest "POST" two_competitors) globex_cached [1; 0; 0]%nat).2
    = Pending.
Proof. vm_compute. reflexivity. Qed.

(** A site that cannot be scraped fails the whole request. *)
Example failing_scrape :
  (handler sample_height sample_lineHeight sample_wrap sample_halfLine false (λ _, None)
           sample_parse sample_stringify sample_analysis 20
           (mkRequest "POST" two_competitors) globex_cached [0; 0]%nat).2
    = InternalError.
Proof. vm_compute. reflexivity. Qed.

(** The same successful run on the response of a node server: the layout
    returns, the stream is ended, and the second head throws. *)
Example strict_response :
  (strict_handler (mkRequest "POST" two_competitors) globex_cached [1; 0; 0; 0]%nat).2
    = InternalError ∧
  streamEnded
    (strict_handler (mkRequest "POST" two_competitors) globex_cached [1; 0; 0; 0]%nat).1
    = true.
Proof. vm_compute. done. Qed.

(** A detailed report blocks the route in the layout. *)
Example detailed_request :
  (sample_handler (mkRequest "POST" (mkBody [] ["Market Overview"] "detailed")) ∅ []).2
    = Blocked.
Proof. vm_compute. reflexivity. Qed.

End Examples.

(** ** Facts about the string and array primitives *)

Module JsFacts.
Import Js Obs.

#[local] Arguments String.append _ _ : simpl nomatch.

Lemma prefix_true_iff t s :
  String.prefix t s = true ↔ ∃ post, s = t +:+ post.
Proof.
  revert s. induction t as [|c t IH]; intros s; simpl.
  - destruct s; split; eauto.
  - destruct s as [|d s]; simpl.
    + split; [done|]. intros [post H]. discriminate H.
    + destruct (Ascii.ascii_dec c d) as [->|Hne].
      * rewrite IH. split; intros [post H]; exists post; simpl in *; congruence.
      * split; [done|]. intros [post H]. simpl in H. congruence.
Qed.

Lemma includes_true_iff s t : includes s t = true ↔ substring_of t s.
Proof.
  unfold substring_of. induction s as [|c s IH]; cbn [includes].
  - rewrite orb_false_r, prefix_true_iff. split.
    + intros [post H]. exists "", post. done.
    + intros ([|? pre] & post & H); simpl in H; [eauto | discriminate H].
  - rewrite orb_true_iff, prefix_true_iff, IH. split.
    + intros [[post H]|(pre & post & H)].
      * exists "", post. done.
      * exists (String c pre), post. simpl. by rewrite H.
    + intros ([|d pre] & post & H); simpl in H.
      * left. eauto.
      * right. exists pre, post. congruence.
Qed.

Lemma includes_false_iff s t : includes s t = false ↔ ¬ substring_of t s.
Proof. rewrite <- includes_true_iff. by destruct (includes s t). Qed.

Lemma some_true_iff {A} (p : A → bool) l :
  some p l = true ↔ ∃ x, x ∈ l ∧ p x = true.
Proof.
  unfold some. rewrite existsb_exists.
  split; intros (x & Hx & Hp); exists x; split; auto; by apply list_elem_of_In.
Qed.

Lemma findIndex_ge {A} (p : A → bool) l : -1 ≤ findIndex p l.
Proof.
  induction l as [|x l IH]; simpl; [lia|].
  destruct (p x); [lia|]. destruct (Z.ltb_spec (findIndex p l) 0); lia.
Qed.

(** No element satisfies the test: [findIndex] answers [-1]. *)
Lemma findIndex_none {A} (p : A → bool) l :
  (∀ x, x ∈ l → p x = false) → findIndex p l = -1.
Proof.
  induction l as [|x l IH]; intros H; simpl; [done|].
  rewrite (H x) by left. rewrite IH; [done|].
  intros y Hy. apply H. by right.
Qed.

(** The first element satisfying the test is found. *)
Lemma findIndex_first {A} (p : A → bool) l (i : nat) x :
  l !! i = Some x → p x = true →
  (∀ (j : nat) y, (j < i)%nat → l !! j = Some y → p y = false) →
  findIndex p l = Z.of_nat i.
Proof.
  revert i. induction l as [|a l IH]; intros i Hi Hp Hlt; [done|].
  destruct i as [|i]; simpl in *.
  - injection Hi as ->. by rewrite Hp.
  - rewrite (Hlt 0%nat a) by (done || lia).
    rewrite (IH i Hi Hp).
    + destruct (Z.ltb_spec (Z.of_nat i) 0); lia.
    + intros j y Hj Hy. apply (Hlt (S j) y); [lia|done].
Qed.

Lemma append_inv_head a b c : a +:+ b = a +:+ c → b = c.
Proof. induction a as [|x a IH]; simpl; intros H; [done|]. apply IH. congruence. Qed.

Lemma append_inv_tail a b c : a +:+ c = b +:+ c → a = b.
Proof.
  intros H.
  assert (L : ∀ x y : string, String.length (x +:+ y) = (String.length x + String.length y)%nat).
  { intros x y. induction x as [|? x IHx]; simpl; [done|]. by rewrite IHx. }
  revert b H. induction a as [|x a IH]; intros [|y b] H; simpl in H.
  - done.
  - apply (f_equal String.length) in H. simpl in H. rewrite L in H. lia.
  - apply (f_equal String.length) in H. simpl in H. rewrite L in H. lia.
  - injection H as -> H. f_equal. by apply IH.
Qed.

Lemma forEach_from_app {A S} (f : S → A → nat → S) from l k a :
  forEach_from f from (l ++ k) a =
  forEach_from f (from + length l) k (forEach_from f from l a).
Proof.
  revert from a. induction l as [|x l IH]; intros from a; simpl.
  - by rewrite Nat.add_0_r.
  - rewrite IH. f_equal. lia.
Qed.

End JsFacts.

(** ** Facts about the layout pass *)

Module LayoutFacts.
Import Js Obs ObsLayout JsFacts Pdf Layout.

#[local] Arguments String.append _ _ : simpl nomatch.

Lemma footers_unplaced p : Forall (λ it, item_at it = None) p → footers p = [].
Proof.
  unfold footers. induction 1 as [|it p Hit _ IH]; [done|].
  rewrite filter_cons_False; [done|].
  unfold placed. rewrite Hit. by intros [? ?].
Qed.

Lemma concat_alter_last (it : TextItem) (i : nat) (ps : list Page) :
  S i = length ps → concat (alter (λ p, p ++ [it]) i ps) = concat ps ++ [it].
Proof.
  revert i. induction ps as [|p ps IH]; intros i Hi; [done|].
  destruct i as [|i]; simpl in *.
  - destruct ps; [|done]. simpl. by rewrite !app_nil_r.
  - rewrite <- app_assoc. f_equal. apply IH. lia.
Qed.

Lemma concat_blank_pages (ps : list Page) (n : nat) :
  concat (ps ++ replicate n []) = concat ps.
Proof.
  rewrite concat_app. induction n as [|n IH]; simpl in *; [by rewrite app_nil_r|done].
Qed.

Lemma split_lines_length s : (1 ≤ length (split_lines s))%nat.
Proof.
  induction s as [|c s IH]; simpl; [lia|].
  destruct (Ascii.eqb c newline); simpl; [lia|].
  destruct (split_lines s); simpl in *; lia.
Qed.

(** *** Links and positions of the items *)

Lemma filter_linking_tocItems from sections :
  filter linking (imap (λ i, tocItem (from + i)) sections)
    = imap (λ i, tocItem (from + i)) sections.
Proof.
  revert from. induction sections as [|s ss IH]; intros from; [done|].
  rewrite imap_cons. rewrite filter_cons_True by (by eexists).
  f_equal. rewrite (imap_ext _ (λ i, tocItem (S from + i))).
  - apply IH.
  - intros i x _. simpl. f_equal. lia.
Qed.

Lemma lineItem_running sections format line :
  running (lineItem sections format line).
Proof.
  unfold lineItem, bodyItem.
  destruct (isHeader sections line); [done|]. by destruct (bool_decide _).
Qed.

Lemma filter_linking_lineItems sections format (ls : list string) :
  filter linking (lineItem sections format <$> ls) = [].
Proof.
  induction ls as [|l ls IH]; [done|]. rewrite fmap_cons.
  rewrite filter_cons_False; [done|].
  unfold linking. destruct (lineItem_running sections format l) as [_ ->]. by intros [? ?].
Qed.

Lemma filter_linking_frontMatter sections format :
  filter linking (frontMatter sections format) =
    if bool_decide (format ≠ "presentation") then imap tocItem sections else [].
Proof.
  unfold frontMatter. rewrite filter_cons_False by (by intros [? ?]).
  destruct (bool_decide _); [|done].
  rewrite filter_cons_False by (by intros [? ?]).
  apply (filter_linking_tocItems 0).
Qed.

Lemma frontMatter_unplaced sections format :
  Forall (λ it, item_at it = None) (frontMatter sections format).
Proof.
  unfold frontMatter. constructor; [done|].
  destruct (bool_decide _); [|done]. constructor; [done|].
  apply Forall_lookup. intros i it. rewrite list_lookup_imap.
  destruct (sections !! i); simpl; [|done]. by intros [= <-].
Qed.

Lemma lineItems_unplaced sections format (ls : list string) :
  Forall (λ it, item_at it = None) (lineItem sections format <$> ls).
Proof.
  apply Forall_fmap, Forall_forall. intros l _. simpl.
  by destruct (lineItem_running sections format l).
Qed.

(** *** Stretches of the layout pass *)

Lemma extends_refl doc : current doc → extends doc doc [].
Proof. intros H. split_and!; [done|by rewrite app_nil_r|done]. Qed.

Lemma extends_trans a b c its its' :
  extends a b its → extends b c its' → extends a c (its ++ its').
Proof.
  intros (_ & Hb & Hn) (Hc & Hc' & Hn'). split_and!; [done| |lia].
  by rewrite Hc', Hb, app_assoc.
Qed.

Lemma extends_current a b its : extends a b its → current b.
Proof. by intros [? _]. Qed.

Lemma extends_addPage doc : current doc → extends doc (addPage doc) [].
Proof.
  intros _. unfold extends, current, items. simpl. rewrite length_app. simpl.
  split_and!; [lia|done| |lia].
  change [[]] with (replicate 1 ([] : Page)). by rewrite concat_blank_pages, app_nil_r.
Qed.

Section Metrics.

Context (page_height : Z) (lineHeight : Z → Z) (wrap : Z → string → list bool)
        (halfLine : Z → Z).

Local Abbreviation emitLine := (emitLine page_height lineHeight).
Local Abbreviation typeset := (typeset page_height lineHeight wrap).
Local Abbreviation text := (text page_height lineHeight wrap).
Local Abbreviation textAt := (textAt page_height lineHeight wrap).
Local Abbreviation moveDown := (moveDown halfLine).
Local Abbreviation ensureSpace := (ensureSpace page_height).
Local Abbreviation title := (title page_height lineHeight wrap halfLine).
Local Abbreviation tocEntry := (tocEntry page_height lineHeight wrap).
Local Abbreviation tableOfContents := (tableOfContents page_height lineHeight wrap halfLine).
Local Abbreviation contentLine := (contentLine page_height lineHeight wrap halfLine).
Local Abbreviation content := (content page_height lineHeight wrap halfLine).
Local Abbreviation written := (written page_height lineHeight wrap halfLine).
Local Abbreviation pageNumbers := (pageNumbers page_height lineHeight wrap).
Local Abbreviation generatePDF := (generatePDF page_height lineHeight wrap halfLine).
Local Abbreviation drawn := (drawn page_height lineHeight wrap).
Local Abbreviation stamped := (stamped page_height lineHeight wrap).

Lemma extends_moveDown n doc : current doc → extends doc (moveDown n doc) [].
Proof. intros H. split_and!; [done|by rewrite app_nil_r|done]. Qed.

Lemma extends_ensureSpace n doc : current doc → extends doc (ensureSpace n doc) [].
Proof.
  intros H. unfold Layout.ensureSpace.
  destruct (_ >? _); [by apply extends_addPage|by apply extends_refl].
Qed.

(** The lines of a text add blank pages only. *)
Lemma pages_emitLines (ls : list bool) doc :
  current doc →
  ∃ k, pages (fold_left emitLine ls doc) = pages doc ++ replicate k [] ∧
       current (fold_left emitLine ls doc).
Proof.
  revert doc. induction ls as [|l ls IH]; intros doc H.
  - exists 0%nat. simpl. by rewrite app_nil_r.
  - cbn [fold_left].
    assert (H1 : current (emitLine doc l) ∧
                 ∃ k1, pages (emitLine doc l) = pages doc ++ replicate k1 []).
    { unfold Pdf.emitLine. destruct (l && _).
      - split; [by apply (extends_addPage (mkDoc _ _ _ _ _))|]. by exists 1%nat.
      - split; [done|]. exists 0%nat. simpl. by rewrite app_nil_r. }
    destruct H1 as (Hc1 & k1 & Hk1). destruct (IH _ Hc1) as (k & Hk & Hc).
    exists (k1 + k)%nat. split; [|done].
    by rewrite Hk, Hk1, <- app_assoc, replicate_add.
Qed.

Lemma extends_emitLines (ls : list bool) doc :
  current doc → extends doc (fold_left emitLine ls doc) [].
Proof.
  intros H. destruct (pages_emitLines ls doc H) as (k & Hk & Hc).
  split_and!; [done| |].
  - unfold items. by rewrite Hk, concat_blank_pages, app_nil_r.
  - rewrite Hk, length_app. lia.
Qed.

Lemma extends_typeset it doc : current doc → extends doc (typeset it doc) [it].
Proof.
  intros H. unfold Pdf.typeset.
  set (doc1 := if orb _ _ then addPage doc else doc).
  assert (H1 : extends doc doc1 []).
  { subst doc1. destruct (_ || _); [by apply extends_addPage|by apply extends_refl]. }
  set (doc2 := mkDoc (draw it doc1) _ _ _ _).
  assert (H2 : extends doc1 doc2 [it]).
  { destruct H1 as ([Hp Hf] & _ & _). unfold extends, current, items, doc2, draw. simpl.
    rewrite length_alter. split_and!; [done..| |done]. by apply concat_alter_last. }
  change [it] with ([] ++ [it] ++ []).
  eapply extends_trans; [exact H1|]. eapply extends_trans; [exact H2|].
  apply extends_emitLines. by destruct H2.
Qed.

Lemma extends_text s opts doc :
  current doc → extends doc (text s opts doc) [mkItem s (font doc) None opts].
Proof. apply extends_typeset. Qed.

Lemma extends_textAt s x0 y0 opts doc :
  current doc →
  extends doc (textAt s x0 y0 opts doc) [mkItem s (font doc) (Some (x0, y0)) opts].
Proof. intros H. by apply (extends_typeset _ (mkDoc _ _ _ _ _)). Qed.

Lemma extends_drawn it doc :
  item_at it = None → current doc → extends doc (drawn it doc) [it].
Proof.
  intros Hat H. destruct it as [s sz at_ opts]. simpl in Hat. subst at_.
  apply (extends_text s opts (fontSize sz doc)). done.
Qed.

(** *** The title, the table of contents and the content lines *)

Lemma extends_title doc : current doc → extends doc (title doc) [titleItem].
Proof.
  intros H. unfold Layout.title. change [titleItem] with ([titleItem] ++ []).
  eapply extends_trans; [by apply (extends_drawn titleItem)|].
  apply extends_moveDown. by apply (extends_drawn titleItem doc).
Qed.

Lemma extends_tocEntries sections from doc :
  current doc →
  extends doc (forEach_from tocEntry from sections doc)
          (imap (λ i, tocItem (from + i)) sections).
Proof.
  revert from doc. induction sections as [|s ss IH]; intros from doc H.
  - by apply extends_refl.
  - cbn [forEach_from]. rewrite imap_cons, Nat.add_0_r.
    change (?x :: ?l) with ([x] ++ l).
    eapply extends_trans; [by apply (extends_drawn (tocItem from s))|].
    rewrite (imap_ext _ (λ i, tocItem (S from + i))).
    + apply IH. by apply (extends_drawn (tocItem from s) doc).
    + intros i x _. simpl. f_equal. lia.
Qed.

Lemma extends_tableOfContents sections format doc :
  current doc →
  extends doc (tableOfContents sections format doc)
          (if bool_decide (format ≠ "presentation")
           then tocHeading :: imap tocItem sections else []).
Proof.
  intros H. unfold Layout.tableOfContents.
  destruct (bool_decide _); [|by apply extends_refl].
  assert (H1 := extends_drawn tocHeading doc eq_refl H).
  assert (H2 := extends_moveDown 1 _ (extends_current _ _ _ H1)).
  assert (H3 := extends_tocEntries sections 0 _ (extends_current _ _ _ H2)).
  assert (H4 := extends_moveDown 2 _ (extends_current _ _ _ H3)).
  pose proof (extends_trans _ _ _ _ _ H1 (extends_trans _ _ _ _ _ H2
                (extends_trans _ _ _ _ _ H3 H4))) as Hall.
  simpl in Hall. rewrite app_nil_r in Hall. exact Hall.
Qed.

(** What one round of the content loop does to the document. *)
Lemma contentLine_drawn sections format doc cur line :
  (contentLine sections format (doc, cur) line).1 =
    if isHeader sections line
    then moveDown 2 (drawn (headerItem sections line) (ensureSpace 100 doc))
    else drawn (bodyItem format line) (ensureSpace 20 doc).
Proof.
  unfold Layout.contentLine, bodyItem.
  destruct (isHeader sections line); [done|]. by destruct (bool_decide _).
Qed.

Lemma lineItem_unplaced sections format line :
  item_at (lineItem sections format line) = None.
Proof.
  unfold lineItem, bodyItem.
  destruct (isHeader sections line); [done|]. by destruct (bool_decide _).
Qed.

Lemma extends_contentLine sections format doc cur line :
  current doc →
  extends doc (contentLine sections format (doc, cur) line).1
          [lineItem sections format line].
Proof.
  intros H. rewrite contentLine_drawn.
  pose proof (lineItem_unplaced sections format line) as Hat. unfold lineItem in *.
  destruct (isHeader sections line).
  - assert (H1 := extends_ensureSpace 100 doc H).
    assert (H2 := extends_drawn _ _ Hat (extends_current _ _ _ H1)).
    assert (H3 := extends_moveDown 2 _ (extends_current _ _ _ H2)).
    pose proof (extends_trans _ _ _ _ _ H1 (extends_trans _ _ _ _ _ H2 H3)) as Hall.
    exact Hall.
  - assert (H1 := extends_ensureSpace 20 doc H).
    assert (H2 := extends_drawn _ _ Hat (extends_current _ _ _ H1)).
    exact (extends_trans _ _ _ _ _ H1 H2).
Qed.

Lemma extends_content analysisResult sections format doc :
  current doc →
  extends doc (content analysisResult sections format doc)
          (lineItem sections format <$> split_lines analysisResult).
Proof.
  unfold Layout.content. generalize (split_lines analysisResult) as ls.
  generalize "" as cur. intros cur ls. revert doc cur.
  induction ls as [|l ls IH]; intros doc cur H.
  - by apply extends_refl.
  - cbn [fold_left]. rewrite fmap_cons.
    destruct (contentLine sections format (doc, cur) l) as [doc1 cur1] eqn:E.
    pose proof (extends_contentLine sections format doc cur l H) as H1.
    rewrite E in H1. simpl in H1.
    change (?x :: ?l) with ([x] ++ l).
    eapply extends_trans; [exact H1|]. apply IH. by destruct H1.
Qed.

Lemma current_newDocument : current newDocument.
Proof. done. Qed.

(** The document after the content pass: the front matter and one call
    per line. *)
Lemma written_items analysisResult sections format :
  current (written analysisResult sections format) ∧
  items (written analysisResult sections format) =
    frontMatter sections format ++
    (lineItem sections format <$> split_lines analysisResult).
Proof.
  unfold Layout.written.
  assert (H1 := extends_title newDocument current_newDocument).
  assert (H2 := extends_tableOfContents sections format _ (extends_current _ _ _ H1)).
  assert (H3 := extends_content analysisResult sections format _ (extends_current _ _ _ H2)).
  destruct (extends_trans _ _ _ _ _ H1 (extends_trans _ _ _ _ _ H2 H3)) as (Hc & Hi & _).
  split; [done|]. rewrite Hi. unfold frontMatter. by destruct (bool_decide _).
Qed.

(** *** The padding loop and the page-number loop *)

Lemma bufferedPageCount_current doc : current doc → bufferedPageCount doc = 1%nat.
Proof. intros [Hp Hf]. unfold bufferedPageCount. lia. Qed.

(** The padding loop does not end: the buffer holds one page whatever
    was added. *)
Lemma padPages_current fuel doc : current doc → padPages fuel doc = None.
Proof.
  revert doc. induction fuel as [|fuel IH]; intros doc H; cbn [padPages];
    rewrite (bufferedPageCount_current doc H), decide_True by lia; [done|].
  apply IH. by apply (extends_addPage doc).
Qed.

(** The page-number loop has one round; it throws unless the whole
    document is one page. *)
Lemma pageNumbers_current doc :
  current doc →
  pageNumbers doc =
    if decide (length (pages doc) = 1%nat) then Some (stamped 1 doc) else None.
Proof.
  intros H. unfold Layout.pageNumbers. rewrite (bufferedPageCount_current doc H).
  destruct H as [Hp Hf]. simpl. unfold switchToPage.
  destruct (decide (length (pages doc) = 1%nat)) as [H1|H1].
  - rewrite decide_True by lia. simpl. unfold ObsLayout.stamped. do 2 f_equal.
    destruct doc as [ps fl pg y sz]. simpl in *. unfold fontSize. simpl.
    f_equal. lia.
  - rewrite decide_False by lia. done.
Qed.

Lemma extends_stamped total doc :
  current doc → extends doc (stamped total doc) [footerItem page_height 0 total].
Proof. intros H. by apply (extends_textAt _ _ _ _ (fontSize 10 doc)). Qed.

(** With lines of positive height the page number, set at the bottom
    margin, opens a page of its own. *)
Lemma pages_stamped total doc :
  current doc → 0 < lineHeight 10 →
  ∃ k, pages (stamped total doc) =
         pages doc ++ [footerItem page_height 0 total] :: replicate k [].
Proof.
  intros H Hlh. destruct doc as [ps fl pg y sz]. destruct H as [Hp Hf]. simpl in Hp, Hf.
  unfold ObsLayout.stamped, Pdf.textAt, Pdf.typeset, fontSize.
  cbn [pages flushed page doc_y font item_text].
  assert (Hend : (page_height - 50 >? maxY page_height)
                 || pageEnd page_height lineHeight (mkDoc ps fl pg (page_height - 50) 10)
                 = true).
  { unfold pageEnd, maxY, margin. cbn [doc_y font].
    apply orb_true_iff. right. apply Z.gtb_lt. lia. }
  rewrite Hend. unfold addPage. cbn [pages flushed page doc_y font].
  set (doc2 := mkDoc _ _ _ _ _).
  destruct (pages_emitLines (wrap (font doc2) (footerText 0 total)) doc2) as (k & Hk & _).
  { subst doc2. unfold current, draw. simpl. rewrite length_alter, length_app. simpl.
    split; [lia|done]. }
  exists k. change (font doc2) with 10 in Hk. rewrite Hk. subst doc2. unfold draw.
  cbn [pages page]. rewrite alter_app_r_alt by lia. rewrite Nat.sub_diag.
  by rewrite <- app_assoc.
Qed.

Lemma links_written analysisResult sections format :
  links (pages (written analysisResult sections format)) =
    if bool_decide (format ≠ "presentation") then imap tocItem sections else [].
Proof.
  destruct (written_items analysisResult sections format) as [_ Hi].
  unfold links. fold (items (written analysisResult sections format)).
  rewrite Hi, filter_app, filter_linking_lineItems, app_nil_r.
  apply filter_linking_frontMatter.
Qed.

(** *** The promise of [generatePDF] *)

Lemma generatePDF_detailed fuel analysisResult sections :
  generatePDF fuel analysisResult sections "detailed" = Unfinished.
Proof.
  unfold Layout.generatePDF, padding. rewrite bool_decide_eq_true_2 by done.
  rewrite padPages_current; [done|]. apply written_items.
Qed.

Lemma generatePDF_other fuel analysisResult sections format :
  format ≠ "detailed" →
  generatePDF fuel analysisResult sections format =
    if decide (length (pages (written analysisResult sections format)) = 1%nat)
    then Resolved (stamped 1 (written analysisResult sections format))
    else Threw.
Proof.
  intros Hf. unfold Layout.generatePDF, padding. rewrite bool_decide_eq_false_2 by done.
  rewrite pageNumbers_current by apply written_items. by destruct (decide _).
Qed.

(** A document that [generatePDF] returns: the content pass stayed on one
    page, and the calls are those of the content pass and one page
    number. *)
Lemma generatePDF_resolved fuel analysisResult sections format doc :
  generatePDF fuel analysisResult sections format = Resolved doc →
  format ≠ "detailed" ∧
  length (pages (written analysisResult sections format)) = 1%nat ∧
  doc = stamped 1 (written analysisResult sections format) ∧
  items doc =
    frontMatter sections format ++
    (lineItem sections format <$> split_lines analysisResult) ++
    [footerItem page_height 0 1].
Proof.
  intros Hgen. destruct (decide (format = "detailed")) as [->|Hf].
  { by rewrite generatePDF_detailed in Hgen. }
  rewrite generatePDF_other in Hgen by done.
  destruct (decide _) as [H1|]; [|done]. injection Hgen as <-.
  split_and!; [done..|].
  destruct (written_items analysisResult sections format) as [Hc Hi].
  destruct (extends_stamped 1 _ Hc) as (_ & Hs & _).
  by rewrite Hs, Hi, <- app_assoc.
Qed.

Lemma links_resolved fuel analysisResult sections format doc :
  generatePDF fuel analysisResult sections format = Resolved doc →
  links (pages doc) = links (pages (written analysisResult sections format)).
Proof.
  intros (_ & _ & _ & Hi)%generatePDF_resolved.
  rewrite links_written. unfold links. fold (items doc).
  rewrite Hi, !filter_app, filter_linking_lineItems.
  rewrite filter_cons_False by (by intros [? ?]). rewrite filter_nil, !app_nil_r.
  apply filter_linking_frontMatter.
Qed.

End Metrics.

End LayoutFacts.

(** ** The layout pass against its description *)

Module LayoutSpec.
Import Js Obs ObsLayout JsFacts Pdf Layout LayoutFacts.

#[local] Arguments String.append _ _ : simpl nomatch.

Lemma tocLink_not_section0 index : tocLink index ≠ "#" +:+ "section0".
Proof.
  unfold tocLink. change ("#" +:+ "section0") with ("#section" +:+ pretty 0).
  intros H. apply append_inv_head, (inj pretty) in H. lia.
Qed.

Lemma iter_addPage n doc :
  current doc →
  current (Nat.iter n addPage doc) ∧
  length (pages (Nat.iter n addPage doc)) = (length (pages doc) + n)%nat.
Proof.
  intros H. induction n as [|n [IHc IHn]]; [split; [done|simpl; lia]|].
  simpl. split; [by apply (extends_addPage _ IHc)|].
  rewrite length_app, IHn. simpl. lia.
Qed.

Section Metrics.

Context (page_height : Z) (lineHeight : Z → Z) (wrap : Z → string → list bool)
        (halfLine : Z → Z).

Local Abbreviation contentLine := (contentLine page_height lineHeight wrap halfLine).
Local Abbreviation ensureSpace := (ensureSpace page_height).
Local Abbreviation moveDown := (moveDown halfLine).
Local Abbreviation tableOfContents := (tableOfContents page_height lineHeight wrap halfLine).
Local Abbreviation title := (title page_height lineHeight wrap halfLine).
Local Abbreviation written := (written page_height lineHeight wrap halfLine).
Local Abbreviation generatePDF := (generatePDF page_height lineHeight wrap halfLine).
Local Abbreviation footerItem := (footerItem page_height).
Local Abbreviation drawn := (drawn page_height lineHeight wrap).

(** C1, as the code has it.  A content line is drawn as a header exactly
    when some requested section identifier occurs in the line; containment
    the other way round does not make a header.  The destination of a
    header line that itself occurs in some requested identifier is
    section<i+1> for the first index i whose identifier contains the
    line.  The call made for the line draws the header item in the first
    case and the body item otherwise, and it is the one call added to the
    document. *)
Theorem header_rule sections line :
  (isHeader sections line = true ↔ ∃ s, s ∈ sections ∧ substring_of s line) ∧
  (∀ (i : nat) s,
      sections !! i = Some s → substring_of line s →
      (∀ (j : nat) s', (j < i)%nat → sections !! j = Some s' → ¬ substring_of line s') →
      headerDestination sections line = "section" +:+ pretty (Z.of_nat i + 1)) ∧
  (∀ format doc cur,
      (contentLine sections format (doc, cur) line).1 =
        (if isHeader sections line
         then moveDown 2 (drawn (headerItem sections line) (ensureSpace 100 doc))
         else drawn (bodyItem format line) (ensureSpace 20 doc)) ∧
      (current doc →
       items (contentLine sections format (doc, cur) line).1 =
         items doc ++ [if isHeader sections line
                       then headerItem sections line else bodyItem format line])).
Proof.
  split_and!.
  - unfold isHeader. rewrite some_true_iff.
    split; intros (s & Hs & H); exists s; split; auto; by apply includes_true_iff.
  - intros i s Hi Hs Hfirst. unfold headerDestination.
    rewrite (findIndex_first _ sections i s); [done|done|..].
    + by apply includes_true_iff.
    + intros j s' Hj Hs'. apply includes_false_iff. by eapply Hfirst.
  - intros. split; [apply contentLine_drawn|]. intros Hc.
    by destruct (extends_contentLine page_height lineHeight wrap halfLine
                   sections format doc cur line Hc) as (_ & ? & _).
Qed.

(** C10.  A header line that occurs in no requested section identifier
    is drawn with the destination section0, and no item laid out for
    these sections links to section0, neither after the content pass nor
    in a document that [generatePDF] returns: the links of the table of
    contents are section1 to sectionK. *)
Theorem unmatched_header_gets_section0 sections line :
  isHeader sections line = true →
  (∀ s, s ∈ sections → ¬ substring_of line s) →
  headerDestination sections line = "section0" ∧
  (∀ format doc cur,
      (contentLine sections format (doc, cur) line).1 =
        moveDown 2
          (drawn (mkItem line 18 None (mkOpts None None (Some "section0")))
                 (ensureSpace 100 doc))) ∧
  (∀ analysisResult format it,
      it ∈ items (written analysisResult sections format) →
      link (item_opts it) ≠ Some ("#" +:+ "section0")) ∧
  (∀ fuel analysisResult format doc it,
      generatePDF fuel analysisResult sections format = Resolved doc →
      it ∈ items doc →
      link (item_opts it) ≠ Some ("#" +:+ "section0")).
Proof.
  intros Hhead Hnone.
  assert (Hdest : headerDestination sections line = "section0").
  { unfold headerDestination. rewrite findIndex_none; [done|].
    intros s Hs. apply includes_false_iff. by apply Hnone. }
  assert (Hlinks : ∀ format it,
            it ∈ (if bool_decide (format ≠ "presentation")
                  then imap tocItem sections else []) →
            link (item_opts it) ≠ Some ("#" +:+ "section0")).
  { intros format it Hin Hlink. destruct (bool_decide _); [|by apply elem_of_nil in Hin].
    apply list_elem_of_lookup in Hin as [i Hi].
    rewrite list_lookup_imap in Hi.
    destruct (sections !! i); simpl in Hi; [|done].
    injection Hi as <-.
    change (Some (tocLink i) = Some ("#" +:+ "section0")) in Hlink.
    apply (inj Some) in Hlink. by apply tocLink_not_section0 in Hlink. }
  split_and!; [done| | |].
  - intros. rewrite contentLine_drawn, Hhead. unfold headerItem. by rewrite Hdest.
  - intros analysisResult format it Hit Hlink. apply (Hlinks format it); [|done].
    rewrite <- (links_written page_height lineHeight wrap halfLine analysisResult).
    apply list_elem_of_filter. split; [|done]. unfold linking. by rewrite Hlink.
  - intros fuel analysisResult format doc it Hgen Hit Hlink.
    apply (Hlinks format it); [|done].
    rewrite <- (links_written page_height lineHeight wrap halfLine analysisResult).
    rewrite <- (links_resolved _ _ _ _ _ _ _ _ _ Hgen).
    apply list_elem_of_filter. split; [|done]. unfold linking. by rewrite Hlink.
Qed.

(** C4, on the code.  For the format detailed the layout pass does not
    return, whatever the text and however many rounds the padding loop is
    given: the document is created without page buffering, every added
    page sends the one before it out of the buffer, and the count that
    the loop compares with 15 stays 1 while the pages grow in number. *)
Theorem detailed_report_never_returns fuel analysisResult sections :
  generatePDF fuel analysisResult sections "detailed" = Unfinished ∧
  ∀ rounds : nat,
    let doc := Nat.iter rounds addPage (written analysisResult sections "detailed") in
    bufferedPageCount doc = 1%nat ∧
    length (pages doc) =
      (length (pages (written analysisResult sections "detailed")) + rounds)%nat.
Proof.
  split; [apply generatePDF_detailed|]. intros rounds doc.
  destruct (written_items page_height lineHeight wrap halfLine
              analysisResult sections "detailed") as [Hc _].
  destruct (iter_addPage rounds _ Hc) as [Hc' Hn].
  split; [by apply bufferedPageCount_current|done].
Qed.

(** C5, on the code.  In every document that [generatePDF] returns, with
    lines of positive height: the content pass filled one page, the
    page-number loop ran once for a count of 1, and its text, set at the
    bottom margin, went to a page that the library opened for it.  So the
    document has at least two pages, the first page carries no page
    number, and the second one reads Page 1 of 1. *)
Theorem page_number_misses_its_page fuel analysisResult sections format doc :
  0 < lineHeight 10 →
  generatePDF fuel analysisResult sections format = Resolved doc →
  ∃ p0 blank,
    pages (written analysisResult sections format) = [p0] ∧
    pages doc = p0 :: [footerItem 0 1] :: blank ∧
    footers p0 = [] ∧ concat blank = [] ∧
    item_text (footerItem 0 1) = "Page 1 of 1" ∧
    (2 ≤ length (pages doc))%nat.
Proof.
  intros Hlh (Hf & Hone & -> & _)%generatePDF_resolved.
  destruct (written_items page_height lineHeight wrap halfLine
              analysisResult sections format) as [Hc Hi].
  destruct (pages_stamped page_height lineHeight wrap 1 _ Hc Hlh) as [k Hk].
  destruct (pages (written analysisResult sections format)) as [|p0 [|? ?]] eqn:E;
    try done.
  exists p0, (replicate k []). rewrite Hk.
  split_and!; [done|done| | |done|simpl; lia].
  - apply footers_unplaced. unfold items in Hi. rewrite E in Hi. cbn [concat] in Hi.
    rewrite app_nil_r in Hi. rewrite Hi. apply Forall_app.
    split; [apply frontMatter_unplaced|apply lineItems_unplaced].
  - apply (concat_blank_pages [] k).
Qed.

(** C6.  For a format other than presentation the table of contents is
    drawn after the title and its heading: one entry per requested
    section, in the requested order, the entry of the section at index i
    linking to #section<i+1>; these entries are the only items with a
    link, after the content pass and in any document returned.  For the
    format presentation no item carries a link and the heading of the
    table is not drawn. *)
Theorem table_of_contents_entries analysisResult sections format :
  let toc := tableOfContents sections format (title newDocument) in
  let doc := written analysisResult sections format in
  (format ≠ "presentation" →
     items toc = [titleItem; tocHeading] ++ imap tocItem sections ∧
     (λ it, (item_text it, link (item_opts it))) <$> links (pages doc) =
       imap (λ i section, (section, Some ("#section" +:+ pretty (Z.of_nat i + 1))))
            sections ∧
     ∃ lines, items doc = [titleItem; tocHeading] ++ imap tocItem sections ++ lines) ∧
  (format = "presentation" →
     items toc = [titleItem] ∧ links (pages doc) = [] ∧
     ∀ it, it ∈ items doc → it ≠ tocHeading) ∧
  (∀ fuel pdf,
     generatePDF fuel analysisResult sections format = Resolved pdf →
     links (pages pdf) = links (pages doc)).
Proof.
  intros toc doc.
  assert (Htoc : items toc = frontMatter sections format).
  { subst toc.
    assert (H1 := extends_title page_height lineHeight wrap halfLine
                    newDocument (current_newDocument)).
    assert (H2 := extends_tableOfContents page_height lineHeight wrap halfLine
                    sections format _ (extends_current _ _ _ H1)).
    destruct (extends_trans _ _ _ _ _ H1 H2) as (_ & Hi & _). by rewrite Hi. }
  destruct (written_items page_height lineHeight wrap halfLine
              analysisResult sections format) as [_ Hi]. fold doc in Hi.
  pose proof (links_written page_height lineHeight wrap halfLine
                analysisResult sections format) as Hlinks. fold doc in Hlinks.
  split_and!.
  - intros Hf. unfold frontMatter in *. rewrite bool_decide_eq_true_2 in * by done.
    split_and!; [done| |eexists; exact Hi].
    rewrite Hlinks. apply list_eq. intros i.
    rewrite list_lookup_fmap, !list_lookup_imap. by destruct (sections !! i).
  - intros ->. unfold frontMatter in *. simpl in *. split_and!; [done..|].
    intros it Hit ->. rewrite Hi in Hit.
    apply elem_of_cons in Hit as [Hit|Hit]; [done|].
    apply list_elem_of_fmap in Hit as (line & Hline & _).
    unfold lineItem, headerItem, bodyItem in Hline. simpl in Hline.
    by destruct (isHeader sections line).
  - intros fuel pdf Hgen. by eapply links_resolved.
Qed.

End Metrics.

(** C1, as stated, at the section list [Market Overview] and the line
    Market: the line occurs in a requested identifier, yet it is not a
    header line. *)
Lemma header_rule_not_symmetric :
  ¬ (isHeader ["Market Overview"] "Market" = true ↔
     ∃ s, s ∈ ["Market Overview"] ∧
          (substring_of "Market" s ∨ substring_of s "Market")).
Proof.
  intros [_ H]. enough (isHeader ["Market Overview"] "Market" = true) by done.
  apply H. exists "Market Overview". split; [by left|].
  left. by exists "", " Overview".
Qed.

(** *** Worked instances *)

Lemma header_rule_witness :
  headerDestination ["Market"; "Market Overview"] "Market Overview" = "section2".
Proof.
  apply (proj1 (proj2 (header_rule sample_height sample_lineHeight sample_wrap
                         sample_halfLine ["Market"; "Market Overview"] "Market Overview"))
           1%nat "Market Overview").
  - reflexivity.
  - by exists "", "".
  - intros j s' Hj Hs'. destruct j as [|j]; [|lia].
    injection Hs' as <-. apply includes_false_iff. vm_compute. reflexivity.
Defined.

Lemma unmatched_header_witness :
  headerDestination ["Market Overview"] "Market Overview:" = "section0".
Proof.
  apply (unmatched_header_gets_section0 sample_height sample_lineHeight sample_wrap
           sample_halfLine ["Market Overview"] "Market Overview:").
  - vm_compute. reflexivity.
  - intros s Hs. apply list_elem_of_singleton in Hs as ->.
    apply includes_false_iff. vm_compute. reflexivity.
Defined.

Lemma page_number_witness :
  ∃ doc p0 blank,
    generatePDF sample_height sample_lineHeight sample_wrap sample_halfLine 0
      "Market Overview" ["Market Overview"] "summary" = Resolved doc ∧
    pages doc = p0 :: [footerItem sample_height 0 1] :: blank ∧
    footers p0 = [].
Proof.
  assert (H : ∃ doc,
            generatePDF sample_height sample_lineHeight sample_wrap sample_halfLine 0
              "Market Overview" ["Market Overview"] "summary" = Resolved doc).
  { vm_compute. eexists. reflexivity. }
  destruct H as [doc H].
  destruct (page_number_misses_its_page sample_height sample_lineHeight sample_wrap
              sample_halfLine 0 "Market Overview" ["Market Overview"] "summary" doc)
    as (p0 & blank & _ & Hp & Hfoot & _); [vm_compute; reflexivity|exact H|].
  exists doc, p0, blank. split_and!; [exact H|exact Hp|exact Hfoot].
Defined.

Lemma table_of_contents_witness :
  (λ it, (item_text it, link (item_opts it))) <$>
    links (pages (written sample_height sample_lineHeight sample_wrap sample_halfLine
                    "Market Overview" ["Market Overview"; "SWOT Analysis"] "summary")) =
    [("Market Overview", Some "#section1"); ("SWOT Analysis", Some "#section2")].
Proof.
  destruct (table_of_contents_entries sample_height sample_lineHeight sample_wrap
              sample_halfLine "Market Overview" ["Market Overview"; "SWOT Analysis"]
              "summary") as (Htoc & _).
  destruct Htoc as (_ & Hlinks & _); [discriminate|]. exact Hlinks.
Defined.

End LayoutSpec.

(** ** Facts about the route *)

Module RouteFacts.
Import Js Obs ObsRoute JsFacts Pdf Layout Route.

#[local] Arguments String.append _ _ : simpl nomatch.

Lemma cacheKey_inj c c' : cacheKey c = cacheKey c' → c = c'.
Proof. apply append_inv_head. Qed.

Lemma siteUrl_inj c c' : siteUrl c = siteUrl c' → c = c'.
Proof. unfold siteUrl. intros H. by apply append_inv_head, append_inv_tail in H. Qed.

Lemma cachedMessage_not_analyzing c : ¬ is_analyzing (cachedMessage c).
Proof. unfold is_analyzing. simpl. done. Qed.

Lemma promiseAll_fulfilled ts ds :
  promiseAll ts = AllFulfilled ds → Forall2 (λ t d, t = Fulfilled d) ts ds.
Proof.
  revert ds. induction ts as [|t ts IH]; intros ds; simpl.
  - intros [= <-]. constructor.
  - destruct t, (promiseAll ts); try done. intros [= <-]. constructor; auto.
Qed.

Lemma promiseAll_stage ts :
  Forall (λ t, t ≠ Rejected ∧ stage t = 3%nat) ts → ∃ ds, promiseAll ts = AllFulfilled ds.
Proof.
  induction 1 as [|t ts [Hr Hs] _ [ds IH]]; simpl; [by eexists|].
  rewrite IH. destruct t; try done. by eexists.
Qed.

Lemma notices_insert store cs ts (i : nat) c t t' extra :
  cs !! i = Some c → ts !! i = Some t →
  notice store c t' ≡ₚ notice store c t ++ extra →
  notices store cs (<[i:=t']> ts) ≡ₚ notices store cs ts ++ extra.
Proof.
  unfold notices. revert ts i.
  induction cs as [|c0 cs IH]; intros [|t0 ts] i Hc Ht Hn; try done.
  destruct i as [|i]; simpl in *.
  - injection Hc as ->. injection Ht as ->. rewrite Hn.
    rewrite <- !app_assoc. f_equiv. apply Permutation_app_comm.
  - rewrite (IH ts i Hc Ht Hn). by rewrite app_assoc.
Qed.

Lemma notices_fulfilled store cs ts ds :
  Forall2 (λ t d, t = Fulfilled d) ts ds → length cs = length ts →
  notices store cs ts = cachedMessage <$> hits store cs.
Proof.
  unfold notices, hits. intros H. revert cs.
  induction H as [|t d ts ds -> _ IH]; intros [|c cs] Hlen; try done.
  simpl in *. rewrite IH by lia. unfold notice, hit.
  destruct (truthy (store !! cacheKey c)) eqn:E.
  - by rewrite filter_cons_True.
  - rewrite filter_cons_False; [done|]. by rewrite E.
Qed.

Lemma dispatch_all total from cs w :
  forEach_from (dispatch total) from cs w =
    mkWorld (eventStream w)
            (progress w ++ imap (λ i _, analyzingMessage (from + i) total) cs)
            (streamEnded w) (cache w) (cacheWrites w) (adapterCalls w)
            (tasks w ++ ((λ c, AwaitCache (cache w !! cacheKey c)) <$> cs)).
Proof.
  revert from w. induction cs as [|c cs IH]; intros from w.
  - destruct w. simpl. by rewrite !app_nil_r.
  - cbn [forEach_from]. rewrite IH. unfold dispatch, spawn, sendProgress, getCachedData.
    simpl. rewrite <- !app_assoc. simpl. rewrite Nat.add_0_r.
    f_equal. do 2 f_equal. apply imap_ext. intros i x _. simpl. f_equal. lia.
Qed.

Lemma fannedOut_eq store cs :
  fannedOut store cs =
    mkWorld true ("Starting report generation..." :: analyzingMessages cs) false
            store [] [] ((λ c, AwaitCache (store !! cacheKey c)) <$> cs).
Proof. unfold fannedOut, forEach. by rewrite dispatch_all. Qed.

Section Environment.

Context (scrapeWebsite : string → option ScrapedData).
Context (parse : string → option ScrapedData) (stringify : ScrapedData → string).

Local Abbreviation resume := (resume scrapeWebsite parse stringify).
Local Abbreviation Inv := (Inv parse).
Local Abbreviation advance := (advance scrapeWebsite parse).

Lemma fannedOut_Inv store cs : Inv store cs (fannedOut store cs).
Proof.
  rewrite fannedOut_eq. split; simpl; try done.
  - apply Forall2_fmap_r, Forall_Forall2_diag, Forall_forall. done.
  - exists []. rewrite app_nil_r. split; [done|].
    unfold notices. induction cs as [|c cs IH]; [done|]. simpl.
    rewrite <- IH. unfold notice. by destruct (truthy _).
Qed.

Lemma resume_Inv store cs w i : Inv store cs w → Inv store cs (resume cs w i).
Proof.
  intros [Ht (extra & Hp & He) Hc Hw Hk Hs]. unfold Route.resume.
  destruct (cs !! i) as [c|] eqn:Ec; [|by split; eauto].
  destruct (tasks w !! i) as [t|] eqn:Et; [|by split; eauto].
  pose proof (Forall2_lookup_lr _ _ _ _ _ _ Ht Ec Et) as Hcons.
  assert (Hin : c ∈ cs) by (by eapply list_elem_of_lookup_2).
  assert (Hkeep : ∀ t', consistent parse store c t' →
            Forall2 (consistent parse store) cs (<[i:=t']> (tasks w))).
  { intros t' Ht'. rewrite <- (list_insert_id cs i c Ec). by apply Forall2_insert. }
  destruct t as [cachedData| |scrapedData|record|]; simpl in Hcons; [| | |by split; eauto..].
  - subst cachedData. destruct (truthy (store !! cacheKey c)) eqn:Ehit.
    + assert (Hn : ∀ t', stage t' = 3%nat →
                notice store c t' ≡ₚ notice store c (AwaitCache (store !! cacheKey c))
                                     ++ [cachedMessage c]).
      { intros t' Hs'. unfold notice. rewrite Ehit. by destruct t'. }
      destruct (parse _) as [record|] eqn:Eparse; split; simpl; try done.
      * apply Hkeep. simpl. unfold decoded. by rewrite Eparse.
      * exists (extra ++ [cachedMessage c]). rewrite Hp.
        split; [by rewrite <- app_comm_cons, <- app_assoc|].
        rewrite He. symmetry. by eapply notices_insert, Hn.
      * apply Hkeep. simpl. unfold decoded. by rewrite Eparse.
      * exists (extra ++ [cachedMessage c]). rewrite Hp.
        split; [by rewrite <- app_comm_cons, <- app_assoc|].
        rewrite He. symmetry. by eapply notices_insert, Hn.
    + split; simpl; try done.
      * by apply Hkeep.
      * exists extra. split; [done|]. rewrite He. symmetry.
        rewrite <- (app_nil_r (notices store cs (tasks w))).
        eapply notices_insert; [done..|]. unfold notice. by rewrite Ehit.
      * apply Forall_app. split; [done|]. constructor; [|done].
        exists c. unfold hit. rewrite Ehit. done.
  - destruct (scrapeWebsite _) as [scrapedData|]; split; simpl; try done.
    + by apply Hkeep.
    + exists extra. split; [done|]. rewrite He. symmetry.
      rewrite <- (app_nil_r (notices store cs (tasks w))).
      eapply notices_insert; [done..|]. unfold notice. by rewrite Hcons.
    + apply Forall_app. split; [done|]. constructor; [|done].
      exists c. unfold hit. rewrite Hcons. done.
    + intros c' Hc'. rewrite lookup_insert_ne; [by apply Hk|].
      intros ->%cacheKey_inj. unfold hit in Hc'. congruence.
    + apply Hkeep. simpl. unfold hit. congruence.
    + exists extra. split; [done|]. rewrite He. symmetry.
      rewrite <- (app_nil_r (notices store cs (tasks w))).
      eapply notices_insert; [done..|]. unfold notice. by rewrite Hcons.
  - split; simpl; try done.
    + apply Hkeep. simpl. unfold hit. congruence.
    + exists extra. split; [done|]. rewrite He. symmetry.
      rewrite <- (app_nil_r (notices store cs (tasks w))).
      eapply notices_insert; [done..|]. unfold notice. by rewrite Hcons.
Qed.

Lemma run_Inv store cs schedule w :
  Inv store cs w → Inv store cs (fold_left (resume cs) schedule w).
Proof.
  revert w. induction schedule as [|i schedule IH]; intros w H; [done|].
  simpl. by apply IH, resume_Inv.
Qed.

Lemma notices_cached store cs ts m :
  m ∈ notices store cs ts → ∃ c, m = cachedMessage c.
Proof.
  unfold notices. revert ts. induction cs as [|c cs IH]; intros [|t ts]; simpl;
    try (by intros ?%elem_of_nil).
  intros [H|H]%elem_of_app; [|by eapply IH].
  unfold notice in H. destruct (truthy _), t;
    try (by apply elem_of_nil in H); apply list_elem_of_singleton in H; eauto.
Qed.

(** One completion moves the callback it is delivered to one await
    further, and never into rejection when the outside world cooperates. *)
Lemma resume_step store cs w (j i : nat) t1 :
  Inv store cs w → cooperative scrapeWebsite parse store cs →
  tasks (resume cs w j) !! i = Some t1 →
  ∃ t0, tasks w !! i = Some t0 ∧ (t0 ≠ Rejected → t1 ≠ Rejected) ∧
        (3 `min` (stage t0 + if decide (j = i) then 1 else 0) ≤ stage t1)%nat.
Proof.
  intros [Ht _ _ _ _ _] Hco. unfold Route.resume.
  assert (Hsame : tasks w !! i = Some t1 →
            ∃ t0, tasks w !! i = Some t0 ∧ (t0 ≠ Rejected → t1 ≠ Rejected) ∧
                  (3 `min` (stage t0 + 0) ≤ stage t1)%nat).
  { intros H. exists t1. split_and!; [done..|lia]. }
  destruct (cs !! j) as [c|] eqn:Ec.
  2:{ intros H. destruct (decide (j = i)) as [->|]; [|by apply Hsame].
      apply lookup_lt_Some in H. apply lookup_ge_None in Ec.
      apply Forall2_length in Ht. lia. }
  destruct (tasks w !! j) as [t|] eqn:Et.
  2:{ intros H. destruct (decide (j = i)) as [->|]; [congruence|by apply Hsame]. }
  pose proof (Forall2_lookup_lr _ _ _ _ _ _ Ht Ec Et) as Hcons.
  assert (Hin : c ∈ cs) by (by eapply list_elem_of_lookup_2).
  specialize (Hco c Hin). cbv beta in Hco.
  assert (Hmove : ∀ t' w', tasks w' = <[j:=t']> (tasks w) →
            t' ≠ Rejected → (3 `min` (stage t + 1) ≤ stage t')%nat →
            tasks w' !! i = Some t1 →
            ∃ t0, tasks w !! i = Some t0 ∧ (t0 ≠ Rejected → t1 ≠ Rejected) ∧
                  (3 `min` (stage t0 + if decide (j = i) then 1 else 0) ≤ stage t1)%nat).
  { intros t' w' -> Hr Hst. destruct (decide (j = i)) as [->|Hne].
    - rewrite list_lookup_insert_eq by (by eapply lookup_lt_Some).
      intros [= <-]. by exists t.
    - rewrite list_lookup_insert_ne by done. apply Hsame. }
  destruct t as [cachedData| |scrapedData|record|]; simpl in Hcons.
  - subst cachedData. destruct (truthy (store !! cacheKey c)) eqn:Ehit.
    + destruct Hco as [record ->].
      apply (Hmove (Fulfilled record)); [reflexivity|done|simpl; lia].
    + apply (Hmove AwaitScrape); [reflexivity|done|simpl; lia].
  - rewrite Hcons in Hco. destruct Hco as [scrapedData ->].
    apply (Hmove (AwaitStore scrapedData)); [reflexivity|done|simpl; lia].
  - apply (Hmove (Fulfilled scrapedData)); [reflexivity|done|simpl; lia].
  - intros H. destruct (decide (j = i)) as [->|]; [|by apply Hsame].
    exists t1. rewrite Et in H. injection H as <-. split_and!; [done..|simpl; lia].
  - intros H. destruct (decide (j = i)) as [->|]; [|by apply Hsame].
    exists t1. rewrite Et in H. injection H as <-. split_and!; [done..|simpl; lia].
Qed.

Lemma run_steps store cs schedule w (i : nat) t :
  Inv store cs w → cooperative scrapeWebsite parse store cs →
  tasks (fold_left (resume cs) schedule w) !! i = Some t →
  ∃ t0, tasks w !! i = Some t0 ∧ (t0 ≠ Rejected → t ≠ Rejected) ∧
        (3 `min` (stage t0 + count_occ Nat.eq_dec schedule i) ≤ stage t)%nat.
Proof.
  intros HI Hco. revert w HI t.
  induction schedule as [|j schedule IH]; intros w HI t Ht.
  - exists t. split_and!; [done..|cbn [count_occ]; lia].
  - simpl in Ht. apply IH in Ht as (t1 & Ht1 & Hr1 & Hs1); [|by apply resume_Inv].
    apply (resume_step store) in Ht1 as (t0 & Ht0 & Hr0 & Hs0); [|done..].
    exists t0. split_and!; [done|auto|]. cbn [count_occ].
    destruct (Nat.eq_dec j i), (decide (j = i)); try done; lia.
Qed.

(** With every completion delivered and a cooperating outside world,
    [Promise.all] is fulfilled. *)
Lemma run_fulfils store cs schedule :
  cooperative scrapeWebsite parse store cs → complete schedule (length cs) →
  ∃ ds, promiseAll (tasks (fold_left (resume cs) schedule (fannedOut store cs)))
        = AllFulfilled ds.
Proof.
  intros Hco Hcomplete. apply promiseAll_stage, Forall_lookup. intros i t Ht.
  pose proof (run_Inv store cs schedule _ (fannedOut_Inv store cs)) as [HF _ _ _ _ _].
  assert (Hi : (i < length cs)%nat).
  { apply Forall2_length in HF. rewrite HF. by eapply lookup_lt_Some. }
  apply (run_steps store) in Ht as (t0 & Ht0 & Hr & Hs); [|by apply fannedOut_Inv|done].
  rewrite fannedOut_eq in Ht0. simpl in Ht0. rewrite list_lookup_fmap in Ht0.
  destruct (cs !! i); simpl in Ht0; [|done]. injection Ht0 as <-.
  specialize (Hcomplete i Hi). split; [by apply Hr|].
  assert (stage t ≤ 3)%nat by (by destruct t; cbn [stage]; lia).
  cbn [stage] in Hs. lia.
Qed.

(** A completion changes the callback it is delivered to, and no other. *)
Lemma tasks_resume cs w (j : nat) :
  length cs = length (tasks w) →
  tasks (resume cs w j) =
    match cs !! j with
    | Some c => alter (advance c) j (tasks w)
    | None => tasks w
    end.
Proof.
  intros Hlen. unfold Route.resume.
  destruct (cs !! j) as [c|] eqn:Ec; [|done].
  destruct (tasks w !! j) as [t|] eqn:Et.
  2:{ symmetry. apply list_eq. intros i. rewrite list_lookup_alter.
      destruct (decide (j = i)) as [<-|]; [by rewrite Et|done]. }
  assert (Halter : ∀ t', t' = advance c t → <[j:=t']> (tasks w) = alter (advance c) j (tasks w)).
  { intros t' ->. apply list_eq. intros i. rewrite list_lookup_alter.
    destruct (decide (j = i)) as [<-|].
    - rewrite list_lookup_insert_eq by (by eapply lookup_lt_Some). by rewrite Et.
    - by rewrite list_lookup_insert_ne. }
  destruct t as [cachedData| |scrapedData|record|]; simpl.
  - destruct (truthy cachedData) eqn:Etr.
    + destruct (parse _) eqn:Ep; simpl; apply Halter; simpl; by rewrite Etr, Ep.
    + simpl. apply Halter. simpl. by rewrite Etr.
  - destruct (scrapeWebsite _) eqn:Es; simpl; apply Halter; simpl; by rewrite Es.
  - by apply Halter.
  - symmetry. rewrite <- (Halter (Fulfilled record)) by done. by apply list_insert_id.
  - symmetry. rewrite <- (Halter Rejected) by done. by apply list_insert_id.
Qed.

Lemma length_tasks_resume cs w j :
  length (tasks (resume cs w j)) = length (tasks w).
Proof.
  unfold Route.resume. destruct (cs !! j); [|done].
  destruct (tasks w !! j) as [[]|]; try done; simpl;
    repeat (destruct (truthy _) || destruct (parse _) || destruct (scrapeWebsite _));
    simpl; by rewrite ?length_insert.
Qed.

Lemma tasks_run_from cs schedule w (i : nat) :
  length cs = length (tasks w) →
  tasks (fold_left (resume cs) schedule w) !! i =
    match cs !! i with
    | Some c => Nat.iter (count_occ Nat.eq_dec schedule i) (advance c) <$> tasks w !! i
    | None => tasks w !! i
    end.
Proof.
  revert w. induction schedule as [|j schedule IH]; intros w Hlen.
  - simpl. destruct (cs !! i); [|done]. by destruct (tasks w !! i).
  - cbn [fold_left]. rewrite IH by (by rewrite length_tasks_resume).
    rewrite tasks_resume by done. cbn [count_occ].
    destruct (cs !! i) as [c|] eqn:Ec.
    + destruct (Nat.eq_dec j i) as [->|Hne].
      * rewrite Ec, list_lookup_alter_eq. destruct (tasks w !! i); [|done].
        cbn [fmap option_fmap option_map]. f_equal. symmetry. apply Nat.iter_succ_r.
      * destruct (cs !! j); [|done]. by rewrite list_lookup_alter_ne.
    + destruct (cs !! j) eqn:Ej; [|done].
      rewrite list_lookup_alter_ne; [done|]. intros ->. congruence.
Qed.

Lemma tasks_run cs store schedule (i : nat) c :
  cs !! i = Some c →
  tasks (fold_left (resume cs) schedule (fannedOut store cs)) !! i =
    Some (Nat.iter (count_occ Nat.eq_dec schedule i) (advance c)
            (AwaitCache (store !! cacheKey c))).
Proof.
  intros Hc. rewrite tasks_run_from, Hc.
  - rewrite fannedOut_eq. simpl. by rewrite list_lookup_fmap, Hc.
  - rewrite fannedOut_eq. simpl. by rewrite length_fmap.
Qed.

Lemma iter_advance_settled c n t :
  stage t = 3%nat → Nat.iter n (advance c) t = t.
Proof.
  intros Ht. induction n as [|n IH]; [done|]. simpl. rewrite IH. by destruct t.
Qed.

Lemma advance_not_awaiting c t v : advance c t ≠ AwaitCache v.
Proof.
  destruct t as [cachedData| | | |]; simpl; try done.
  - destruct (truthy cachedData); [by destruct (parse _)|done].
  - by destruct (scrapeWebsite _).
Qed.

(** The callback of a cached competitor once the reply of the cache has
    reached it. *)
Lemma iter_advance_hit store c n :
  hit store c →
  Nat.iter (S n) (advance c) (AwaitCache (store !! cacheKey c)) = decoded parse store c.
Proof.
  intros Hhit. rewrite Nat.iter_succ_r. simpl. unfold hit in Hhit. rewrite Hhit.
  unfold decoded. destruct (parse _); by apply iter_advance_settled.
Qed.

Lemma readOrder_snoc schedule (i : nat) :
  readOrder (schedule ++ [i]) =
    readOrder schedule ++ (if decide (i ∈ schedule) then [] else [i]).
Proof.
  induction schedule as [|j schedule IH]; cbn [readOrder app].
  - rewrite decide_False by (by intros ?%elem_of_nil). done.
  - rewrite IH, filter_app, app_comm_cons. f_equal.
    destruct (decide (i = j)) as [->|Hne].
    + rewrite (decide_True (P := j ∈ j :: schedule)) by left.
      destruct (decide (j ∈ schedule)); [done|].
      by rewrite filter_cons_False by (intros H; by apply H).
    + destruct (decide (i ∈ schedule)) as [Hin|Hin].
      * by rewrite decide_True by (by right).
      * rewrite decide_False by (by intros [?|?]%elem_of_cons).
        by rewrite filter_cons_True.
Qed.

Lemma elem_of_readOrder schedule (i : nat) : i ∈ readOrder schedule ↔ i ∈ schedule.
Proof.
  induction schedule as [|j schedule IH]; cbn [readOrder]; [done|].
  rewrite !elem_of_cons, list_elem_of_filter, IH.
  split; [intros [?|[_ ?]]; auto|]. intros [->|?]; [by left|].
  destruct (decide (i = j)); [by left|by right].
Qed.

(** What a completion pushes on the stream. *)
Lemma progress_resume cs w (i : nat) :
  progress (resume cs w i) =
    progress w ++
    match cs !! i, tasks w !! i with
    | Some c, Some (AwaitCache cachedData) =>
        if truthy cachedData then [cachedMessage c] else []
    | _, _ => []
    end.
Proof.
  unfold Route.resume. destruct (cs !! i) as [c|]; [|by rewrite app_nil_r].
  destruct (tasks w !! i) as [[cachedData| |scrapedData|record|]|];
    try (by rewrite app_nil_r).
  - destruct (truthy cachedData); [by destruct (parse _)|simpl; by rewrite app_nil_r].
  - destruct (scrapeWebsite _); simpl; by rewrite app_nil_r.
Qed.

(** The stream of a run: the start event, the per-competitor events, and
    the cache notices in the order in which the cache reads complete. *)
Lemma run_progress store cs schedule :
  progress (fold_left (resume cs) schedule (fannedOut store cs)) =
    "Starting report generation..." :: analyzingMessages cs ++
    noticesInOrder store cs schedule.
Proof.
  induction schedule as [|i schedule IH] using rev_ind.
  - rewrite fannedOut_eq. simpl. by rewrite app_nil_r.
  - rewrite fold_left_app. cbn [fold_left]. rewrite progress_resume, IH.
    unfold noticesInOrder. rewrite readOrder_snoc, omap_app.
    cbn [app]. rewrite <- app_assoc. do 3 f_equal.
    destruct (cs !! i) as [c|] eqn:Ec.
    + rewrite (tasks_run _ _ _ _ _ Ec).
      destruct (decide (i ∈ schedule)) as [Hin|Hin].
      * apply list_elem_of_In, (count_occ_In Nat.eq_dec) in Hin.
        destruct (count_occ Nat.eq_dec schedule i) as [|n]; [lia|]. simpl.
        by destruct (advance c _) eqn:E; [apply advance_not_awaiting in E|..].
      * rewrite (proj1 (count_occ_not_In Nat.eq_dec _ _)) by (by rewrite <- list_elem_of_In).
        cbn [Nat.iter nat_rect omap list_omap]. unfold noticeAt. rewrite Ec.
        by destruct (truthy _).
    + destruct (decide (i ∈ schedule)); [done|].
      cbn [omap list_omap]. unfold noticeAt. by rewrite Ec.
Qed.

End Environment.

End RouteFacts.

(** ** The route against its description *)

Module RouteSpec.
Import Js Obs ObsRoute JsFacts Pdf Layout Route RouteFacts.

#[local] Arguments String.append _ _ : simpl nomatch.

Section Environment.

Context (page_height : Z) (lineHeight : Z → Z) (wrap : Z → string → list bool)
        (halfLine : Z → Z).
Context (headOnce : bool).
Context (scrapeWebsite : string → option ScrapedData).
Context (parse : string → option ScrapedData) (stringify : ScrapedData → string).
Context (generateAIAnalysis : list ScrapedData → list string → string → option string).

Local Abbreviation handler :=
  (handler page_height lineHeight wrap halfLine headOnce scrapeWebsite parse stringify
           generateAIAnalysis).
Local Abbreviation generatePDF := (generatePDF page_height lineHeight wrap halfLine).
Local Abbreviation resume := (resume scrapeWebsite parse stringify).
Local Abbreviation run cs store schedule :=
  (fold_left (resume cs) schedule (fannedOut store cs)).

(** The route for a POST request, seen from the state reached when the
    schedule is exhausted. *)
Lemma handler_world fuel body store schedule :
  let w := run (competitors body) store schedule in
  let r := handler fuel (mkRequest "POST" body) store schedule in
  ∃ suffix,
    progress r.1 = progress w ++ suffix ∧
    suffix `prefix_of` closingMessages ∧
    (∀ pdf, r.2 = Report pdf →
       suffix = closingMessages ∧ headOnce = false ∧
       ∃ ds analysisResult,
         promiseAll (tasks w) = AllFulfilled ds ∧
         generateAIAnalysis ds (reportSections body) (reportFormat body)
           = Some analysisResult ∧
         generatePDF fuel analysisResult (reportSections body) (reportFormat body)
           = Resolved pdf) ∧
    eventStream r.1 = eventStream w ∧ adapterCalls r.1 = adapterCalls w ∧
    cacheWrites r.1 = cacheWrites w ∧ cache r.1 = cache w ∧ tasks r.1 = tasks w.
Proof.
  intros w r.
  assert (Hopen : eventStream w = true).
  { by destruct (run_Inv scrapeWebsite parse stringify store (competitors body) schedule _
                   (fannedOut_Inv parse store (competitors body))) as [_ _ _ _ _ [? _]]. }
  subst r. unfold Route.handler. cbn [method Route.body].
  rewrite bool_decide_eq_true_2 by done. cbv zeta.
  change (writeHead headOnce (initial store))
    with (Some (openEventStream (initial store))). cbv beta iota.
  change (forEach _ _ _) with (fannedOut store (competitors body)). fold w.
  destruct (promiseAll (tasks w)) as [ds| |] eqn:E; cbv beta iota.
  - destruct (generateAIAnalysis ds _ _) as [analysisResult|] eqn:Ea; cbv beta iota.
    + destruct (generatePDF _ analysisResult _ _) as [pdf| |] eqn:Eg; cbv beta iota.
      * unfold writeHead. cbn [eventStream endStream sendProgress]. rewrite Hopen.
        destruct headOnce; simpl.
        -- exists closingMessages. rewrite <- !app_assoc. split_and!; try done.
        -- exists closingMessages. rewrite <- !app_assoc. split_and!; try done.
           intros pdf' [= <-]. split_and!; [done..|]. by exists ds, analysisResult.
      * simpl. exists ["Generating AI analysis..."; "Creating PDF report..."].
        rewrite <- !app_assoc. split_and!; try done. by eexists [_].
      * simpl. exists ["Generating AI analysis..."; "Creating PDF report..."].
        rewrite <- !app_assoc. split_and!; try done. by eexists [_].
    + simpl. exists ["Generating AI analysis..."]. split_and!; try done. by eexists [_; _].
  - simpl. exists []. rewrite app_nil_r. split_and!; try done. by eexists.
  - simpl. exists []. rewrite app_nil_r. split_and!; try done. by eexists.
Qed.

Lemma closing_not_analyzing suffix :
  suffix `prefix_of` closingMessages → Forall (λ m, ¬ is_analyzing m) suffix.
Proof.
  intros [k Hk].
  assert (H : Forall (λ m, ¬ is_analyzing m) closingMessages) by (by repeat constructor).
  rewrite Hk in H. by apply Forall_app in H as [H _].
Qed.

(** The progress of a request that ends with the report. *)
Lemma report_progress fuel body store schedule pdf :
  let r := handler fuel (mkRequest "POST" body) store schedule in
  r.2 = Report pdf →
  progress r.1 = ["Starting report generation..."] ++ analyzingMessages (competitors body)
                   ++ noticesInOrder store (competitors body) schedule
                   ++ closingMessages ∧
  noticesInOrder store (competitors body) schedule
    ≡ₚ cachedMessage <$> hits store (competitors body).
Proof.
  intros r Hr.
  destruct (handler_world fuel body store schedule)
    as (suffix & Hp & _ & Hrep & _). fold r in Hp, Hrep.
  destruct (Hrep pdf Hr) as (-> & _ & ds & _ & Hds & _).
  destruct (run_Inv scrapeWebsite parse stringify store (competitors body) schedule _
              (fannedOut_Inv parse store (competitors body)))
    as [HF (extra & Hq & He) _ _ _ _].
  pose proof (run_progress scrapeWebsite parse stringify store (competitors body) schedule)
    as Hrun.
  rewrite Hrun in Hq. injection Hq as Hq. apply app_inv_head in Hq. subst extra.
  rewrite Hp, Hrun. split; [by rewrite <- app_comm_cons, <- app_assoc|].
  rewrite He. erewrite notices_fulfilled; [done|by apply promiseAll_fulfilled|].
  by apply Forall2_length in HF.
Qed.

(** C2, as the code has it.  A request is answered with the report when
    no outside call fails, every completion is delivered, the layout
    returns a document and the response lets the second head pass.  A
    request answered with the report has emitted N + 4 + H progress
    events, N the number of competitors and H the number of them found in
    the cache: the start event, the N per-competitor events in list order,
    the H cache notices in the order in which the cache reads completed,
    then the analysis, document and completion events.  The count is the
    same for every completion order; it depends on the cache. *)
Theorem progress_of_successful_request fuel body store schedule :
  let r := handler fuel (mkRequest "POST" body) store schedule in
  (cooperative scrapeWebsite parse store (competitors body) →
   complete schedule (length (competitors body)) →
   (∀ ds, ∃ analysisResult pdf,
      generateAIAnalysis ds (reportSections body) (reportFormat body)
        = Some analysisResult ∧
      generatePDF fuel analysisResult (reportSections body) (reportFormat body)
        = Resolved pdf) →
   headOnce = false →
   ∃ pdf, r.2 = Report pdf) ∧
  (∀ pdf, r.2 = Report pdf →
     progress r.1 =
       ["Starting report generation..."] ++ analyzingMessages (competitors body) ++
       noticesInOrder store (competitors body) schedule ++
       ["Generating AI analysis..."; "Creating PDF report...";
        "Report generation complete!"] ∧
     noticesInOrder store (competitors body) schedule
       ≡ₚ cachedMessage <$> hits store (competitors body) ∧
     length (progress r.1) =
       (length (competitors body) + 4 + length (hits store (competitors body)))%nat).
Proof.
  intros r. split.
  - intros Hco Hcomplete Hlayout ->.
    subst r. unfold Route.handler. cbn [method Route.body].
    rewrite bool_decide_eq_true_2 by done. cbv zeta.
    change (writeHead false (initial store))
      with (Some (openEventStream (initial store))). cbv beta iota.
    change (forEach _ _ _) with (fannedOut store (competitors body)).
    destruct (run_fulfils scrapeWebsite parse stringify store (competitors body)
                schedule Hco Hcomplete) as [ds ->]. cbv beta iota.
    destruct (Hlayout ds) as (analysisResult & pdf & -> & ->). cbv beta iota.
    exists pdf. unfold writeHead. by rewrite andb_false_r.
  - intros pdf Hrep.
    destruct (report_progress fuel body store schedule pdf Hrep) as (Hp & Hc).
    fold r in Hp. split_and!; [done..|].
    rewrite Hp, !length_app, Hc, length_fmap. unfold analyzingMessages.
    rewrite length_imap. simpl. lia.
Qed.

(** C3, as the code has it.  The route checks the method only.  A
    request that is not a POST is answered 405 with the Allow header
    POST, before the event stream is opened and with no progress event.
    Every POST request, whatever its competitor list and format, has the
    event stream opened and the start event emitted first. *)
Theorem only_the_method_is_checked fuel req store schedule :
  (method req ≠ "POST" →
     handler fuel req store schedule =
       (initial store,
        MethodNotAllowed ["POST"] ("Method " +:+ method req +:+ " Not Allowed")) ∧
     rejected4xx (handler fuel req store schedule).2 ∧
     eventStream (handler fuel req store schedule).1 = false ∧
     progress (handler fuel req store schedule).1 = []) ∧
  (method req = "POST" →
     eventStream (handler fuel req store schedule).1 = true ∧
     ∃ later, progress (handler fuel req store schedule).1 =
                "Starting report generation..." :: later).
Proof.
  split.
  - intros Hm. unfold Route.handler. by rewrite bool_decide_eq_false_2.
  - intros Hm. destruct req as [m body]. simpl in Hm. subst m.
    destruct (handler_world fuel body store schedule)
      as (suffix & Hp & _ & _ & Hs & _).
    destruct (run_Inv scrapeWebsite parse stringify store (competitors body) schedule _
                (fannedOut_Inv parse store (competitors body)))
      as [_ (extra & Hq & _) _ _ _ [Hopen _]].
    rewrite Hs, Hp, Hq. split; [done|]. by eexists.
Qed.

(** C7.  For a competitor with a usable cache entry, in every run of the
    route: the adapter is never called for its site, and the cache entry
    of its key is never written and keeps its value.  Its callback waits
    for the reply of the cache and nothing else: as soon as that one
    completion has been delivered the notice is on the stream and the
    callback has settled with the decoded entry (or is rejected, when the
    entry does not decode), and that record is the one given to the
    analysis when the fan-out is fulfilled. *)
Theorem cache_hit_short_circuits fuel body store schedule competitor :
  hit store competitor →
  let w := (handler fuel (mkRequest "POST" body) store schedule).1 in
  (siteUrl competitor ∉ adapterCalls w) ∧
  (∀ value ttl, (cacheKey competitor, value, ttl) ∉ cacheWrites w) ∧
  cache w !! cacheKey competitor = store !! cacheKey competitor ∧
  (∀ i : nat, competitors body !! i = Some competitor →
     tasks w !! i =
       Some (if decide (i ∈ schedule)
             then decoded parse store competitor
             else AwaitCache (store !! cacheKey competitor)) ∧
     (i ∈ schedule → cachedMessage competitor ∈ progress w) ∧
     ∀ ds, promiseAll (tasks w) = AllFulfilled ds →
           ds !! i = parse (default "" (store !! cacheKey competitor))).
Proof.
  intros Hhit w.
  destruct (handler_world fuel body store schedule)
    as (suffix & Hprogress & _ & _ & _ & Hcalls & Hwrites & Hcache & Htasks).
  fold w in Hprogress, Hcalls, Hwrites, Hcache, Htasks.
  destruct (run_Inv scrapeWebsite parse stringify store (competitors body) schedule _
              (fannedOut_Inv parse store (competitors body)))
    as [HF _ Hc Hw Hk _].
  rewrite <- Hcalls in Hc. rewrite <- Hwrites in Hw. rewrite <- Hcache in Hk.
  rewrite <- Htasks in HF. clear Hcalls Hwrites Hcache.
  split_and!.
  - intros Hin. eapply Forall_forall in Hc as (c & _ & Hmiss & Hurl); [|done].
    apply siteUrl_inj in Hurl as <-. done.
  - intros value ttl Hin. eapply Forall_forall in Hw as (c & _ & Hmiss & Hkey); [|done].
    simpl in Hkey. apply cacheKey_inj in Hkey as <-. done.
  - by apply Hk.
  - intros i Hi.
    assert (Ht : tasks w !! i =
              Some (if decide (i ∈ schedule)
                    then decoded parse store competitor
                    else AwaitCache (store !! cacheKey competitor))).
    { rewrite Htasks, (tasks_run scrapeWebsite parse stringify _ _ _ _ _ Hi). f_equal.
      destruct (decide (i ∈ schedule)) as [Hin|Hin].
      - apply list_elem_of_In, (count_occ_In Nat.eq_dec) in Hin.
        destruct (count_occ Nat.eq_dec schedule i) as [|n]; [lia|].
        by apply iter_advance_hit.
      - by rewrite (proj1 (count_occ_not_In Nat.eq_dec _ _))
          by (by rewrite <- list_elem_of_In). }
    split_and!; [done| |].
    + intros Hin. rewrite Hprogress, run_progress. apply elem_of_app. left.
      apply elem_of_cons. right. apply elem_of_app. right.
      unfold noticesInOrder. apply list_elem_of_omap. exists i.
      split; [by apply elem_of_readOrder|]. unfold noticeAt. rewrite Hi.
      unfold hit in Hhit. by rewrite Hhit.
    + intros ds Hds. apply promiseAll_fulfilled in Hds.
      destruct (Forall2_lookup_l _ _ _ _ _ Hds Ht) as (d & Hd & Heq).
      rewrite Hd. destruct (decide (i ∈ schedule)); [|done].
      unfold decoded in Heq. destruct (parse _); [|done]. by injection Heq as ->.
Qed.

(** C8.  In every run of the route, whatever the order of the
    completions, the cache content and the outside world, the messages
    pushed start with the start event followed by the per-competitor
    messages of all competitors in list order, and no later message is a
    per-competitor message.  These messages are already pushed when the
    synchronous pass over the list ends: at that moment every callback
    is suspended at its cache read and no site has been requested. *)
Theorem analyzing_events_in_list_order fuel body store schedule :
  (∃ later,
     progress (handler fuel (mkRequest "POST" body) store schedule).1 =
       "Starting report generation..." ::
       imap (λ index _, analyzingMessage index (length (competitors body)))
            (competitors body) ++ later ∧
     Forall (λ m, ¬ is_analyzing m) later) ∧
  progress (fannedOut store (competitors body)) =
    "Starting report generation..." ::
    imap (λ index _, analyzingMessage index (length (competitors body)))
         (competitors body) ∧
  adapterCalls (fannedOut store (competitors body)) = [] ∧
  tasks (fannedOut store (competitors body)) =
    (λ c, AwaitCache (store !! cacheKey c)) <$> competitors body.
Proof.
  split; [|by rewrite fannedOut_eq].
  destruct (handler_world fuel body store schedule) as (suffix & Hp & Hsuf & _).
  destruct (run_Inv scrapeWebsite parse stringify store (competitors body) schedule _
              (fannedOut_Inv parse store (competitors body)))
    as [_ (extra & Hq & He) _ _ _ _].
  exists (extra ++ suffix). rewrite Hp, Hq.
  split; [by rewrite <- app_comm_cons, <- app_assoc|].
  apply Forall_app. split; [|by apply closing_not_analyzing].
  rewrite He. apply Forall_forall. intros m [c ->]%notices_cached.
  apply cachedMessage_not_analyzing.
Qed.


End Environment.

(** *** Worked instances *)

(** C2, as stated, on the end-to-end scenario: one competitor, an empty
    cache, every call succeeding.  The route emits five events, not
    1 + 3. *)
Lemma one_competitor_five_events :
  let r := sample_handler acme_request ∅ [0; 0; 0]%nat in
  (∃ pdf, r.2 = Report pdf) ∧
  progress r.1 = ["Starting report generation..."; "Analyzing competitor 1 of 1...";
                  "Generating AI analysis..."; "Creating PDF report...";
                  "Report generation complete!"] ∧
  length (progress r.1) ≠ (length (competitors (body acme_request)) + 3)%nat.
Proof. vm_compute. split_and!; [by eexists|done|lia]. Qed.

(** C3, as stated, on a POST request with no competitor and the format
    xml: it is not rejected; the stream is opened, four events are
    emitted and a report is delivered. *)
Lemma invalid_request_is_served :
  let req := mkRequest "POST" (mkBody [] ["Market Overview"] "xml") in
  let r := sample_handler req ∅ [] in
  ¬ (competitors (body req) = [] ∨ ¬ recognisedFormat (reportFormat (body req)) →
     rejected4xx r.2 ∧ eventStream r.1 = false ∧ progress r.1 = []).
Proof.
  intros req r H. destruct H as (H & _); [by left|].
  vm_compute in H. exact H.
Qed.

Lemma progress_of_successful_request_witness :
  (∃ pdf, (sample_handler (mkRequest "POST" two_competitors) globex_cached
                          [0; 1; 0; 1; 0; 1]%nat).2 = Report pdf) ∧
  progress (sample_handler (mkRequest "POST" two_competitors) globex_cached
                           [0; 1; 0; 1; 0; 1]%nat).1 =
    ["Starting report generation..."] ++ analyzingMessages (competitors two_competitors) ++
    noticesInOrder globex_cached (competitors two_competitors) [0; 1; 0; 1; 0; 1]%nat ++
    ["Generating AI analysis..."; "Creating PDF report..."; "Report generation complete!"].
Proof.
  destruct (progress_of_successful_request sample_height sample_lineHeight sample_wrap
              sample_halfLine false sample_scrape sample_parse sample_stringify
              sample_analysis 20 two_competitors globex_cached [0; 1; 0; 1; 0; 1]%nat)
    as [Hreport Hprogress].
  assert (Hrep : ∃ pdf, (sample_handler (mkRequest "POST" two_competitors) globex_cached
                                        [0; 1; 0; 1; 0; 1]%nat).2 = Report pdf).
  { apply Hreport.
    - intros c _. destruct (truthy _); by eexists.
    - intros i Hi. destruct i as [|[|i]]; simpl in Hi; [vm_compute; lia..|lia].
    - intros ds. eexists _, _. split; [reflexivity|]. vm_compute. reflexivity.
    - reflexivity. }
  split; [exact Hrep|]. destruct Hrep as [pdf Hrep].
  exact (proj1 (Hprogress pdf Hrep)).
Defined.

Lemma only_the_method_is_checked_witness :
  sample_handler (mkRequest "GET" two_competitors) ∅ [] =
    (initial ∅, MethodNotAllowed ["POST"] "Method GET Not Allowed").
Proof.
  apply (only_the_method_is_checked sample_height sample_lineHeight sample_wrap
           sample_halfLine false sample_scrape sample_parse sample_stringify
           sample_analysis 20 (mkRequest "GET" two_competitors) ∅ []).
  simpl. discriminate.
Defined.

Lemma cache_hit_short_circuits_witness :
  let w := (sample_handler (mkRequest "POST" two_competitors) globex_cached
                           [1; 0]%nat).1 in
  (siteUrl "globex" ∉ adapterCalls w) ∧
  cache w !! cacheKey "globex" = globex_cached !! cacheKey "globex" ∧
  tasks w !! 1%nat = Some (decoded sample_parse globex_cached "globex") ∧
  cachedMessage "globex" ∈ progress w.
Proof.
  intros w.
  destruct (cache_hit_short_circuits sample_height sample_lineHeight sample_wrap
              sample_halfLine false sample_scrape sample_parse sample_stringify
              sample_analysis 20 two_competitors globex_cached [1; 0]%nat "globex")
    as (Hcalls & _ & Hcache & Htask); [vm_compute; reflexivity|].
  destruct (Htask 1%nat) as (Ht & Hnotice & _); [reflexivity|].
  split_and!; [exact Hcalls|exact Hcache|exact Ht|].
  apply Hnotice. left.
Defined.


End RouteSpec.


(** ** More on the layout pass *)

Module LayoutMore.
Import Js Obs ObsLayout JsFacts Pdf Layout LayoutFacts.

#[local] Arguments String.append _ _ : simpl nomatch.

Lemma join_cons sep x y (l : list string) :
  String.concat sep (x :: y :: l) = x +:+ sep +:+ String.concat sep (y :: l).
Proof. done. Qed.

Lemma split_lines_join s : String.concat (String newline "") (split_lines s) = s.
Proof.
  induction s as [|c s IH]; [done|]. cbn [split_lines].
  pose proof (split_lines_length s) as Hlen.
  destruct (split_lines s) as [|l ls] eqn:E; [simpl in Hlen; lia|].
  destruct (Ascii.eqb_spec c newline) as [->|Hc].
  - rewrite join_cons, IH. done.
  - destruct ls as [|l' ls]; [simpl in *; by rewrite <- IH|].
    rewrite join_cons in *. rewrite <- IH. done.
Qed.

Lemma findIndex_lt {A} (p : A → bool) l : findIndex p l < Z.of_nat (length l) ∨ l = [].
Proof.
  induction l as [|x l IH]; [by right|]. left. simpl.
  destruct (p x); [lia|]. destruct (Z.ltb_spec (findIndex p l) 0); [lia|].
  destruct IH as [IH| ->]; simpl in *; lia.
Qed.

(** When some element passes the test, [findIndex] is the index of the
    first one. *)
Lemma findIndex_found {A} (p : A → bool) l (i : nat) x :
  l !! i = Some x → p x = true →
  ∃ (j : nat) y, (j ≤ i)%nat ∧ l !! j = Some y ∧ p y = true ∧
    (∀ (k : nat) z, (k < j)%nat → l !! k = Some z → p z = false) ∧
    findIndex p l = Z.of_nat j.
Proof.
  revert i. induction l as [|a l IH]; intros i Hi Hp; [done|].
  destruct (p a) eqn:Ea.
  - exists 0%nat, a. simpl. rewrite Ea. split_and!; try done; [lia|]. intros; lia.
  - destruct i as [|i]; simpl in Hi; [congruence|].
    destruct (IH i Hi Hp) as (j & y & Hj & Hy & Hpy & Hfirst & Hf).
    exists (S j), y. simpl. rewrite Ea, Hf.
    destruct (Z.ltb_spec (Z.of_nat j) 0); [lia|].
    split_and!; try done; [lia| |lia].
    intros [|k] z Hk Hz; simpl in Hz; [congruence|]. apply (Hfirst k); [lia|done].
Qed.

Lemma filter_unplaced (l : list TextItem) :
  Forall (λ it, item_at it = None) l → filter (λ it, ¬ placed it) l = l.
Proof.
  induction 1 as [|it l Hit _ IH]; [done|].
  rewrite filter_cons_True; [by rewrite IH|]. unfold placed. rewrite Hit. by intros [? ?].
Qed.

Section Metrics.

Context (page_height : Z) (lineHeight : Z → Z) (wrap : Z → string → list bool)
        (halfLine : Z → Z).

Local Abbreviation ensureSpace := (ensureSpace page_height).
Local Abbreviation written := (written page_height lineHeight wrap halfLine).
Local Abbreviation generatePDF := (generatePDF page_height lineHeight wrap halfLine).

(** X1.  [ensureSpace]: when a fresh page has room for the needed space,
    the cursor has that room afterwards; the pages written so far are
    kept, and at most one blank page is added, which becomes current. *)
Theorem ensureSpace_makes_room neededSpace doc :
  margin + neededSpace ≤ page_height - 50 →
  doc_y (ensureSpace neededSpace doc) + neededSpace ≤ page_height - 50 ∧
  (ensureSpace neededSpace doc = doc ∨
   pages (ensureSpace neededSpace doc) = pages doc ++ [[]] ∧
   page (ensureSpace neededSpace doc) = length (pages doc) ∧
   doc_y (ensureSpace neededSpace doc) = margin).
Proof.
  intros Hfit. unfold Layout.ensureSpace.
  destruct (Z.gtb_spec (doc_y doc + neededSpace) (page_height - 50)); simpl.
  - split; [done|]. by right.
  - split; [lia|]. by left.
Qed.

(** X2.  Every line of the analysis is drawn by exactly one call, in
    order: after the content pass the calls of the document, in page
    order, are the title, the table of contents when there is one, and
    then one call per line of the text, for a header item or a body item.
    A document that [generatePDF] returns has these calls and, apart from
    them, the page number only. *)
Theorem lines_are_drawn_once_in_order analysisResult sections format :
  items (written analysisResult sections format) =
    frontMatter sections format ++
    (lineItem sections format <$> split_lines analysisResult) ∧
  ∀ fuel doc,
    generatePDF fuel analysisResult sections format = Resolved doc →
    runningText doc =
      frontMatter sections format ++
      (lineItem sections format <$> split_lines analysisResult).
Proof.
  split; [apply written_items|].
  intros fuel doc (_ & _ & _ & Hi)%generatePDF_resolved.
  unfold runningText. rewrite Hi, app_assoc, filter_app.
  rewrite filter_cons_False by (intros H; apply H; by eexists).
  rewrite filter_nil, app_nil_r. apply filter_unplaced, Forall_app.
  split; [apply frontMatter_unplaced|apply lineItems_unplaced].
Qed.

(** X3.  For a format other than presentation no character of the
    analysis is lost or changed by the content pass: the texts of the
    calls made after the front matter, joined by newlines, are the
    analysis text. *)
Theorem layout_keeps_the_text analysisResult sections format :
  format ≠ "presentation" →
  ∃ lines,
    items (written analysisResult sections format) =
      frontMatter sections format ++ lines ∧
    String.concat (String newline "") (item_text <$> lines) = analysisResult.
Proof.
  intros Hf.
  exists (lineItem sections format <$> split_lines analysisResult).
  split; [apply written_items|].
  rewrite <- list_fmap_compose.
  transitivity (String.concat (String newline "") (split_lines analysisResult));
    [|apply split_lines_join].
  f_equal. apply list_eq. intros i. rewrite list_lookup_fmap.
  destruct (split_lines analysisResult !! i) as [line|]; [|done]. simpl.
  unfold lineItem, headerItem, bodyItem. rewrite bool_decide_eq_false_2 by done.
  by destruct (isHeader sections line).
Qed.

(** X6.  A report whose format is not detailed is never padded, so the
    fuel does not matter: [generatePDF] returns exactly when the content
    pass stayed on the first page, and throws as soon as the content pass
    opened a second page, the first one having left the buffer.  With
    lines of positive height a returned document has at least two pages,
    the second one opened by the page number. *)
Theorem page_count_without_padding fuel analysisResult sections format :
  format ≠ "detailed" →
  match generatePDF fuel analysisResult sections format with
  | Resolved doc =>
      length (pages (written analysisResult sections format)) = 1%nat ∧
      (1 ≤ length (pages doc))%nat ∧
      (0 < lineHeight 10 → (2 ≤ length (pages doc))%nat)
  | Threw => (1 < length (pages (written analysisResult sections format)))%nat
  | Unfinished => False
  end.
Proof.
  intros Hf. rewrite generatePDF_other by done.
  destruct (written_items page_height lineHeight wrap halfLine
              analysisResult sections format) as [Hc _].
  destruct (decide _) as [H1|H1].
  - split_and!; [done| |].
    + destruct (extends_stamped page_height lineHeight wrap 1 _ Hc) as (_ & _ & Hn). lia.
    + intros Hlh.
      destruct (pages_stamped page_height lineHeight wrap 1 _ Hc Hlh) as [k ->].
      rewrite length_app. simpl. lia.
  - destruct Hc as [Hp _]. lia.
Qed.

(** X7.  With an empty list of requested sections no call carries an
    anchor or a link, whatever the text and the format: none after the
    content pass, and none in a document that [generatePDF] returns. *)
Theorem no_sections_no_anchors analysisResult format :
  (∀ it, it ∈ items (written analysisResult [] format) →
     destination (item_opts it) = None ∧ link (item_opts it) = None) ∧
  (∀ fuel doc it,
     generatePDF fuel analysisResult [] format = Resolved doc →
     it ∈ items doc →
     destination (item_opts it) = None ∧ link (item_opts it) = None).
Proof.
  assert (Hcontent : ∀ it,
            it ∈ frontMatter [] format ++
                 (lineItem [] format <$> split_lines analysisResult) →
            destination (item_opts it) = None ∧ link (item_opts it) = None).
  { intros it [Hin|Hin]%elem_of_app.
    - unfold frontMatter in Hin. destruct (bool_decide _); simpl in Hin;
        repeat (apply elem_of_cons in Hin as [->|Hin]; [done|]);
        by apply elem_of_nil in Hin.
    - apply list_elem_of_fmap in Hin as (line & -> & _).
      unfold lineItem, bodyItem. simpl. by destruct (bool_decide _). }
  split.
  - intros it Hit. apply Hcontent.
    by rewrite <- (proj2 (written_items page_height lineHeight wrap halfLine
                           analysisResult [] format)).
  - intros fuel doc it (_ & _ & _ & Hi)%generatePDF_resolved Hit.
    rewrite Hi, app_assoc in Hit. apply elem_of_app in Hit as [Hit|Hit].
    + by apply Hcontent.
    + by apply list_elem_of_singleton in Hit as ->.
Qed.

End Metrics.

(** X4.  The destination of a header line is always one of section0 to
    sectionK, K being the number of requested sections. *)
Theorem header_destination_in_range sections line :
  ∃ k, 0 ≤ k ≤ Z.of_nat (length sections) ∧
       headerDestination sections line = "section" +:+ pretty k.
Proof.
  exists (findIndex (λ s, includes s line) sections + 1). split; [|done].
  pose proof (findIndex_ge (λ s, includes s line) sections).
  destruct (findIndex_lt (λ s, includes s line) sections) as [?| ->]; simpl; lia.
Qed.

(** X5.  A line that is exactly a requested section identifier is a header
    line, and its destination is the target of a table-of-contents link:
    that of the first entry whose identifier contains the line, which is
    the entry itself or an earlier one. *)
Theorem requested_title_line_is_linked sections (i : nat) line :
  sections !! i = Some line →
  isHeader sections line = true ∧
  ∃ (j : nat) s,
    (j ≤ i)%nat ∧ sections !! j = Some s ∧ substring_of line s ∧
    (∀ (k : nat) s', (k < j)%nat → sections !! k = Some s' → ¬ substring_of line s') ∧
    headerDestination sections line = "section" +:+ pretty (Z.of_nat j + 1) ∧
    tocLink j = "#" +:+ headerDestination sections line.
Proof.
  intros Hi.
  assert (Hself : includes line line = true).
  { apply includes_true_iff. exists "", "". simpl.
    clear. induction line as [|c l IH]; simpl; [done|]. by rewrite <- IH. }
  split.
  - apply some_true_iff. exists line. split; [by eapply list_elem_of_lookup_2|done].
  - destruct (findIndex_found (λ s, includes s line) sections i line Hi Hself)
      as (j & s & Hj & Hs & Hp & Hfirst & Hf).
    exists j, s. unfold headerDestination, tocLink. rewrite Hf.
    split_and!; try done.
    + by apply includes_true_iff.
    + intros k s' Hk Hs'. apply includes_false_iff. by eapply Hfirst.
Qed.

(** X8.  When the empty string is among the requested sections every line
    of the text, also an empty one, is drawn as a header line. *)
Theorem empty_section_makes_every_line_a_header sections format line :
  "" ∈ sections →
  isHeader sections line = true ∧
  lineItem sections format line = headerItem sections line.
Proof.
  intros Hin.
  assert (H : isHeader sections line = true).
  { apply some_true_iff. exists "". split; [done|].
    apply includes_true_iff. by exists "", line. }
  split; [done|]. unfold lineItem. by rewrite H.
Qed.

(** *** Worked instances *)

Lemma ensureSpace_makes_room_witness :
  doc_y (ensureSpace sample_height 100
           (mkDoc [[]] 0 0 700 12)) + 100 ≤ sample_height - 50.
Proof.
  apply (ensureSpace_makes_room sample_height 100 (mkDoc [[]] 0 0 700 12)).
  vm_compute. discriminate.
Defined.

Lemma lines_are_drawn_witness :
  ∃ doc,
    generatePDF sample_height sample_lineHeight sample_wrap sample_halfLine 0
      ("Market Overview" +:+ String newline "growing") ["Market Overview"] "summary"
      = Resolved doc ∧
    runningText doc =
      frontMatter ["Market Overview"] "summary" ++
      (lineItem ["Market Overview"] "summary" <$>
         split_lines ("Market Overview" +:+ String newline "growing")).
Proof.
  assert (H : ∃ doc,
            generatePDF sample_height sample_lineHeight sample_wrap sample_halfLine 0
              ("Market Overview" +:+ String newline "growing") ["Market Overview"]
              "summary" = Resolved doc).
  { vm_compute. eexists. reflexivity. }
  destruct H as [doc H]. exists doc. split; [exact H|].
  exact (proj2 (lines_are_drawn_once_in_order sample_height sample_lineHeight
                  sample_wrap sample_halfLine
                  ("Market Overview" +:+ String newline "growing")
                  ["Market Overview"] "summary") 0%nat doc H).
Defined.

Lemma layout_keeps_the_text_witness :
  ∃ lines,
    items (written sample_height sample_lineHeight sample_wrap sample_halfLine
             ("Market Overview" +:+ String newline "growing") ["Market Overview"]
             "summary") =
      frontMatter ["Market Overview"] "summary" ++ lines ∧
    String.concat (String newline "") (item_text <$> lines) =
      "Market Overview" +:+ String newline "growing".
Proof.
  apply (layout_keeps_the_text sample_height sample_lineHeight sample_wrap
           sample_halfLine
           ("Market Overview" +:+ String newline "growing") ["Market Overview"] "summary").
  discriminate.
Defined.

Lemma page_count_without_padding_witness :
  match generatePDF sample_height sample_lineHeight sample_wrap sample_halfLine 0
          "" ["Market Overview"] "summary" with
  | Resolved doc =>
      length (pages (written sample_height sample_lineHeight sample_wrap
                       sample_halfLine "" ["Market Overview"] "summary")) = 1%nat ∧
      (1 ≤ length (pages doc))%nat ∧
      (0 < sample_lineHeight 10 → (2 ≤ length (pages doc))%nat)
  | Threw =>
      (1 < length (pages (written sample_height sample_lineHeight sample_wrap
                            sample_halfLine "" ["Market Overview"] "summary")))%nat
  | Unfinished => False
  end.
Proof.
  apply (page_count_without_padding sample_height sample_lineHeight sample_wrap
           sample_halfLine 0 "" ["Market Overview"] "summary").
  discriminate.
Defined.

Lemma no_sections_witness :
  destination (item_opts (mkItem "Market Overview" 12 None plain)) = None ∧
  link (item_opts (mkItem "Market Overview" 12 None plain)) = None.
Proof.
  apply (proj1 (no_sections_no_anchors sample_height sample_lineHeight sample_wrap
                  sample_halfLine "Market Overview" "summary")).
  vm_compute. right. right. left.
Defined.

Lemma requested_title_line_witness :
  isHeader ["Market Overview"; "Market"] "Market" = true.
Proof.
  apply (requested_title_line_is_linked ["Market Overview"; "Market"] 1 "Market").
  reflexivity.
Defined.

Lemma empty_section_witness : isHeader ["Pricing"; ""] "anything" = true.
Proof.
  apply (empty_section_makes_every_line_a_header ["Pricing"; ""] "summary" "anything").
  right. left.
Defined.

End LayoutMore.


(** ** More on the route *)

Module RouteMore.
Import Js Obs ObsRoute JsFacts Pdf Layout Route RouteFacts.

#[local] Arguments String.append _ _ : simpl nomatch.

Lemma tally_insert {A} (f : string → Task → list A) cs ts (i : nat) c t t' extra :
  cs !! i = Some c → ts !! i = Some t →
  f c t' ≡ₚ f c t ++ extra →
  tally f cs (<[i:=t']> ts) ≡ₚ tally f cs ts ++ extra.
Proof.
  unfold tally. revert ts i.
  induction cs as [|c0 cs IH]; intros [|t0 ts] i Hc Ht Hn; try done.
  destruct i as [|i]; simpl in *.
  - injection Hc as ->. injection Ht as ->. rewrite Hn.
    rewrite <- !app_assoc. f_equiv. apply Permutation_app_comm.
  - rewrite (IH ts i Hc Ht Hn). by rewrite app_assoc.
Qed.

Lemma tally_same {A} (f : string → Task → list A) cs ts (i : nat) c t t' :
  cs !! i = Some c → ts !! i = Some t → f c t' = f c t →
  tally f cs (<[i:=t']> ts) ≡ₚ tally f cs ts.
Proof.
  intros Hc Ht Hf. rewrite <- (app_nil_r (tally f cs ts)).
  eapply tally_insert; [done..|]. by rewrite Hf, app_nil_r.
Qed.

Lemma promiseAll_rejected ts : Rejected ∈ ts → promiseAll ts = OneRejected.
Proof.
  induction ts as [|t ts IH]; [by intros ?%elem_of_nil|].
  intros [<-|Hin]%elem_of_cons; simpl; [done|].
  rewrite (IH Hin). by destruct t.
Qed.

Section Environment.

Context (page_height : Z) (lineHeight : Z → Z) (wrap : Z → string → list bool)
        (halfLine : Z → Z).
Context (headOnce : bool).
Context (scrapeWebsite : string → option ScrapedData).
Context (parse : string → option ScrapedData) (stringify : ScrapedData → string).
Context (generateAIAnalysis : list ScrapedData → list string → string → option string).

Local Abbreviation handler :=
  (handler page_height lineHeight wrap halfLine headOnce scrapeWebsite parse stringify
           generateAIAnalysis).
Local Abbreviation generatePDF := (generatePDF page_height lineHeight wrap halfLine).
Local Abbreviation resume := (resume scrapeWebsite parse stringify).
Local Abbreviation conclude :=
  (conclude page_height lineHeight wrap halfLine headOnce generateAIAnalysis).
Local Abbreviation advance := (advance scrapeWebsite parse).
Local Abbreviation run cs store schedule :=
  (fold_left (resume cs) schedule (fannedOut store cs)).

Lemma handler_POST fuel body store schedule :
  handler fuel (mkRequest "POST" body) store schedule =
    conclude fuel (reportSections body) (reportFormat body)
             (run (competitors body) store schedule).
Proof.
  unfold Route.handler, ObsRoute.conclude. cbn [method Route.body].
  by rewrite bool_decide_eq_true_2.
Qed.

Lemma run_open store cs schedule :
  eventStream (run cs store schedule) = true ∧
  streamEnded (run cs store schedule) = false.
Proof.
  by destruct (run_Inv scrapeWebsite parse stringify store cs schedule _
                 (fannedOut_Inv parse store cs)) as [_ _ _ _ _ ?].
Qed.

Lemma tally_awaiting {A} (f : string → Task → list A) (g : string → Task) cs :
  (∀ c, f c (g c) = []) → tally f cs (g <$> cs) = [].
Proof.
  intros Hf. unfold tally. induction cs as [|c cs IH]; [done|].
  rewrite fmap_cons. cbn [zip_with concat]. by rewrite Hf, IH.
Qed.

Lemma fannedOut_Ledger store cs :
  Ledger scrapeWebsite stringify store cs (fannedOut store cs).
Proof.
  rewrite fannedOut_eq. split; simpl; try done.
  - rewrite tally_awaiting; [done|]. intros c. unfold callsOf. by destruct (truthy _).
  - rewrite tally_awaiting; [done|]. intros c. unfold writtenKeysOf. by destruct (truthy _).
  - intros i c d Hc _. rewrite list_lookup_fmap, Hc. simpl. by intros [?|?].
Qed.

Lemma resume_Ledger store cs w j :
  Inv parse store cs w →
  Ledger scrapeWebsite stringify store cs w →
  Ledger scrapeWebsite stringify store cs (resume cs w j).
Proof.
  intros [Ht _ _ _ _ _] [Lc Lk Lw Lf Ls]. unfold Route.resume.
  destruct (cs !! j) as [c|] eqn:Ec; [|by split].
  destruct (tasks w !! j) as [t|] eqn:Et; [|by split].
  pose proof (Forall2_lookup_lr _ _ _ _ _ _ Ht Ec Et) as Hcons.
  assert (Hin : c ∈ cs) by (by eapply list_elem_of_lookup_2).
  assert (Hj : (j < length (tasks w))%nat) by (by eapply lookup_lt_Some).
  (* a callback that is neither storing nor fulfilled keeps [ledger_stored] *)
  assert (Hstored : ∀ t',
            (∀ d, t' = AwaitStore d ∨ t' = Fulfilled d →
                  ¬ hit store c →
                  ∃ d0, (t = AwaitStore d0 ∨ t = Fulfilled d0) ∧ d0 = d) →
            ∀ (i : nat) c' d, cs !! i = Some c' → ¬ hit store c' →
              <[j:=t']> (tasks w) !! i = Some (AwaitStore d) ∨
              <[j:=t']> (tasks w) !! i = Some (Fulfilled d) →
              scrapeWebsite (siteUrl c') = Some d ∧
              cache w !! cacheKey c' = Some (stringify d)).
  { intros t' Ht' i c' d Hc' Hmiss Hi. destruct (decide (j = i)) as [<-|Hne].
    - rewrite list_lookup_insert_eq in Hi by done.
      assert (c' = c) as -> by congruence.
      destruct (Ht' d) as (d0 & Hd0 & ->); [destruct Hi; [left|right]; congruence|done|].
      apply (Ls j c d Ec Hmiss). rewrite Et. destruct Hd0; [left|right]; congruence.
    - rewrite list_lookup_insert_ne in Hi by done. by apply (Ls i). }
  destruct t as [cachedData| |scrapedData|record|]; simpl in Hcons; [| | |by split..].
  - subst cachedData. destruct (truthy (store !! cacheKey c)) eqn:Ehit.
    + assert (Hhit : hit store c) by done.
      destruct (parse _) as [record|]; split; simpl; try done.
      * rewrite Lc. symmetry. eapply tally_same; [done..|]. unfold callsOf. by rewrite Ehit.
      * rewrite Lk. symmetry. eapply tally_same; [done..|]. unfold writtenKeysOf.
        by rewrite Ehit.
      * apply Hstored. intros d _ Hmiss. done.
      * rewrite Lc. symmetry. eapply tally_same; [done..|]. unfold callsOf. by rewrite Ehit.
      * rewrite Lk. symmetry. eapply tally_same; [done..|]. unfold writtenKeysOf.
        by rewrite Ehit.
      * apply Hstored. intros d [?|?]; done.
    + split; simpl; try done.
      * rewrite Lc. symmetry. eapply tally_insert; [done..|]. unfold callsOf.
        by rewrite Ehit.
      * rewrite Lk. symmetry. eapply tally_same; [done..|]. unfold writtenKeysOf.
        by rewrite Ehit.
      * apply Hstored. intros d [?|?]; done.
  - assert (Hmiss : ¬ hit store c) by (unfold hit; congruence).
    destruct (scrapeWebsite (siteUrl c)) as [scrapedData|] eqn:Es; split; simpl; try done.
    + rewrite Lc. symmetry. eapply tally_same; [done..|]. unfold callsOf. by rewrite Hcons.
    + rewrite fmap_app, Lk. simpl. symmetry. eapply tally_insert; [done..|].
      unfold writtenKeysOf. by rewrite Hcons.
    + apply Forall_app. split; [done|]. constructor; [|done]. split; [done|].
      by exists c, scrapedData.
    + intros k Hk. rewrite lookup_insert_ne; [by apply Lf|].
      intros <-. by apply (Hk c).
    + intros i c' d Hc' Hmiss' Hi. destruct (decide (j = i)) as [<-|Hne].
      * rewrite list_lookup_insert_eq in Hi by done.
        assert (c' = c) as -> by congruence.
        assert (d = scrapedData) as -> by (destruct Hi; congruence).
        by rewrite lookup_insert_eq.
      * rewrite list_lookup_insert_ne in Hi by done.
        destruct (Ls i c' d Hc' Hmiss' Hi) as [Hd Hcache]. split; [done|].
        destruct (decide (cacheKey c = cacheKey c')) as [Heq|Hneq].
        -- rewrite <- Heq, lookup_insert_eq. apply cacheKey_inj in Heq as <-. congruence.
        -- by rewrite lookup_insert_ne.
    + rewrite Lc. symmetry. eapply tally_same; [done..|]. unfold callsOf. by rewrite Hcons.
    + rewrite Lk. symmetry. eapply tally_same; [done..|]. unfold writtenKeysOf.
      by rewrite Hcons.
    + apply Hstored. intros d [?|?]; done.
  - split; simpl; try done.
    + rewrite Lc. symmetry. eapply tally_same; [done..|]. unfold callsOf. by rewrite Hcons.
    + rewrite Lk. symmetry. eapply tally_same; [done..|]. unfold writtenKeysOf.
      by rewrite Hcons.
    + apply Hstored. intros d [?|Hd] _; [done|]. injection Hd as ->.
      exists d. split; [by left|done].
Qed.

Lemma run_Ledger store cs schedule :
  Ledger scrapeWebsite stringify store cs (run cs store schedule).
Proof.
  assert (H : ∀ w, Inv parse store cs w → Ledger scrapeWebsite stringify store cs w →
              Ledger scrapeWebsite stringify store cs (fold_left (resume cs) schedule w)).
  { induction schedule as [|j schedule IH]; intros w HI HL; [done|].
    simpl. apply IH; [by apply resume_Inv|by apply resume_Ledger]. }
  apply H; [apply fannedOut_Inv|apply fannedOut_Ledger].
Qed.

(** What [conclude] leaves as it is. *)
Lemma conclude_world fuel sections format w :
  eventStream w = true →
  tasks (conclude fuel sections format w).1 = tasks w ∧
  cache (conclude fuel sections format w).1 = cache w ∧
  adapterCalls (conclude fuel sections format w).1 = adapterCalls w ∧
  cacheWrites (conclude fuel sections format w).1 = cacheWrites w ∧
  eventStream (conclude fuel sections format w).1 = eventStream w.
Proof.
  intros Hopen. unfold ObsRoute.conclude. destruct (promiseAll (tasks w)); [|done..].
  destruct (generateAIAnalysis _ _ _); [|done].
  destruct (generatePDF _ _ _ _); [|done..].
  unfold writeHead. cbn [eventStream endStream sendProgress]. rewrite Hopen.
  by destruct headOnce.
Qed.

(** The outcome is a function of the settled callbacks. *)
Lemma conclude_outcome fuel sections format w w' :
  tasks w = tasks w' → eventStream w = eventStream w' →
  (conclude fuel sections format w).2 = (conclude fuel sections format w').2.
Proof.
  unfold ObsRoute.conclude. intros -> Hopen. destruct (promiseAll (tasks w')); [|done..].
  destruct (generateAIAnalysis _ _ _); [|done].
  destruct (generatePDF _ _ _ _); [|done..].
  unfold writeHead. cbn [eventStream endStream sendProgress]. rewrite Hopen.
  by destruct (eventStream w' && headOnce).
Qed.

Lemma conclude_rejected fuel sections format w :
  Rejected ∈ tasks w → conclude fuel sections format w = (w, InternalError).
Proof. intros H. unfold ObsRoute.conclude. by rewrite promiseAll_rejected. Qed.

Lemma conclude_report fuel sections format w pdf :
  (conclude fuel sections format w).2 = Report pdf →
  ∃ ds analysisResult,
    promiseAll (tasks w) = AllFulfilled ds ∧
    generateAIAnalysis ds sections format = Some analysisResult ∧
    generatePDF fuel analysisResult sections format = Resolved pdf ∧
    progress (conclude fuel sections format w).1 = progress w ++ closingMessages ∧
    streamEnded (conclude fuel sections format w).1 = true.
Proof.
  unfold ObsRoute.conclude. destruct (promiseAll (tasks w)) as [ds| |]; [|done..].
  destruct (generateAIAnalysis _ _ _) as [analysisResult|] eqn:Ea; [|done].
  destruct (generatePDF _ _ _ _) as [pdf'| |] eqn:Eg; [|done..].
  destruct (writeHead _ _) as [w'|] eqn:Ew; [|done].
  simpl. intros [= <-]. exists ds, analysisResult.
  unfold writeHead in Ew. destruct (_ && _); [done|]. injection Ew as <-.
  simpl. by rewrite <- !app_assoc.
Qed.

(** The stream is ended when, and only when, the layout has returned: the
    completion event is then the last one pushed. *)
Lemma conclude_ended fuel sections format w :
  streamEnded w = false → eventStream w = true →
  "Report generation complete!" ∉ progress w →
  let r := conclude fuel sections format w in
  (streamEnded r.1 = true ↔ "Report generation complete!" ∈ progress r.1) ∧
  (streamEnded r.1 = true →
     ∃ ds analysisResult pdf,
       promiseAll (tasks w) = AllFulfilled ds ∧
       generateAIAnalysis ds sections format = Some analysisResult ∧
       generatePDF fuel analysisResult sections format = Resolved pdf ∧
       r.2 = if headOnce then InternalError else Report pdf).
Proof.
  intros Hw Hopen Hnot r. subst r. unfold ObsRoute.conclude.
  assert (Hstill : ∀ ms o,
            "Report generation complete!" ∉ ms →
            streamEnded w = false →
            (false = true ↔ "Report generation complete!" ∈ progress w ++ ms) ∧
            (false = true →
               ∃ ds analysisResult pdf,
                 promiseAll (tasks w) = AllFulfilled ds ∧
                 generateAIAnalysis ds sections format = Some analysisResult ∧
                 generatePDF fuel analysisResult sections format = Resolved pdf ∧
                 o = if headOnce then InternalError else Report pdf)).
  { intros ms o Hms _. split; [|done]. split; [done|].
    by intros [?|?]%elem_of_app. }
  destruct (promiseAll (tasks w)) as [ds| |] eqn:Eds.
  - destruct (generateAIAnalysis _ _ _) as [analysisResult|] eqn:Ea.
    + destruct (generatePDF _ _ _ _) as [pdf| |] eqn:Eg.
      * unfold writeHead. cbn [eventStream endStream sendProgress]. rewrite Hopen.
        destruct headOnce; simpl.
        -- split; [|intros _; by exists ds, analysisResult, pdf].
           split; [intros _|done]. rewrite !elem_of_app. right. by left.
        -- split; [|intros _; by exists ds, analysisResult, pdf].
           split; [intros _|done]. rewrite !elem_of_app. right. by left.
      * simpl. rewrite Hw, <- app_assoc. apply Hstill; [|done].
        by intros [?|?%list_elem_of_singleton]%elem_of_cons.
      * simpl. rewrite Hw, <- app_assoc. apply Hstill; [|done].
        by intros [?|?%list_elem_of_singleton]%elem_of_cons.
    + simpl. rewrite Hw. apply Hstill; [|done]. by intros ?%list_elem_of_singleton.
  - simpl. rewrite Hw, <- (app_nil_r (progress w)). apply Hstill; [|done].
    by intros ?%elem_of_nil.
  - simpl. rewrite Hw, <- (app_nil_r (progress w)). apply Hstill; [|done].
    by intros ?%elem_of_nil.
Qed.

Lemma handler_world_eq fuel body store schedule :
  let r := handler fuel (mkRequest "POST" body) store schedule in
  let w := run (competitors body) store schedule in
  tasks r.1 = tasks w ∧ cache r.1 = cache w ∧ adapterCalls r.1 = adapterCalls w ∧
  cacheWrites r.1 = cacheWrites w ∧ eventStream r.1 = eventStream w.
Proof.
  intros r w. subst r. rewrite handler_POST. apply conclude_world, run_open.
Qed.

(** No message of a run before the analysis is the completion event. *)
Lemma run_not_complete store cs schedule :
  "Report generation complete!" ∉ progress (run cs store schedule).
Proof.
  pose proof (run_Inv scrapeWebsite parse stringify store cs schedule _
                (fannedOut_Inv parse store cs)) as [_ (extra & Hp & He) _ _ _ _].
  rewrite Hp.
  intros [Hin|[Hin|Hin]%elem_of_app]%elem_of_cons; [done| |].
  - unfold analyzingMessages in Hin. apply list_elem_of_lookup in Hin as [k Hk].
    rewrite list_lookup_imap in Hk. destruct (cs !! k); [|done].
    simpl in Hk. injection Hk as Hk. unfold analyzingMessage in Hk. simpl in Hk.
    discriminate Hk.
  - rewrite He in Hin. apply notices_cached in Hin as [c Hc].
    unfold cachedMessage in Hc. simpl in Hc. discriminate Hc.
Qed.

Lemma truthy_nonempty v : v ≠ "" → truthy (Some v) = true.
Proof. by destruct v. Qed.

Lemma tally_calls_bound store cs ts :
  tally (callsOf store) cs ts ⊆+ siteUrl <$> misses store cs.
Proof.
  unfold tally, misses. revert ts. induction cs as [|c cs IH]; intros [|t ts]; simpl;
    try apply submseteq_nil_l.
  unfold callsOf, hit. destruct (truthy (store !! cacheKey c)) eqn:E.
  - rewrite filter_cons_False by (intros H; by apply H). apply IH.
  - rewrite filter_cons_True by (by rewrite E). rewrite fmap_cons.
    destruct t; simpl; try (apply submseteq_skip, IH). apply submseteq_cons, IH.
Qed.

Lemma tally_keys_bound store cs ts :
  tally (writtenKeysOf store) cs ts ⊆+ cacheKey <$> misses store cs.
Proof.
  unfold tally, misses. revert ts. induction cs as [|c cs IH]; intros [|t ts]; simpl;
    try apply submseteq_nil_l.
  unfold writtenKeysOf, hit. destruct (truthy (store !! cacheKey c)) eqn:E.
  - rewrite filter_cons_False by (intros H; by apply H). apply IH.
  - rewrite filter_cons_True by (by rewrite E). rewrite fmap_cons.
    destruct t; simpl; try (apply submseteq_skip, IH); apply submseteq_cons, IH.
Qed.

Lemma tally_fulfilled store cs ts ds :
  Forall2 (λ t d, t = Fulfilled d) ts ds → length cs = length ts →
  tally (callsOf store) cs ts = siteUrl <$> misses store cs ∧
  tally (writtenKeysOf store) cs ts = cacheKey <$> misses store cs.
Proof.
  unfold tally, misses. intros H. revert cs.
  induction H as [|t d ts ds -> _ IH]; intros [|c cs] Hlen; try done.
  simpl in Hlen. destruct (IH cs) as [IH1 IH2]; [lia|].
  cbn [zip_with concat]. rewrite IH1, IH2. unfold callsOf, writtenKeysOf, hit.
  destruct (truthy (store !! cacheKey c)) eqn:E.
  - by rewrite filter_cons_False by (intros H; by apply H).
  - by rewrite filter_cons_True by (by rewrite E).
Qed.

(** X9.  The callbacks of the competitors do not influence one another:
    the state of the callback at index i depends only on its competitor,
    on the cache as the request found it, and on the number of
    completions delivered to it, not on how the completions of different
    competitors interleave. *)
Theorem callbacks_are_independent fuel body store schedule (i : nat) c :
  competitors body !! i = Some c →
  tasks (handler fuel (mkRequest "POST" body) store schedule).1 !! i =
    Some (Nat.iter (count_occ Nat.eq_dec schedule i) (advance c)
            (AwaitCache (store !! cacheKey c))).
Proof.
  intros Hc. destruct (handler_world_eq fuel body store schedule) as (-> & _).
  by apply tasks_run.
Qed.

(** X10.  The order in which the completions arrive changes neither the
    answer of the route (the same report, the same failure or the same
    wait) nor the settled callbacks; the progress messages, the adapter
    calls and the cache keys written are the same up to their order. *)
Theorem outcome_independent_of_completion_order fuel body store schedule schedule' :
  schedule ≡ₚ schedule' →
  let r := handler fuel (mkRequest "POST" body) store schedule in
  let r' := handler fuel (mkRequest "POST" body) store schedule' in
  r.2 = r'.2 ∧ tasks r.1 = tasks r'.1 ∧
  progress r.1 ≡ₚ progress r'.1 ∧
  adapterCalls r.1 ≡ₚ adapterCalls r'.1 ∧
  (λ e : string * string * Z, e.1.1) <$> cacheWrites r.1
    ≡ₚ (λ e : string * string * Z, e.1.1) <$> cacheWrites r'.1.
Proof.
  intros Hperm r r'.
  assert (Htasks : tasks (run (competitors body) store schedule)
                   = tasks (run (competitors body) store schedule')).
  { apply list_eq. intros i. rewrite !(tasks_run_from scrapeWebsite parse stringify)
      by (rewrite fannedOut_eq; simpl; by rewrite length_fmap).
    by rewrite (proj1 (Permutation_count_occ Nat.eq_dec _ _) Hperm i). }
  destruct (handler_world_eq fuel body store schedule) as (Ht & _ & Hc & Hw & _).
  destruct (handler_world_eq fuel body store schedule') as (Ht' & _ & Hc' & Hw' & _).
  fold r in Ht, Hc, Hw. fold r' in Ht', Hc', Hw'.
  pose proof (run_Ledger store (competitors body) schedule) as [Lc Lk _ _ _].
  pose proof (run_Ledger store (competitors body) schedule') as [Lc' Lk' _ _ _].
  pose proof (run_Inv scrapeWebsite parse stringify store (competitors body) schedule _
                (fannedOut_Inv parse store (competitors body)))
    as [_ (extra & Hp & He) _ _ _ _].
  pose proof (run_Inv scrapeWebsite parse stringify store (competitors body) schedule' _
                (fannedOut_Inv parse store (competitors body)))
    as [_ (extra' & Hp' & He') _ _ _ _].
  destruct (run_open store (competitors body) schedule) as [Hopen _].
  destruct (run_open store (competitors body) schedule') as [Hopen' _].
  split_and!.
  - subst r r'. rewrite !handler_POST. apply conclude_outcome; [done|congruence].
  - by rewrite Ht, Ht'.
  - subst r r'. rewrite !handler_POST. unfold ObsRoute.conclude. rewrite <- Htasks.
    assert (Hpp : progress (run (competitors body) store schedule)
                  ≡ₚ progress (run (competitors body) store schedule')).
    { rewrite Hp, Hp', He, He', Htasks. done. }
    destruct (promiseAll _); [|done..].
    destruct (generateAIAnalysis _ _ _); simpl; [|by rewrite Hpp].
    destruct (generatePDF _ _ _ _); simpl; try (by rewrite Hpp).
    unfold writeHead. cbn [eventStream endStream sendProgress].
    rewrite Hopen, Hopen'. destruct headOnce; simpl; by rewrite Hpp.
  - by rewrite Hc, Hc', Lc, Lc', Htasks.
  - by rewrite Hw, Hw', Lk, Lk', Htasks.
Qed.

(** X11.  The progress stream is ended when, and only when, the layout
    has returned, right after the completion event: a request that fails
    before, is refused for its method, is blocked in the layout or is
    still waiting leaves the stream open.  A request answered with the
    report has its stream ended; on a response that throws at its second
    head the stream is ended and the request then fails, so that no
    request is answered with the report. *)
Theorem stream_ends_only_after_the_layout fuel req store schedule :
  let r := handler fuel req store schedule in
  (streamEnded r.1 = true ↔ "Report generation complete!" ∈ progress r.1) ∧
  (streamEnded r.1 = true →
     if headOnce then r.2 = InternalError else ∃ pdf, r.2 = Report pdf) ∧
  (∀ pdf, r.2 = Report pdf → streamEnded r.1 = true ∧ headOnce = false).
Proof.
  intros r. subst r. destruct req as [m body]. destruct (decide (m = "POST")) as [->|Hm].
  - rewrite handler_POST.
    destruct (run_open store (competitors body) schedule) as [Hopen Hend].
    destruct (conclude_ended fuel (reportSections body) (reportFormat body) _
                Hend Hopen (run_not_complete store (competitors body) schedule))
      as [Hiff Hthen].
    split_and!; [done| |].
    + intros (ds & analysisResult & pdf & _ & _ & _ & ->)%Hthen.
      destruct headOnce; [done|by exists pdf].
    + intros pdf Hpdf.
      assert (Hpdf' := Hpdf).
      apply conclude_report in Hpdf' as (_ & _ & _ & _ & _ & _ & Hended).
      split; [done|]. apply Hthen in Hended as (_ & _ & pdf' & _ & _ & _ & Heq).
      rewrite Hpdf in Heq. by destruct headOnce.
  - unfold Route.handler. simpl. rewrite bool_decide_eq_false_2 by done. simpl.
    split_and!; [|done..]. split; [done|]. by intros ?%elem_of_nil.
Qed.

Lemma rejected_callback_fails fuel body store schedule (i : nat) :
  tasks (run (competitors body) store schedule) !! i = Some Rejected →
  let r := handler fuel (mkRequest "POST" body) store schedule in
  r.2 = InternalError ∧ streamEnded r.1 = false ∧
  "Generating AI analysis..." ∉ progress r.1.
Proof.
  intros Hrej r. subst r. rewrite handler_POST, conclude_rejected
    by (by eapply list_elem_of_lookup_2).
  pose proof (run_Inv scrapeWebsite parse stringify store (competitors body) schedule _
                (fannedOut_Inv parse store (competitors body)))
    as [_ (extra & Hp & He) _ _ _ [_ Hopen]].
  simpl. split_and!; [done..|]. rewrite Hp.
  intros [Hin|[Hin|Hin]%elem_of_app]%elem_of_cons; [done| |].
  - unfold analyzingMessages in Hin. apply list_elem_of_lookup in Hin as [k Hk].
    rewrite list_lookup_imap in Hk. destruct (competitors body !! k); [|done].
    simpl in Hk. injection Hk as Hk. unfold analyzingMessage in Hk. simpl in Hk.
    discriminate Hk.
  - rewrite He in Hin. apply notices_cached in Hin as [c Hc].
    unfold cachedMessage in Hc. simpl in Hc. discriminate Hc.
Qed.

(** X12.  A single site that cannot be scraped fails the whole request:
    once the two completions awaited before the scrape result are
    delivered to the callback of an uncached competitor whose site
    throws, the answer is the 500 error, the analysis is never started
    and the stream is left open. *)
Theorem failed_scrape_fails_the_request fuel body store schedule (i : nat) c :
  competitors body !! i = Some c →
  ¬ hit store c →
  scrapeWebsite (siteUrl c) = None →
  (2 ≤ count_occ Nat.eq_dec schedule i)%nat →
  let r := handler fuel (mkRequest "POST" body) store schedule in
  r.2 = InternalError ∧ streamEnded r.1 = false ∧
  "Generating AI analysis..." ∉ progress r.1.
Proof.
  intros Hc Hmiss Hscrape Hn. apply (rejected_callback_fails fuel body store schedule i).
  rewrite (tasks_run scrapeWebsite parse stringify _ _ _ i c Hc). f_equal.
  destruct (count_occ Nat.eq_dec schedule i) as [|[|n]]; [lia..|].
  rewrite !Nat.iter_succ_r. simpl.
  assert (truthy (store !! cacheKey c) = false) as ->
    by (unfold hit in Hmiss; by destruct (truthy _)).
  simpl. rewrite Hscrape. by apply iter_advance_settled.
Qed.

(** X13.  A cache entry that does not parse fails the whole request as
    soon as the cache read of its competitor completes; the site is not
    scraped instead. *)
Theorem unparsable_cache_entry_fails_the_request fuel body store schedule (i : nat) c :
  competitors body !! i = Some c →
  hit store c →
  parse (default "" (store !! cacheKey c)) = None →
  (1 ≤ count_occ Nat.eq_dec schedule i)%nat →
  let r := handler fuel (mkRequest "POST" body) store schedule in
  r.2 = InternalError ∧ streamEnded r.1 = false ∧
  ("Generating AI analysis..." ∉ progress r.1) ∧
  siteUrl c ∉ adapterCalls r.1.
Proof.
  intros Hc Hhit Hparse Hn r.
  assert (Hrej : tasks (run (competitors body) store schedule) !! i = Some Rejected).
  { rewrite (tasks_run scrapeWebsite parse stringify _ _ _ i c Hc). f_equal.
    destruct (count_occ Nat.eq_dec schedule i) as [|n]; [lia|].
    rewrite Nat.iter_succ_r. simpl. unfold hit in Hhit. rewrite Hhit, Hparse.
    by apply iter_advance_settled. }
  destruct (rejected_callback_fails fuel body store schedule i Hrej) as (H1 & H2 & H3).
  split_and!; [done..|].
  destruct (handler_world_eq fuel body store schedule) as (_ & _ & Hcalls & _).
  fold r in Hcalls. rewrite Hcalls.
  pose proof (run_Inv scrapeWebsite parse stringify store (competitors body) schedule _
                (fannedOut_Inv parse store (competitors body)))
    as [_ _ Hcs _ _ _].
  intros Hin. eapply Forall_forall in Hcs as (c' & _ & Hmiss & Hurl); [|done].
  apply siteUrl_inj in Hurl as <-. done.
Qed.

(** X14.  At every moment of every run the adapter has been called at
    most once for each uncached competitor of the list and for nothing
    else, and the cache has been written at most once for each of them:
    every write stores, under the key of an uncached competitor, the
    encoded record scraped from its site, with an expiry of 86400
    seconds. *)
Theorem calls_and_writes_are_bounded fuel body store schedule :
  let w := (handler fuel (mkRequest "POST" body) store schedule).1 in
  adapterCalls w ⊆+ siteUrl <$> misses store (competitors body) ∧
  (λ e : string * string * Z, e.1.1) <$> cacheWrites w
    ⊆+ cacheKey <$> misses store (competitors body) ∧
  ∀ key value ttl, (key, value, ttl) ∈ cacheWrites w →
    ttl = 86400 ∧
    ∃ c d, c ∈ competitors body ∧ ¬ hit store c ∧ key = cacheKey c ∧
           scrapeWebsite (siteUrl c) = Some d ∧ value = stringify d.
Proof.
  intros w. destruct (handler_world_eq fuel body store schedule) as (_ & _ & Hc & Hw & _).
  fold w in Hc, Hw. rewrite Hc, Hw.
  pose proof (run_Ledger store (competitors body) schedule) as [Lc Lk Lw _ _].
  split_and!.
  - rewrite Lc. apply tally_calls_bound.
  - rewrite Lk. apply tally_keys_bound.
  - intros key value ttl Hin. eapply Forall_forall in Lw; [|done]. simpl in Lw.
    destruct Lw as (-> & c & d & Hcin & Hmiss & Hd & [= -> ->]). split; [done|].
    by exists c, d.
Qed.

(** X15.  A request answered with the report has called the adapter
    exactly once, and written the cache exactly once, for each uncached
    competitor of the list. *)
Theorem one_call_and_one_write_per_uncached_competitor fuel body store schedule pdf :
  let r := handler fuel (mkRequest "POST" body) store schedule in
  r.2 = Report pdf →
  adapterCalls r.1 ≡ₚ siteUrl <$> misses store (competitors body) ∧
  (λ e : string * string * Z, e.1.1) <$> cacheWrites r.1
    ≡ₚ cacheKey <$> misses store (competitors body) ∧
  length (adapterCalls r.1) = length (misses store (competitors body)) ∧
  length (cacheWrites r.1) = length (misses store (competitors body)).
Proof.
  intros r Hrep. subst r. rewrite handler_POST in Hrep.
  apply conclude_report in Hrep as (ds & _ & Hds & _).
  destruct (handler_world_eq fuel body store schedule) as (_ & _ & Hc & Hw & _).
  rewrite Hc, Hw.
  pose proof (run_Ledger store (competitors body) schedule) as [Lc Lk _ _ _].
  pose proof (run_Inv scrapeWebsite parse stringify store (competitors body) schedule _
                (fannedOut_Inv parse store (competitors body))) as [HF _ _ _ _ _].
  destruct (tally_fulfilled store (competitors body) _ ds
              (promiseAll_fulfilled _ _ Hds) (Forall2_length _ _ _ HF)) as [T1 T2].
  rewrite T1 in Lc. rewrite T2 in Lk. split_and!; [done..| |].
  - by rewrite Lc, length_fmap.
  - apply Permutation_length in Lk. by rewrite !length_fmap in Lk.
Qed.

(** X16.  After a request answered with the report the cache holds, for
    each uncached competitor of the list, the encoded record scraped from
    its site, and every other key holds what it held before. *)
Theorem cache_after_the_report fuel body store schedule pdf :
  let r := handler fuel (mkRequest "POST" body) store schedule in
  r.2 = Report pdf →
  (∀ c, c ∈ competitors body → ¬ hit store c →
     ∃ d, scrapeWebsite (siteUrl c) = Some d ∧
          cache r.1 !! cacheKey c = Some (stringify d)) ∧
  (∀ key, key ∉ cacheKey <$> misses store (competitors body) →
     cache r.1 !! key = store !! key).
Proof.
  intros r Hrep. subst r. rewrite handler_POST in Hrep.
  apply conclude_report in Hrep as (ds & _ & Hds & _).
  destruct (handler_world_eq fuel body store schedule) as (_ & Hcache & _).
  rewrite Hcache.
  pose proof (run_Ledger store (competitors body) schedule) as [_ _ _ Lf Ls].
  pose proof (run_Inv scrapeWebsite parse stringify store (competitors body) schedule _
                (fannedOut_Inv parse store (competitors body))) as [HF _ _ _ _ _].
  apply promiseAll_fulfilled in Hds. split.
  - intros c [i Hi]%list_elem_of_lookup Hmiss.
    destruct (Forall2_lookup_l _ _ _ _ _ HF Hi) as (t & Ht & _).
    destruct (Forall2_lookup_l _ _ _ _ _ Hds Ht) as (d & _ & ->).
    exists d. apply (Ls i c d Hi Hmiss). by right.
  - intros key Hkey. apply Lf. intros c Hc Hmiss ->. apply Hkey.
    apply list_elem_of_fmap_2. by apply list_elem_of_filter.
Qed.

(** X17.  The same request repeated on the cache left by a request that
    was answered with the report, when the encoded records decode to
    themselves and are not empty, and whatever the analysis service and
    the response are the second time: the adapter is not called, the
    cache is neither written nor changed, and once each cache read has
    completed every callback has settled with the record it had in the
    first request, so the analysis is asked again for the same records. *)
Theorem repeated_request_is_served_from_the_cache
    fuel fuel' headOnce' generateAIAnalysis' body store schedule schedule' pdf :
  (∀ c d, c ∈ competitors body → scrapeWebsite (siteUrl c) = Some d →
          parse (stringify d) = Some d ∧ stringify d ≠ "") →
  let r := handler fuel (mkRequest "POST" body) store schedule in
  r.2 = Report pdf →
  let r' := Route.handler page_height lineHeight wrap halfLine headOnce' scrapeWebsite
              parse stringify generateAIAnalysis' fuel'
              (mkRequest "POST" body) (cache r.1) schedule' in
  adapterCalls r'.1 = [] ∧ cacheWrites r'.1 = [] ∧ cache r'.1 = cache r.1 ∧
  ((∀ i : nat, (i < length (competitors body))%nat → i ∈ schedule') →
   tasks r'.1 = tasks r.1 ∧
   ∃ competitorData,
     promiseAll (tasks r.1) = AllFulfilled competitorData ∧
     promiseAll (tasks r'.1) = AllFulfilled competitorData).
Proof.
  intros Hcodec r Hrep r'.
  destruct (handler_world_eq fuel body store schedule) as (Htasks & Hcache & _).
  fold r in Htasks, Hcache.
  subst r. rewrite handler_POST in Hrep.
  apply conclude_report in Hrep as (ds & _ & Hds & _).
  assert (Hds' := Hds). apply promiseAll_fulfilled in Hds'.
  set (cs := competitors body) in *.
  set (w := fold_left _ schedule (fannedOut store cs)) in *.
  pose proof (run_Ledger store cs schedule) as [_ _ _ Lf Ls]. fold w in Lf, Ls.
  pose proof (run_Inv scrapeWebsite parse stringify store cs schedule _
                (fannedOut_Inv parse store cs)) as [HF _ _ _ Hk _]. fold w in HF, Hk.
  (* what the cache holds for each competitor after the first request *)
  assert (Hentry : ∀ (i : nat) c, cs !! i = Some c →
            ∃ d, tasks w !! i = Some (Fulfilled d) ∧ truthy (cache w !! cacheKey c) = true ∧
                 parse (default "" (cache w !! cacheKey c)) = Some d).
  { intros i c Hi.
    destruct (Forall2_lookup_l _ _ _ _ _ HF Hi) as (t & Ht & Hcons).
    destruct (Forall2_lookup_l _ _ _ _ _ Hds' Ht) as (d & _ & ->).
    exists d. split; [done|].
    destruct (truthy (store !! cacheKey c)) eqn:Ehit.
    - rewrite (Hk c Ehit). split; [done|]. simpl in Hcons.
      specialize (Hcons Ehit). unfold decoded in Hcons.
      destruct (parse _); [|done]. by injection Hcons as ->.
    - assert (Hmiss : ¬ hit store c) by (unfold hit; congruence).
      destruct (Ls i c d Hi Hmiss) as [Hd ->]; [by right|].
      destruct (Hcodec c d) as [Hp Hne]; [by eapply list_elem_of_lookup_2|done|].
      simpl. split; [by apply truthy_nonempty|done]. }
  assert (Hall : ∀ c, c ∈ cs → hit (cache w) c).
  { intros c [i Hi]%list_elem_of_lookup. by destruct (Hentry i c Hi) as (d & _ & H & _). }
  subst r'. rewrite Hcache, Htasks. clear Hcache Htasks.
  pose proof (RouteSpec.handler_world page_height lineHeight wrap halfLine headOnce'
                scrapeWebsite parse stringify generateAIAnalysis' fuel' body (cache w)
                schedule') as (suffix & _ & _ & _ & _ & Ha' & Hw' & Hc' & Ht').
  fold cs in Ht', Hc', Ha', Hw'.
  pose proof (run_Inv scrapeWebsite parse stringify (cache w) cs schedule' _
                (fannedOut_Inv parse (cache w) cs)) as [_ _ Hcalls Hwrites _ _].
  pose proof (run_Ledger (cache w) cs schedule') as [_ _ _ Lf' _].
  assert (Hsettled : (∀ i : nat, (i < length cs)%nat → i ∈ schedule') →
            tasks (fold_left (resume cs) schedule' (fannedOut (cache w) cs)) = tasks w).
  { intros Hsched. apply list_eq. intros i.
    rewrite (tasks_run_from scrapeWebsite parse stringify cs schedule')
      by (rewrite fannedOut_eq; simpl; by rewrite length_fmap).
    rewrite fannedOut_eq. simpl. rewrite list_lookup_fmap.
    destruct (cs !! i) as [c|] eqn:Hi.
    + destruct (Hentry i c Hi) as (d & Hd & Htr & Hp).
      rewrite Hd. simpl. f_equal.
      assert (Hlt : (i < length cs)%nat) by (by eapply lookup_lt_Some).
      specialize (Hsched i Hlt).
      apply list_elem_of_In, (count_occ_In Nat.eq_dec) in Hsched.
      destruct (count_occ Nat.eq_dec schedule' i) as [|n]; [lia|].
      rewrite Nat.iter_succ_r. simpl. rewrite Htr, Hp. by apply iter_advance_settled.
    + simpl. symmetry. apply lookup_ge_None. apply lookup_ge_None in Hi.
      apply Forall2_length in HF. lia. }
  split_and!.
  - rewrite Ha'. remember (adapterCalls _) as calls eqn:E. clear E.
    destruct Hcalls as [|u us (c & Hin & Hmiss & _) _]; [done|].
    destruct Hmiss. by apply Hall.
  - rewrite Hw'. remember (cacheWrites _) as writes eqn:E. clear E.
    destruct Hwrites as [|e es (c & Hin & Hmiss & _) _]; [done|].
    destruct Hmiss. by apply Hall.
  - rewrite Hc'. apply map_eq. intros k. apply Lf'. intros c Hin Hmiss.
    destruct Hmiss. by apply Hall.
  - intros Hsched. rewrite Ht', (Hsettled Hsched). split; [done|]. by exists ds.
Qed.

(** X18.  The report is the layout of the analysis of the resolved
    records: a request answered with a report has given the analysis, in
    the order of the competitor list, the decoded cache entry of each
    cached competitor and the record scraped from the site of each other
    one, and the report is [generatePDF] of the text returned. *)
Theorem analysis_receives_the_resolved_records fuel body store schedule pdf :
  (handler fuel (mkRequest "POST" body) store schedule).2 = Report pdf →
  ∃ competitorData analysisResult,
    Forall2 (resolvesTo scrapeWebsite parse store) (competitors body) competitorData ∧
    generateAIAnalysis competitorData (reportSections body) (reportFormat body)
      = Some analysisResult ∧
    generatePDF fuel analysisResult (reportSections body) (reportFormat body)
      = Resolved pdf.
Proof.
  rewrite handler_POST. intros Hrep.
  apply conclude_report in Hrep as (ds & analysisResult & Hds & Hai & Hpdf & _).
  exists ds, analysisResult. split_and!; [|done..].
  apply promiseAll_fulfilled in Hds.
  pose proof (run_Ledger store (competitors body) schedule) as [_ _ _ _ Ls].
  pose proof (run_Inv scrapeWebsite parse stringify store (competitors body) schedule _
                (fannedOut_Inv parse store (competitors body))) as [HF _ _ _ _ _].
  apply Forall2_same_length_lookup_2.
  - apply Forall2_length in HF, Hds. lia.
  - intros i c d Hi Hd.
    destruct (Forall2_lookup_l _ _ _ _ _ HF Hi) as (t & Ht & Hcons).
    destruct (Forall2_lookup_l _ _ _ _ _ Hds Ht) as (d' & Hd' & ->).
    assert (d' = d) as -> by congruence.
    unfold resolvesTo. destruct (truthy (store !! cacheKey c)) eqn:Ehit.
    + simpl in Hcons. specialize (Hcons Ehit). unfold decoded in Hcons.
      destruct (parse _); [|done]. by injection Hcons as ->.
    + apply (Ls i c d Hi); [unfold hit; congruence|by right].
Qed.

(** X19.  A request with an empty competitor list is not refused and
    waits for nothing: whatever the schedule, the route does what it does
    on the empty schedule, without any adapter call or cache write, and
    asks for the analysis of no record right after the start event.  When
    the analysis answers, the layout returns a document and the response
    lets the second head pass, that document is delivered after exactly
    four progress events. *)
Theorem request_without_competitors fuel body store schedule :
  competitors body = [] →
  let r := handler fuel (mkRequest "POST" body) store schedule in
  r = handler fuel (mkRequest "POST" body) store [] ∧
  adapterCalls r.1 = [] ∧ cacheWrites r.1 = [] ∧ cache r.1 = store ∧
  r.2 ≠ Pending ∧
  (∃ later, progress r.1 =
              ["Starting report generation..."; "Generating AI analysis..."] ++ later) ∧
  (∀ analysisResult pdf,
     generateAIAnalysis [] (reportSections body) (reportFormat body)
       = Some analysisResult →
     generatePDF fuel analysisResult (reportSections body) (reportFormat body)
       = Resolved pdf →
     headOnce = false →
     r.2 = Report pdf ∧
     progress r.1 = "Starting report generation..." :: closingMessages).
Proof.
  intros Hcs r. subst r. rewrite !handler_POST, Hcs.
  assert (Hrun : run [] store schedule = fannedOut store []).
  { generalize (fannedOut store []). induction schedule as [|j schedule IH]; intros w;
      [done|]. simpl. apply IH. }
  rewrite Hrun. cbn [fold_left]. rewrite fannedOut_eq. unfold ObsRoute.conclude.
  cbn [tasks fmap list_fmap promiseAll].
  split; [done|].
  destruct (generateAIAnalysis [] _ _) as [analysisResult|] eqn:Ea.
  - destruct (generatePDF _ _ _ _) as [pdf| |] eqn:Eg.
    + unfold writeHead. cbn [eventStream endStream sendProgress].
      destruct headOnce; simpl; (split_and!; [done..|by eexists|]).
      * by intros ? ? _ _ ?.
      * intros ? ? [= <-] Hg _. rewrite Eg in Hg. by injection Hg as <-.
    + simpl. split_and!; [done..|by eexists|]. intros ? ? [= <-] Hg. by rewrite Eg in Hg.
    + simpl. split_and!; [done..|by eexists|]. intros ? ? [= <-] Hg. by rewrite Eg in Hg.
  - simpl. split_and!; [done..|by eexists|]. by intros ? ? ?.
Qed.

End Environment.

(** *** Worked instances *)

Lemma callbacks_are_independent_witness :
  tasks (sample_handler (mkRequest "POST" two_competitors) globex_cached
                        [1; 0; 0; 0]%nat).1 !! 0%nat =
    Some (Nat.iter (count_occ Nat.eq_dec [1; 0; 0; 0]%nat 0%nat)
            (advance sample_scrape sample_parse "acme")
            (AwaitCache (globex_cached !! cacheKey "acme"))).
Proof.
  apply (callbacks_are_independent sample_height sample_lineHeight sample_wrap
           sample_halfLine false sample_scrape sample_parse sample_stringify
           sample_analysis 20 two_competitors globex_cached [1; 0; 0; 0]%nat 0%nat "acme").
  reflexivity.
Defined.

Lemma outcome_independent_witness :
  (sample_handler (mkRequest "POST" two_competitors) globex_cached [1; 0; 0; 0]%nat).2 =
  (sample_handler (mkRequest "POST" two_competitors) globex_cached [0; 1; 0; 0]%nat).2.
Proof.
  apply (outcome_independent_of_completion_order sample_height sample_lineHeight
           sample_wrap sample_halfLine false sample_scrape sample_parse sample_stringify
           sample_analysis 20 two_competitors globex_cached
           [1; 0; 0; 0]%nat [0; 1; 0; 0]%nat).
  apply perm_swap.
Defined.

Lemma failed_scrape_witness :
  (handler sample_height sample_lineHeight sample_wrap sample_halfLine false (λ _, None)
           sample_parse sample_stringify sample_analysis 20
           (mkRequest "POST" two_competitors) globex_cached [0; 0]%nat).2
    = InternalError.
Proof.
  apply (failed_scrape_fails_the_request sample_height sample_lineHeight sample_wrap
           sample_halfLine false (λ _, None) sample_parse sample_stringify
           sample_analysis 20 two_competitors globex_cached [0; 0]%nat 0%nat "acme").
  - reflexivity.
  - vm_compute. discriminate.
  - reflexivity.
  - vm_compute. lia.
Defined.

Lemma unparsable_cache_entry_witness :
  (handler sample_height sample_lineHeight sample_wrap sample_halfLine false
           sample_scrape (λ _, None) sample_stringify sample_analysis 20
           (mkRequest "POST" two_competitors) globex_cached [1]%nat).2
    = InternalError.
Proof.
  apply (unparsable_cache_entry_fails_the_request sample_height sample_lineHeight
           sample_wrap sample_halfLine false sample_scrape (λ _, None) sample_stringify
           sample_analysis 20 two_competitors globex_cached [1]%nat 1%nat "globex").
  - reflexivity.
  - vm_compute. reflexivity.
  - reflexivity.
  - vm_compute. lia.
Defined.

Lemma sample_report :
  ∃ pdf, (sample_handler (mkRequest "POST" two_competitors) globex_cached
                         [1; 0; 0; 0]%nat).2 = Report pdf.
Proof. vm_compute. eexists. reflexivity. Defined.

Lemma one_call_and_one_write_witness :
  length (adapterCalls (sample_handler (mkRequest "POST" two_competitors) globex_cached
                                       [1; 0; 0; 0]%nat).1) =
    length (misses globex_cached (competitors two_competitors)).
Proof.
  destruct sample_report as [pdf H].
  exact (proj1 (proj2 (proj2
    (one_call_and_one_write_per_uncached_competitor sample_height sample_lineHeight
       sample_wrap sample_halfLine false sample_scrape sample_parse sample_stringify
       sample_analysis 20 two_competitors globex_cached [1; 0; 0; 0]%nat pdf H)))).
Defined.

Lemma cache_after_the_report_witness :
  cache (sample_handler (mkRequest "POST" two_competitors) globex_cached
                        [1; 0; 0; 0]%nat).1 !! "competitor:initech" =
    globex_cached !! "competitor:initech".
Proof.
  destruct sample_report as [pdf H].
  apply (cache_after_the_report sample_height sample_lineHeight sample_wrap
           sample_halfLine false sample_scrape sample_parse sample_stringify
           sample_analysis 20 two_competitors globex_cached [1; 0; 0; 0]%nat pdf H).
  apply (bool_decide_unpack _). vm_compute. exact I.
Defined.

Lemma stream_ends_witness :
  streamEnded (sample_handler (mkRequest "POST" two_competitors) globex_cached
                              [1; 0; 0; 0]%nat).1 = true ∧
  (strict_handler (mkRequest "POST" two_competitors) globex_cached
                  [1; 0; 0; 0]%nat).2 = InternalError.
Proof.
  destruct sample_report as [pdf H]. split.
  - apply (stream_ends_only_after_the_layout sample_height sample_lineHeight sample_wrap
             sample_halfLine false sample_scrape sample_parse sample_stringify
             sample_analysis 20 (mkRequest "POST" two_competitors) globex_cached
             [1; 0; 0; 0]%nat) with pdf.
    exact H.
  - apply (stream_ends_only_after_the_layout sample_height sample_lineHeight sample_wrap
             sample_halfLine true sample_scrape sample_parse sample_stringify
             sample_analysis 20 (mkRequest "POST" two_competitors) globex_cached
             [1; 0; 0; 0]%nat).
    vm_compute. reflexivity.
Defined.

Lemma calls_and_writes_witness :
  adapterCalls (sample_handler (mkRequest "POST" two_competitors) globex_cached
                               [0]%nat).1
    ⊆+ siteUrl <$> misses globex_cached (competitors two_competitors).
Proof.
  apply (calls_and_writes_are_bounded sample_height sample_lineHeight sample_wrap
           sample_halfLine false sample_scrape sample_parse sample_stringify
           sample_analysis 20 two_competitors globex_cached [0]%nat).
Defined.

Lemma repeated_request_witness :
  adapterCalls
    (strict_handler (mkRequest "POST" two_competitors)
       (cache (sample_handler (mkRequest "POST" two_competitors) globex_cached
                              [1; 0; 0; 0]%nat).1)
       [0; 1]%nat).1 = [] ∧
  tasks
    (strict_handler (mkRequest "POST" two_competitors)
       (cache (sample_handler (mkRequest "POST" two_competitors) globex_cached
                              [1; 0; 0; 0]%nat).1)
       [0; 1]%nat).1 =
  tasks (sample_handler (mkRequest "POST" two_competitors) globex_cached
                        [1; 0; 0; 0]%nat).1.
Proof.
  destruct sample_report as [pdf H].
  destruct (repeated_request_is_served_from_the_cache sample_height sample_lineHeight
              sample_wrap sample_halfLine false sample_scrape sample_parse
              sample_stringify sample_analysis 20 20 true sample_analysis
              two_competitors globex_cached [1; 0; 0; 0]%nat [0; 1]%nat pdf)
    as (Hcalls & _ & _ & Hsame).
  - intros c d _ Hd. injection Hd as <-. split; [reflexivity|discriminate].
  - exact H.
  - split; [exact Hcalls|]. apply Hsame.
    intros i Hi. destruct i as [|[|i]]; [left|right; left|simpl in Hi; lia].
Defined.

Lemma analysis_receives_witness :
  ∃ competitorData analysisResult,
    Forall2 (resolvesTo sample_scrape sample_parse globex_cached)
            (competitors two_competitors) competitorData ∧
    sample_analysis competitorData (reportSections two_competitors)
                    (reportFormat two_competitors) = Some analysisResult.
Proof.
  destruct sample_report as [pdf H].
  destruct (analysis_receives_the_resolved_records sample_height sample_lineHeight
              sample_wrap sample_halfLine false sample_scrape sample_parse
              sample_stringify sample_analysis 20 two_competitors globex_cached
              [1; 0; 0; 0]%nat pdf H)
    as (ds & text & H1 & H2 & _).
  by exists ds, text.
Defined.

Lemma request_without_competitors_witness :
  (sample_handler (mkRequest "POST" (mkBody [] ["Market Overview"] "xml"))
                  ∅ [3; 1]%nat).1.(progress) =
    "Starting report generation..." :: closingMessages.
Proof.
  assert (H : ∃ pdf,
            generatePDF sample_height sample_lineHeight sample_wrap sample_halfLine 20
              "Market Overview" ["Market Overview"] "xml" = Resolved pdf).
  { vm_compute. eexists. reflexivity. }
  destruct H as [pdf H].
  destruct (request_without_competitors sample_height sample_lineHeight sample_wrap
              sample_halfLine false sample_scrape sample_parse sample_stringify
              sample_analysis 20 (mkBody [] ["Market Overview"] "xml") ∅ [3; 1]%nat)
    as (_ & _ & _ & _ & _ & _ & Hserved); [reflexivity|].
  apply (Hserved "Market Overview" pdf); [reflexivity|exact H|reflexivity].
Defined.

End RouteMore.


(** ** The analysis request against its template *)

Module AnalysisFacts.
Import Js Obs ObsLayout JsFacts Pdf Layout Analysis.

#[local] Arguments String.append _ _ : simpl nomatch.

Lemma append_assoc a b c : (a +:+ b) +:+ c = a +:+ (b +:+ c).
Proof. induction a as [|x a IH]; simpl; [done|]. by rewrite IH. Qed.

Lemma append_empty_r a : a +:+ "" = a.
Proof. induction a as [|x a IH]; simpl; [done|]. by rewrite IH. Qed.

Lemma substring_of_here a c : substring_of a (a +:+ c).
Proof. by exists "", c. Qed.

Lemma substring_of_refl a : substring_of a a.
Proof. exists "", "". simpl. by rewrite append_empty_r. Qed.

Lemma substring_of_app_r a b c : substring_of a c → substring_of a (b +:+ c).
Proof. intros (pre & post & ->). exists (b +:+ pre), post. by rewrite append_assoc. Qed.

Lemma substring_of_app_l a b c : substring_of a b → substring_of a (b +:+ c).
Proof.
  intros (pre & post & ->). exists pre, (post +:+ c). by rewrite !append_assoc.
Qed.

Lemma substring_of_trans a b c : substring_of a b → substring_of b c → substring_of a c.
Proof.
  intros (p1 & q1 & ->) (p2 & q2 & ->). exists (p2 +:+ p1), (q1 +:+ q2).
  by rewrite !append_assoc.
Qed.

Lemma substring_of_join sep (l : list string) x :
  x ∈ l → substring_of x (join sep l).
Proof.
  unfold join. induction l as [|y l IH]; [by intros ?%elem_of_nil|].
  intros [->|Hin]%elem_of_cons.
  - destruct l; [apply substring_of_refl|]. rewrite LayoutMore.join_cons.
    apply substring_of_here.
  - destruct l as [|z l]; [by apply elem_of_nil in Hin|]. rewrite LayoutMore.join_cons.
    by apply substring_of_app_r, substring_of_app_r, IH.
Qed.

Ltac occurs :=
  repeat first [ apply substring_of_here | apply substring_of_refl
               | apply substring_of_app_r ].

(** X20.  The prompt sent to the service names the request: it contains
    the format, the requested sections joined by commas in the requested
    order, hence each of them, the block of every competitor record with
    its company name, and the wording chosen for the format. *)
Theorem prompt_names_the_request data sections format :
  substring_of format (prompt data sections format) ∧
  substring_of (join ", " sections) (prompt data sections format) ∧
  (∀ section, section ∈ sections → substring_of section (prompt data sections format)) ∧
  (∀ competitor, competitor ∈ data →
     substring_of (competitorBlock competitor) (prompt data sections format) ∧
     substring_of (companyName competitor) (prompt data sections format)) ∧
  substring_of (formatAdvice format) (prompt data sections format).
Proof.
  assert (Hsections : substring_of (join ", " sections) (prompt data sections format))
    by (unfold prompt; occurs).
  assert (Hdata : substring_of (join (nl +:+ nl) (competitorBlock <$> data))
                    (prompt data sections format)) by (unfold prompt; occurs).
  split_and!.
  - unfold prompt. occurs.
  - done.
  - intros section Hin. eapply substring_of_trans; [|exact Hsections].
    by apply substring_of_join.
  - intros competitor Hin.
    assert (Hblock : substring_of (competitorBlock competitor)
                       (prompt data sections format)).
    { eapply substring_of_trans; [|exact Hdata].
      by apply substring_of_join, list_elem_of_fmap_2. }
    split; [done|]. eapply substring_of_trans; [|exact Hblock].
    unfold competitorBlock. occurs.
  - unfold prompt. occurs.
Qed.

Section Metrics.

Context (page_height : Z) (lineHeight : Z → Z) (wrap : Z → string → list bool)
        (halfLine : Z → Z).

Local Abbreviation written := (written page_height lineHeight wrap halfLine).
Local Abbreviation generatePDF := (generatePDF page_height lineHeight wrap halfLine).

Lemma fold_left_pointwise {A B} (f g : A → B → A) (l : list B) (a : A) :
  (∀ a x, f a x = g a x) → fold_left f l a = fold_left g l a.
Proof.
  intros Hfg. revert a. induction l as [|x l IH]; intros a; [done|].
  simpl. by rewrite Hfg, IH.
Qed.

(** X21.  A format that is none of detailed, summary and presentation is
    worded as a presentation in the prompt, but laid out exactly as a
    summary: [generatePDF] ends as it does for the format summary, with
    the same document if any, laid out with a table of contents and
    without bullets. *)
Theorem unknown_format_is_worded_and_laid_out_differently format :
  format ≠ "detailed" → format ≠ "summary" → format ≠ "presentation" →
  formatAdvice format = formatAdvice "presentation" ∧
  ∀ fuel analysisResult sections,
    generatePDF fuel analysisResult sections format =
    generatePDF fuel analysisResult sections "summary".
Proof.
  intros H1 H2 H3. split.
  - unfold formatAdvice. by rewrite !(bool_decide_eq_false_2 (format = _)) by done.
  - intros fuel analysisResult sections. unfold Layout.generatePDF, Layout.written, padding.
    rewrite (bool_decide_eq_false_2 (format = "detailed")) by done.
    rewrite (bool_decide_eq_false_2 ("summary" = "detailed")) by done.
    assert (tableOfContents page_height lineHeight wrap halfLine sections format
              (title page_height lineHeight wrap halfLine newDocument) =
            tableOfContents page_height lineHeight wrap halfLine sections "summary"
              (title page_height lineHeight wrap halfLine newDocument)) as ->.
    { unfold tableOfContents. by rewrite !bool_decide_eq_true_2 by done. }
    unfold Layout.content.
    rewrite (fold_left_pointwise
               (contentLine page_height lineHeight wrap halfLine sections format)
               (contentLine page_height lineHeight wrap halfLine sections "summary"));
      [done|].
    intros [doc cur] line. unfold contentLine.
    by rewrite !(bool_decide_eq_false_2 (_ = "presentation")) by done.
Qed.

(** X22.  When the service answers without a usable first choice (no
    choice, no message, no content or an empty content) the analysis is
    the empty text, and the content pass over it makes one call after
    the front matter, for one empty line. *)
Theorem empty_answer_gives_an_empty_report create data sections format response :
  create (prompt data sections format) = Some response →
  truthy (firstContent response) = false →
  generateAIAnalysis create data sections format = Some "" ∧
  items (written "" sections format) =
    frontMatter sections format ++ [lineItem sections format ""].
Proof.
  intros Hcreate Hempty. unfold generateAIAnalysis. rewrite Hcreate. simpl.
  rewrite Hempty. split; [done|].
  apply (LayoutFacts.written_items page_height lineHeight wrap halfLine "" sections format).
Qed.

End Metrics.

(** *** Worked instances *)

Lemma prompt_names_witness :
  substring_of "SWOT Analysis" (prompt [] ["Market Overview"; "SWOT Analysis"] "summary").
Proof.
  apply (prompt_names_the_request [] ["Market Overview"; "SWOT Analysis"] "summary").
  right. left.
Defined.

Lemma unknown_format_witness : formatAdvice "xml" = formatAdvice "presentation".
Proof.
  apply (unknown_format_is_worded_and_laid_out_differently sample_height
           sample_lineHeight sample_wrap sample_halfLine "xml"); discriminate.
Defined.

Lemma empty_answer_witness :
  generateAIAnalysis (λ _, Some (mkCompletion [])) [] ["Market Overview"] "summary"
    = Some "".
Proof.
  apply (empty_answer_gives_an_empty_report sample_height sample_lineHeight sample_wrap
           sample_halfLine (λ _, Some (mkCompletion [])) [] ["Market Overview"] "summary"
           (mkCompletion [])); reflexivity.
Defined.

End AnalysisFacts.

(** ** The scraper against its loops *)

Module ScraperFacts.
Import Js Scraper.

Lemma fold_pushIf {A} (f : A → string) (xs : list A) (acc : list string) :
  fold_left (λ l elem, pushIf l (f elem)) xs acc =
    acc ++ filter (λ s, nonEmpty s = true) (f <$> xs).
Proof.
  revert acc. induction xs as [|x xs IH]; intros acc; cbn [fold_left];
    [by rewrite app_nil_r|].
  rewrite IH. unfold pushIf. rewrite fmap_cons. destruct (nonEmpty (f x)) eqn:E.
  - rewrite filter_cons_True by done. by rewrite <- app_assoc.
  - rewrite filter_cons_False by (by rewrite E). done.
Qed.

Lemma fold_eachLink (hrefs : list (option string)) (acc : list string) :
  fold_left eachLink hrefs acc =
    acc ++ filter (λ s, nonEmpty s = true) (default "" <$> hrefs).
Proof.
  revert acc. induction hrefs as [|h hrefs IH]; intros acc; cbn [fold_left];
    [by rewrite app_nil_r|].
  rewrite IH. unfold eachLink. rewrite fmap_cons. destruct h as [[|c h]|]; cbn [truthy default].
  - rewrite filter_cons_False by done. done.
  - rewrite filter_cons_True by done. by rewrite <- app_assoc.
  - rewrite filter_cons_False by done. done.
Qed.

Lemma fold_eachProduct trim (ps : list (string * string)) d :
  fold_left (eachProduct trim) ps d =
    mkScrapedData (companyName d)
      (productNames d ++ filter (λ s, nonEmpty s = true) ((λ e, trim e.1) <$> ps))
      (productDescriptions d ++ filter (λ s, nonEmpty s = true) ((λ e, trim e.2) <$> ps))
      (pricing d) (contactInfo d) (socialMediaLinks d) (newsHeadlines d)
      (keyFeatures d) (images d).
Proof.
  revert d. induction ps as [|p ps IH]; intros d; cbn [fold_left].
  - rewrite !app_nil_r. by destruct d.
  - rewrite IH. unfold eachProduct, pushIf.
    cbn [companyName productNames productDescriptions pricing contactInfo
         socialMediaLinks newsHeadlines keyFeatures images].
    rewrite !fmap_cons. cbv beta.
    f_equal.
    + destruct (nonEmpty (trim p.1)) eqn:E1.
      * rewrite filter_cons_True by done. by rewrite <- app_assoc.
      * by rewrite filter_cons_False by (by rewrite E1).
    + destruct (nonEmpty (trim p.2)) eqn:E2.
      * rewrite filter_cons_True by done. by rewrite <- app_assoc.
      * by rewrite filter_cons_False by (by rewrite E2).
Qed.

Lemma nonEmpty_filter (l : list string) :
  Forall (λ s, s ≠ "") (filter (λ s, nonEmpty s = true) l).
Proof.
  apply Forall_forall. intros s [Hs _]%list_elem_of_filter. by intros ->.
Qed.

(** X23.  The record scraped from a page that could be fetched: each list
    field holds, in page order, the trimmed texts that are not empty (for
    the social links: the [href]s that are present and not empty), so no
    list field ever contains an empty string; product names and product
    descriptions are filtered separately; there are never images.  The
    scraper fails exactly when the page cannot be fetched. *)
Theorem scraped_record_shape fetch trim url page :
  fetch url = Some page →
  ∃ d, scrapeWebsite fetch trim url = Some d ∧
    companyName d = trim (companyText page) ∧
    contactInfo d = trim (contactText page) ∧
    productNames d =
      filter (λ s, nonEmpty s = true) ((λ e, trim e.1) <$> productTexts page) ∧
    productDescriptions d =
      filter (λ s, nonEmpty s = true) ((λ e, trim e.2) <$> productTexts page) ∧
    pricing d = filter (λ s, nonEmpty s = true) (trim <$> priceTexts page) ∧
    socialMediaLinks d =
      filter (λ s, nonEmpty s = true) (default "" <$> socialHrefs page) ∧
    newsHeadlines d = filter (λ s, nonEmpty s = true) (trim <$> headlineTexts page) ∧
    keyFeatures d = filter (λ s, nonEmpty s = true) (trim <$> featureTexts page) ∧
    images d = [] ∧
    Forall (λ s, s ≠ "")
      (productNames d ++ productDescriptions d ++ pricing d ++ socialMediaLinks d ++
       newsHeadlines d ++ keyFeatures d).
Proof.
  intros Hfetch. unfold scrapeWebsite. rewrite Hfetch. cbv zeta.
  rewrite fold_eachProduct, !fold_pushIf, fold_eachLink. simpl.
  eexists. split; [done|]. simpl. split_and!; try done.
  repeat (apply Forall_app; split); apply nonEmpty_filter.
Qed.

Lemma scraped_record_shape_witness :
  ∃ d, scrapeWebsite
         (λ _, Some (mkSelected " Acme " [("Anvil", ""); ("", "heavy")] ["$5"; ""] ""
                                [Some "https://twitter.com/acme"; None] [] []))
         (λ s, s) "https://www.acme.com" = Some d ∧
       productNames d = ["Anvil"] ∧ productDescriptions d = ["heavy"] ∧ pricing d = ["$5"].
Proof.
  destruct (scraped_record_shape
              (λ _, Some (mkSelected " Acme " [("Anvil", ""); ("", "heavy")] ["$5"; ""] ""
                                     [Some "https://twitter.com/acme"; None] [] []))
              (λ s, s) "https://www.acme.com"
              (mkSelected " Acme " [("Anvil", ""); ("", "heavy")] ["$5"; ""] ""
                          [Some "https://twitter.com/acme"; None] [] []))
    as (d & Hd & _ & _ & Hn & Hdesc & Hp & _); [reflexivity|].
  exists d. split_and!; [exact Hd|exact Hn|exact Hdesc|exact Hp].
Defined.

End ScraperFacts.


(** ** The form against its state updates *)

Module FormFacts.
Import Js Form.

Lemma filter_from_index {A} (index from : nat) (l : list A) :
  filter_from (λ _ i, negb (i =? index)%nat) from l =
    if decide (from ≤ index)%nat
    then take (index - from) l ++ drop (S (index - from)) l
    else l.
Proof.
  revert from. induction l as [|x l IH]; intros from.
  - simpl. destruct (decide _); by rewrite ?take_nil, ?drop_nil.
  - cbn [filter_from]. rewrite IH. destruct (Nat.eqb_spec from index) as [->|Hne]; simpl.
    + rewrite decide_False by lia. rewrite decide_True by lia.
      by rewrite Nat.sub_diag.
    + destruct (decide (from ≤ index)%nat) as [Hle|Hgt].
      * rewrite decide_True by lia.
        replace (index - from)%nat with (S (index - S from)) by lia. done.
      * by rewrite decide_False by lia.
Qed.

Lemma removeCompetitor_eq index (l : list string) :
  removeCompetitor index l = take index l ++ drop (S index) l.
Proof.
  unfold removeCompetitor. rewrite filter_from_index, decide_True by lia.
  by rewrite Nat.sub_0_r.
Qed.

Lemma includes_elem_true (l : list string) x : includes_elem l x = true ↔ x ∈ l.
Proof.
  unfold includes_elem. rewrite existsb_exists. split.
  - intros (y & Hy & ->%String.eqb_eq). by apply list_elem_of_In.
  - intros Hx. exists x. split; [by apply list_elem_of_In|apply String.eqb_refl].
Qed.

Lemma filter_from_other id from (l : list string) :
  filter_from (λ sectionId _, negb (String.eqb sectionId id)) from l =
    filter (λ s, s ≠ id) l.
Proof.
  revert from. induction l as [|x l IH]; intros from; [done|].
  cbn [filter_from]. rewrite IH. destruct (String.eqb_spec x id) as [->|Hne]; simpl.
  - by rewrite filter_cons_False by (intros H; by apply H).
  - by rewrite filter_cons_True.
Qed.

Lemma filter_other_id id (l : list string) : id ∉ l → filter (λ s, s ≠ id) l = l.
Proof.
  induction l as [|x l IH]; [done|]. intros Hin.
  apply not_elem_of_cons in Hin as [Hne Hin].
  rewrite filter_cons_True by done. by rewrite IH.
Qed.

Lemma toggle_elem id (l : list string) x :
  x ∈ toggleReportSection id l ↔ (x = id ∧ id ∉ l) ∨ (x ≠ id ∧ x ∈ l).
Proof.
  unfold toggleReportSection. destruct (includes_elem l id) eqn:E.
  - apply includes_elem_true in E. rewrite filter_from_other, list_elem_of_filter.
    split; [intros [? ?]; by right|]. intros [[-> ?]|[? ?]]; done.
  - assert (Hid : id ∉ l) by (rewrite <- includes_elem_true; congruence).
    rewrite elem_of_app, list_elem_of_singleton. split.
    + intros [Hx| ->]; [|by left]. right. split; [|done]. by intros ->.
    + intros [[-> _]|[_ ?]]; [by right|by left].
Qed.

Lemma toggle_NoDup id (l : list string) : NoDup l → NoDup (toggleReportSection id l).
Proof.
  intros Hl. unfold toggleReportSection. destruct (includes_elem l id) eqn:E.
  - rewrite filter_from_other. by apply NoDup_filter.
  - assert (Hid : id ∉ l) by (rewrite <- includes_elem_true; congruence).
    apply NoDup_app. split_and!; [done| |apply NoDup_singleton].
    intros x Hx ->%list_elem_of_singleton. done.
Qed.

Lemma NoDup_reportSections : NoDup reportSections.
Proof. apply (bool_decide_unpack _). vm_compute. exact I. Qed.

(** X24.  [removeCompetitor] deletes the entry at the index and keeps the
    others in order; an index past the end changes nothing; an index
    other than 0, the only kind the form offers, keeps the first entry,
    so the list does not become empty; removing the entry that
    [addCompetitor] has just added gives the list back. *)
Theorem removeCompetitor_deletes_one_entry (index : nat) (competitors : list string) :
  removeCompetitor index competitors =
    take index competitors ++ drop (S index) competitors ∧
  ((index < length competitors)%nat →
     S (length (removeCompetitor index competitors)) = length competitors) ∧
  ((length competitors ≤ index)%nat → removeCompetitor index competitors = competitors) ∧
  ((0 < index)%nat → head (removeCompetitor index competitors) = head competitors) ∧
  removeCompetitor (length competitors) (addCompetitor competitors) = competitors.
Proof.
  rewrite !removeCompetitor_eq. split_and!; [done|..].
  - intros Hlt. rewrite length_app, length_take, length_drop. lia.
  - intros Hge. rewrite take_ge, drop_ge by lia. by rewrite app_nil_r.
  - intros Hpos. destruct competitors, index; (done || lia).
  - unfold addCompetitor. rewrite take_app_length, drop_ge by (rewrite length_app; simpl; lia).
    by rewrite app_nil_r.
Qed.

(** X25.  [toggleReportSection] flips the membership of the toggled
    identifier and of no other, and keeps a selection free of
    duplicates. *)
Theorem toggle_flips_one_membership id (prevSections : list string) :
  (id ∈ toggleReportSection id prevSections ↔ id ∉ prevSections) ∧
  (∀ other, other ≠ id →
     (other ∈ toggleReportSection id prevSections ↔ other ∈ prevSections)) ∧
  (NoDup prevSections → NoDup (toggleReportSection id prevSections)).
Proof.
  split_and!.
  - rewrite toggle_elem. split; [intros [[_ ?]|[? _]]; done|]. intros ?. by left.
  - intros other Hne. rewrite toggle_elem. split; [intros [[? _]|[_ ?]]; done|].
    intros ?. by right.
  - apply toggle_NoDup.
Qed.

(** X26.  Toggling a section twice: a section that was not selected is
    added and removed again, which restores the selection; a selected
    section is removed and comes back at the end of the list.  So the
    selection is restored exactly when the section was not selected or
    was the last of the list and nowhere else in it. *)
Theorem toggle_twice id (prevSections : list string) :
  (id ∉ prevSections →
     toggleReportSection id (toggleReportSection id prevSections) = prevSections) ∧
  (id ∈ prevSections →
     toggleReportSection id (toggleReportSection id prevSections) =
       filter (λ s, s ≠ id) prevSections ++ [id]) ∧
  (toggleReportSection id (toggleReportSection id prevSections) = prevSections ↔
     id ∉ prevSections ∨ ∃ others, prevSections = others ++ [id] ∧ id ∉ others).
Proof.
  assert (Hout : id ∉ prevSections →
            toggleReportSection id (toggleReportSection id prevSections) = prevSections).
  { intros Hid.
    assert (E : includes_elem prevSections id = false).
    { destruct (includes_elem prevSections id) eqn:E; [|done].
      by apply includes_elem_true in E. }
    unfold toggleReportSection at 2. rewrite E. unfold toggleReportSection.
    assert (includes_elem (prevSections ++ [id]) id = true) as ->.
    { apply includes_elem_true, elem_of_app. right. by left. }
    rewrite filter_from_other, filter_app, filter_other_id by done.
    rewrite filter_cons_False by (intros H; by apply H). by rewrite app_nil_r. }
  assert (Hin : id ∈ prevSections →
            toggleReportSection id (toggleReportSection id prevSections) =
              filter (λ s, s ≠ id) prevSections ++ [id]).
  { intros Hid.
    assert (E : includes_elem prevSections id = true) by (by apply includes_elem_true).
    unfold toggleReportSection at 2. rewrite E, filter_from_other.
    unfold toggleReportSection.
    assert (includes_elem (filter (λ s, s ≠ id) prevSections) id = false) as ->; [|done].
    destruct (includes_elem (filter (λ s, s ≠ id) prevSections) id) eqn:E'; [|done].
    apply includes_elem_true, list_elem_of_filter in E' as [? _]. done. }
  split_and!; [done..|]. split.
  - intros Hsame. destruct (decide (id ∈ prevSections)) as [Hid|Hid]; [|by left].
    right. rewrite (Hin Hid) in Hsame.
    exists (filter (λ s, s ≠ id) prevSections). split; [done|].
    by intros [? _]%list_elem_of_filter.
  - intros [Hid|(others & -> & Hid)]; [by apply Hout|].
    rewrite Hin by (apply elem_of_app; right; by left).
    rewrite filter_app, filter_other_id by done.
    rewrite filter_cons_False by (intros H; by apply H). by rewrite app_nil_r.
Qed.

(** X27.  Whatever sections of the form are toggled, in whatever order,
    starting from the initial selection, the selection stays free of
    duplicates and within the six sections offered. *)
Theorem selection_stays_well_formed (ids : list string) :
  Forall (λ id, id ∈ reportSections) ids →
  let selected := fold_left (λ sel id, toggleReportSection id sel) ids reportSections in
  NoDup selected ∧ ∀ id, id ∈ selected → id ∈ reportSections.
Proof.
  intros Hids.
  assert (H : ∀ sel, NoDup sel → (∀ id, id ∈ sel → id ∈ reportSections) →
            NoDup (fold_left (λ sel id, toggleReportSection id sel) ids sel) ∧
            ∀ id, id ∈ fold_left (λ sel id, toggleReportSection id sel) ids sel →
                  id ∈ reportSections).
  { induction Hids as [|id ids Hid _ IH]; intros sel Hnd Hsub; [done|].
    simpl. apply IH; [by apply toggle_NoDup|].
    intros x [[-> _]|[_ Hx]]%toggle_elem; [done|by apply Hsub]. }
  apply H; [apply NoDup_reportSections|done].
Qed.

(** *** Worked instances *)

Lemma removeCompetitor_witness :
  S (length (removeCompetitor 1 ["acme"; "globex"; "initech"])) = 3%nat.
Proof.
  apply (removeCompetitor_deletes_one_entry 1 ["acme"; "globex"; "initech"]).
  simpl. lia.
Defined.

Lemma toggle_flips_witness :
  NoDup (toggleReportSection "swot_analysis" reportSections).
Proof.
  apply (toggle_flips_one_membership "swot_analysis" reportSections).
  apply (bool_decide_unpack _). vm_compute. exact I.
Defined.

Lemma toggle_twice_witness :
  toggleReportSection "market_overview"
    (toggleReportSection "market_overview" ["executive_summary"; "market_overview";
                                             "swot_analysis"]) =
    filter (λ s, s ≠ "market_overview")
           ["executive_summary"; "market_overview"; "swot_analysis"]
    ++ ["market_overview"] ∧
  toggleReportSection "strategic_recommendations"
    (toggleReportSection "strategic_recommendations" reportSections) = reportSections.
Proof.
  split.
  - apply (toggle_twice "market_overview"
             ["executive_summary"; "market_overview"; "swot_analysis"]).
    right. left.
  - apply (toggle_twice "strategic_recommendations" reportSections).
    right. exists ["executive_summary"; "market_overview"; "competitor_analysis";
                   "swot_analysis"; "emerging_trends"].
    split; [reflexivity|]. apply (bool_decide_unpack _). vm_compute. exact I.
Defined.

Lemma selection_witness :
  NoDup (fold_left (λ sel id, toggleReportSection id sel)
                   ["swot_analysis"; "market_overview"; "swot_analysis"] reportSections).
Proof.
  apply (selection_stays_well_formed ["swot_analysis"; "market_overview"; "swot_analysis"]).
  apply (bool_decide_unpack _). vm_compute. exact I.
Defined.

End FormFacts.
